(** * diffparser: a shallow embedding of [diffparser.go] and its properties

    The Go package parses the text of a unified diff into a tree
    [Diff] > [DiffFile] > [DiffHunk] > [DiffRange] > [DiffLine], and offers
    the projection [Changed].  This file embeds the data model, [Parse],
    [Changed] and the helpers they call, and states the behaviour of the
    package as theorems over the embedding.

    Conventions of the embedding.
    - A Go [string] is a sequence of bytes: a Rocq [string] (one [ascii] per
      byte).
    - A Go [int] is taken to be the 64-bit two's-complement integer of the
      usual platforms: a [Z] with [wrap] written at every increment.
    - A call that returns [(v, nil)] is [Ok v], one that returns
      [(nil, err)] is [Err err], and a run-time panic (here: a nil pointer
      dereference) is [Panic].
    - The pointers [file] and [hunk] of [Parse] point into [diff.Files] and
      into a file's [Hunks]; both slices only grow by [append], so a pointer
      is embedded as the index of its target ([None] for [nil]). *)

From Stdlib Require Import ZArith Ascii String List Lia.
From stdpp Require Import gmap strings list.

Local Open Scope Z_scope.

(** ** Results, errors and machine integers *)

Inductive NumErr := ErrSyntax | ErrRange.

(** Go's [error] values met in this package: [errors.New msg] and the
    [*strconv.NumError] of [strconv.Atoi]. *)
Inductive error :=
| errors_New (msg : string)
| NumError (Func Num : string) (e : NumErr).

Inductive result (A : Type) :=
| Ok (a : A)
| Err (e : error)
| Panic (msg : string).
Arguments Ok {A} a.
Arguments Err {A} e.
Arguments Panic {A} msg.

Definition bind {A B} (r : result A) (k : A -> result B) : result B :=
  match r with
  | Ok a => k a
  | Err e => Err e
  | Panic m => Panic m
  end.

Notation "'let*' x ':=' r 'in' k" := (bind r (fun x => k))
  (at level 10, x name, r at level 100, k at level 200).

Definition nil_deref : string := "invalid memory address or nil pointer dereference".

(** 64-bit two's-complement wrap-around. *)
Definition wrap (z : Z) : Z := (z + 2 ^ 63) mod 2 ^ 64 - 2 ^ 63.

(** [x++] on an [int]. *)
Definition incr (x : Z) : Z := wrap (x + 1).

(** ** Strings *)

Definition newline : ascii := "010"%char.
Definition dquote : string := String (ascii_of_nat 34) EmptyString.

Definition is_empty (s : string) : bool :=
  match s with EmptyString => true | _ => false end.

(** [s[n:]] for [n <= len(s)]. *)
Fixpoint string_drop (n : nat) (s : string) : string :=
  match n, s with
  | O, _ => s
  | S n', String _ s' => string_drop n' s'
  | S _, EmptyString => EmptyString
  end.

(** [s[:n]] for [n <= len(s)]. *)
Fixpoint string_take (n : nat) (s : string) : string :=
  match n, s with
  | S n', String c s' => String c (string_take n' s')
  | _, _ => EmptyString
  end.

Definition HasPrefix (s p : string) : bool := String.prefix p s.

(** [strings.CutPrefix]. *)
Definition CutPrefix (s p : string) : string * bool :=
  if HasPrefix s p then (string_drop (String.length p) s, true) else (s, false).

(** [strings.Split(s, sep)] for a one-byte separator: always at least one
    piece. *)
Fixpoint Split (s : string) (sep : ascii) : list string :=
  match s with
  | EmptyString => [EmptyString]
  | String c s' =>
      if Ascii.eqb c sep then EmptyString :: Split s' sep
      else match Split s' sep with
           | x :: xs => String c x :: xs
           | [] => [String c EmptyString]
           end
  end.

Fixpoint no_newline (s : string) : bool :=
  match s with
  | EmptyString => true
  | String c s' => negb (Ascii.eqb c newline) && no_newline s'
  end.

(** *** [strings.Fields]

    [strings.Fields] splits around runs of white space as defined by
    [unicode.IsSpace].  Go decodes the string as UTF-8; the space runes are
    the six ASCII ones, U+0085, U+00A0, U+1680, U+2000 to U+200A, U+2028,
    U+2029, U+202F, U+205F and U+3000.  The decoder only ever skips
    continuation bytes (0x80 to 0xBF) and no encoding of a space rune starts
    with one, so a space rune is found exactly where its encoding stands:
    [space_width] recognises the encodings byte-wise. *)

Definition asciiSpace (c : ascii) : bool :=
  let n := nat_of_ascii c in
  ((9 <=? n)%nat && (n <=? 13)%nat) || (n =? 32)%nat.

(** Width in bytes of the space rune [s] starts with, [0%nat] if none. *)
Definition space_width (s : string) : nat :=
  match s with
  | EmptyString => 0
  | String c0 s1 =>
      if asciiSpace c0 then 1
      else
        match nat_of_ascii c0, s1 with
        | 194%nat, String c1 _ =>
            let n1 := nat_of_ascii c1 in
            if (n1 =? 133)%nat || (n1 =? 160)%nat then 2 else 0
        | 225%nat, String c1 (String c2 _) =>
            if (nat_of_ascii c1 =? 154)%nat && (nat_of_ascii c2 =? 128)%nat then 3 else 0
        | 226%nat, String c1 (String c2 _) =>
            let n1 := nat_of_ascii c1 in
            let n2 := nat_of_ascii c2 in
            if (n1 =? 128)%nat
               && (((128 <=? n2)%nat && (n2 <=? 138)%nat)
                   || (n2 =? 168)%nat || (n2 =? 169)%nat || (n2 =? 175)%nat)
            then 3
            else if (n1 =? 129)%nat && (n2 =? 159)%nat then 3 else 0
        | 227%nat, String c1 (String c2 _) =>
            if (nat_of_ascii c1 =? 128)%nat && (nat_of_ascii c2 =? 128)%nat then 3 else 0
        | _, _ => 0
        end
  end%nat.

(** [r] reversed, in front of [acc]. *)
Fixpoint string_rev_onto (r acc : string) : string :=
  match r with
  | EmptyString => acc
  | String c r' => string_rev_onto r' (String c acc)
  end.

(** The field read so far, if any, in front of the fields [k]. *)
Definition flush (cur : string) (k : list string) : list string :=
  if is_empty cur then k else string_rev_onto cur EmptyString :: k.

(** [fields_from s skip cur]: the fields of [s], where the first [skip]
    bytes still belong to a space rune and [cur] holds the bytes of the
    field being read, last byte first. *)
Fixpoint fields_from (s : string) (skip : nat) (cur : string) : list string :=
  match s with
  | EmptyString => flush cur []
  | String c s' =>
      match skip with
      | S k => fields_from s' k cur
      | O =>
          match space_width s with
          | O => fields_from s' 0 (String c cur)
          | S k => flush cur (fields_from s' k EmptyString)
          end
      end
  end.

Definition Fields (s : string) : list string := fields_from s 0 EmptyString.

(** Every byte of [s] satisfies [p]. *)
Fixpoint string_forallb (p : ascii -> bool) (s : string) : bool :=
  match s with
  | EmptyString => true
  | String c s' => p c && string_forallb p s'
  end.

(** *** [strconv.Atoi] *)

Definition is_digit (c : ascii) : bool :=
  let n := nat_of_ascii c in (48 <=? n)%nat && (n <=? 57)%nat.

Fixpoint all_digits (s : string) : bool :=
  match s with
  | EmptyString => true
  | String c s' => is_digit c && all_digits s'
  end.

(** Value of a digit string, most significant digit first. *)
Fixpoint digits_val (acc : Z) (s : string) : Z :=
  match s with
  | EmptyString => acc
  | String c s' => digits_val (acc * 10 + (Z.of_nat (nat_of_ascii c) - 48)) s'
  end.

Definition Atoi (s : string) : result Z :=
  let syntax := Err (NumError "Atoi" s ErrSyntax) in
  let range := Err (NumError "Atoi" s ErrRange) in
  let '(neg, body) :=
    match s with
    | String c s' =>
        if Ascii.eqb c "-" then (true, s')
        else if Ascii.eqb c "+" then (false, s') else (false, s)
    | EmptyString => (false, s)
    end in
  if is_empty body then syntax
  else if negb (all_digits body) then syntax
  else
    let un := digits_val 0 body in
    if neg then (if 2 ^ 63 <? un then range else Ok (- un))
    else (if 2 ^ 63 <=? un then range else Ok un).

(** ** Data model *)

Inductive FileMode := DELETED | MODIFIED | NEW | RENAMED.
Inductive DiffLineMode := ADDED | REMOVED | UNCHANGED.

#[global] Instance FileMode_eq_dec : EqDecision FileMode.
Proof. solve_decision. Defined.
#[global] Instance DiffLineMode_eq_dec : EqDecision DiffLineMode.
Proof. solve_decision. Defined.

Module DiffLine.
Record t := mk {
  Mode : DiffLineMode;
  Number : Z;
  Content : string;
  Position : Z
}.
Definition set_Number (n : Z) (l : t) : t :=
  mk (Mode l) n (Content l) (Position l).
End DiffLine.

Module DiffRange.
Record t := mk {
  Start : Z;
  Length : Z;
  Lines : list DiffLine.t
}.
(** The zero value of the struct. *)
Definition zero : t := mk 0 0 [].
(** [r.Lines = append(r.Lines, l)]. *)
Definition append_Lines (l : DiffLine.t) (r : t) : t :=
  mk (Start r) (Length r) (Lines r ++ [l]).
End DiffRange.

Module DiffHunk.
Record t := mk {
  HunkHeader : string;
  OrigRange : DiffRange.t;
  NewRange : DiffRange.t;
  WholeRange : DiffRange.t
}.
Definition zero : t := mk EmptyString DiffRange.zero DiffRange.zero DiffRange.zero.
Definition set_HunkHeader (s : string) (h : t) : t :=
  mk s (OrigRange h) (NewRange h) (WholeRange h).
Definition set_OrigRange (r : DiffRange.t) (h : t) : t :=
  mk (HunkHeader h) r (NewRange h) (WholeRange h).
Definition set_NewRange (r : DiffRange.t) (h : t) : t :=
  mk (HunkHeader h) (OrigRange h) r (WholeRange h).
Definition set_WholeRange (r : DiffRange.t) (h : t) : t :=
  mk (HunkHeader h) (OrigRange h) (NewRange h) r.
(** [hunk.Length()]. *)
Definition Length (h : t) : Z :=
  wrap (Z.of_nat (length (DiffRange.Lines (WholeRange h))) + 1).
End DiffHunk.

Module DiffFile.
Record t := mk {
  DiffHeader : string;
  Mode : FileMode;
  OrigName : string;
  NewName : string;
  Hunks : list DiffHunk.t
}.
Definition set_Mode (m : FileMode) (f : t) : t :=
  mk (DiffHeader f) m (OrigName f) (NewName f) (Hunks f).
Definition set_Hunks (hs : list DiffHunk.t) (f : t) : t :=
  mk (DiffHeader f) (Mode f) (OrigName f) (NewName f) hs.
End DiffFile.

Module Diff.
Record t := mk {
  Files : list DiffFile.t;
  Raw : string;
  PullID : Z
}.
Definition set_Files (fs : list DiffFile.t) (d : t) : t :=
  mk fs (Raw d) (PullID d).
End Diff.

(** ** [Changed] *)

(** The Go map [map[string][]int]; reading a missing key gives the nil
    slice. *)
Definition map_get (m : gmap string (list Z)) (k : string) : list Z :=
  default [] (m !! k).

Definition Changed_line (name : string) (m : gmap string (list Z)) (dl : DiffLine.t)
  : gmap string (list Z) :=
  if decide (DiffLine.Mode dl = ADDED)
  then <[name := map_get m name ++ [DiffLine.Number dl]]> m
  else m.

Definition Changed_hunk (name : string) (m : gmap string (list Z)) (h : DiffHunk.t)
  : gmap string (list Z) :=
  foldl (Changed_line name) m (DiffRange.Lines (DiffHunk.NewRange h)).

Definition Changed_file (m : gmap string (list Z)) (f : DiffFile.t)
  : gmap string (list Z) :=
  if decide (DiffFile.Mode f = DELETED) then m
  else foldl (Changed_hunk (DiffFile.NewName f)) m (DiffFile.Hunks f).

Definition Changed (d : Diff.t) : gmap string (list Z) :=
  foldl Changed_file ∅ (Diff.Files d).

(** ** [lineMode] and [isSourceLine] *)

Definition lineMode (line : string) : result DiffLineMode :=
  match line with
  | String c _ =>
      if Ascii.eqb c " " then Ok UNCHANGED
      else if Ascii.eqb c "+" then Ok ADDED
      else if Ascii.eqb c "-" then Ok REMOVED
      else Err (errors_New ("could not parse line mode for line: " +:+ dquote +:+ line +:+ dquote))
  | EmptyString => Panic "slice bounds out of range [:1] with length 0"
  end.

Definition no_newline_marker : string := "\ No newline at end of file".

Definition isSourceLine (line : string) : bool :=
  if String.eqb line no_newline_marker then false
  else
    let l := String.length line in
    if (l =? 0)%nat
       || ((3 <=? l)%nat
           && (String.eqb (string_take 3 line) "---"
               || String.eqb (string_take 3 line) "+++"))
    then false
    else true.

(** ** Regular expressions

    Go's [regexp] returns the leftmost match and, among the matches that
    start there, the one that a backtracking search finds first.  A pattern
    without flags lets [.] match every character but the newline, [^] and
    [$] only the two ends of the text, and [\d] only the ASCII digits.

    The patterns of [Parse] repeat single characters only ([.+], [\d+]); the
    syntax below has what they use.  Matching is by bytes: [.+] is followed
    by the end of the pattern or by [$], and the literals and digits are
    ASCII, so that stepping by bytes and stepping by runes find the same
    matches. *)

Inductive regex :=
| Lit (p : string)               (* a literal string *)
| Cat (r1 r2 : regex)            (* r1 r2 *)
| Alt (r1 r2 : regex)            (* r1|r2, r1 preferred *)
| Opt (r : regex)                (* r?, greedy *)
| Plus (p : ascii -> bool)       (* c+ for a class c of characters, greedy *)
| Group (n : nat) (r : regex)    (* the n-th parenthesised group *)
| Begin                          (* ^ *)
| End.                           (* $ *)

Declare Scope regex_scope.
Delimit Scope regex_scope with regex.
Bind Scope regex_scope with regex.
Infix ">>" := Cat (at level 60, right associativity) : regex_scope.

(** What follows the part of the pattern being matched: the rest of the
    text and the submatches so far go in, the submatches of the whole match
    come out. *)
Definition continuation := string -> list string -> option (list string).

(** [c+]: as many characters as possible first, then fewer. *)
Fixpoint plus (p : ascii -> bool) (s : string) (m : list string) (k : continuation)
  : option (list string) :=
  match s with
  | String c s' =>
      if p c
      then match plus p s' m k with
           | Some x => Some x
           | None => k s' m
           end
      else None
  | EmptyString => None
  end.

(** The backtracking search for a match of [r] at the start of [s], a
    suffix of [text]. *)
Fixpoint backtrack (text : string) (r : regex) (s : string) (m : list string)
    (k : continuation) : option (list string) :=
  match r with
  | Lit p => if HasPrefix s p then k (string_drop (String.length p) s) m else None
  | Cat r1 r2 => backtrack text r1 s m (fun s' m' => backtrack text r2 s' m' k)
  | Alt r1 r2 =>
      match backtrack text r1 s m k with
      | Some x => Some x
      | None => backtrack text r2 s m k
      end
  | Opt r1 =>
      match backtrack text r1 s m k with
      | Some x => Some x
      | None => k s m
      end
  | Plus p => plus p s m k
  | Group n r1 =>
      backtrack text r1 s m
        (fun s' m' => k s' (<[n := string_take (String.length s - String.length s') s]> m'))
  | Begin => if (String.length s =? String.length text)%nat then k s m else None
  | End => if is_empty s then k s m else None
  end.

(** The highest group number of a pattern. *)
Fixpoint groups (r : regex) : nat :=
  match r with
  | Cat r1 r2 | Alt r1 r2 => Nat.max (groups r1) (groups r2)
  | Opt r1 => groups r1
  | Group n r1 => Nat.max n (groups r1)
  | _ => 0%nat
  end.

(** The match at the start of [s], with the whole match as submatch 0. *)
Definition match_at (text : string) (r : regex) (s : string) : option (list string) :=
  backtrack text r s (replicate (S (groups r)) EmptyString)
    (fun s' m' => Some (<[0%nat := string_take (String.length s - String.length s') s]> m')).

(** The leftmost match from [s] on. *)
Fixpoint find_from (text : string) (r : regex) (s : string) : list string :=
  match match_at text r s with
  | Some m => m
  | None =>
      match s with
      | EmptyString => []
      | String _ s' => find_from text r s'
      end
  end.

(** [re.FindStringSubmatch(s)]: [nil] when there is no match, an unmatched
    group gives the empty string. *)
Definition FindStringSubmatch (r : regex) (s : string) : list string := find_from s r s.

(** [re.MatchString(s)]. *)
Definition MatchString (r : regex) (s : string) : bool :=
  match FindStringSubmatch r s with
  | [] => false
  | _ => true
  end.

Definition not_newline (c : ascii) : bool := negb (Ascii.eqb c newline).

(** [^index .+$] *)
Definition rein : regex :=
  (Begin >> Lit "index " >> Plus not_newline >> End)%regex.

(** [^(-|\+){3} .+$] *)
Definition remp : regex :=
  let sign := Group 1 (Alt (Lit "-") (Lit "+")) in
  (Begin >> sign >> sign >> sign >> Lit " " >> Plus not_newline >> End)%regex.

(** [@@ \-(\d+),?(\d+)? \+(\d+),?(\d+)? @@ ?(.+)?] *)
Definition hunkRe : regex :=
  (Lit "@@ -" >> Group 1 (Plus is_digit) >> Opt (Lit ",") >> Opt (Group 2 (Plus is_digit))
   >> Lit " +" >> Group 3 (Plus is_digit) >> Opt (Lit ",") >> Opt (Group 4 (Plus is_digit))
   >> Lit " @@" >> Opt (Lit " ") >> Opt (Group 5 (Plus not_newline)))%regex.

(** ** [Parse] *)

(** The local variables of [Parse]. *)
Record state := mkState {
  diff : Diff.t;
  file : option nat;
  hunk : option (nat * nat);
  ADDEDCount : Z;
  REMOVEDCount : Z;
  inHunk : bool;
  diffPosCount : Z;
  firstHunkInFile : bool
}.

Definition init (diffString : string) : state :=
  mkState (Diff.mk [] diffString 0) None None 0 0 false 0 false.

Definition set_diffPosCount (p : Z) (st : state) : state :=
  mkState (diff st) (file st) (hunk st) (ADDEDCount st) (REMOVEDCount st)
          (inHunk st) p (firstHunkInFile st).

Definition set_Files (fs : list DiffFile.t) (st : state) : state :=
  mkState (Diff.set_Files fs (diff st)) (file st) (hunk st) (ADDEDCount st)
          (REMOVEDCount st) (inHunk st) (diffPosCount st) (firstHunkInFile st).

(** Lines 180-188: the names read off the [diff ] line. *)
Definition file_names (l : string) : string * string :=
  let fields := Fields l in
  if (3 <=? length fields)%nat then
    let from := fields !!! (length fields - 2)%nat in
    let to := fields !!! (length fields - 1)%nat in
    (let '(original, ok) := CutPrefix from "a/" in if ok then original else EmptyString,
     let '(updated, ok) := CutPrefix to "b/" in if ok then updated else EmptyString)
  else (EmptyString, EmptyString).

Definition nl : string := String newline EmptyString.

(** Lines 190-205: the header of the file that starts at [lines[idx]]. *)
Definition file_header (lines : list string) (idx : nat) (l : string) : string :=
  if (idx + 3 <? length lines)%nat then
    let index := lines !!! (idx + 1)%nat in
    let header := if MatchString rein index then l +:+ nl +:+ index else l in
    let mp1 := lines !!! (idx + 2)%nat in
    let mp2 := lines !!! (idx + 3)%nat in
    if MatchString remp mp1 && MatchString remp mp2
    then header +:+ nl +:+ mp1 +:+ nl +:+ mp2
    else header
  else l.

(** [file.Mode = m], through the pointer [file]. *)
Definition set_file_Mode (m : FileMode) (st : state) : result state :=
  match file st with
  | None => Panic nil_deref
  | Some i => Ok (set_Files (alter (DiffFile.set_Mode m) i (Diff.Files (diff st))) st)
  end.

(** Lines 224-265: the hunk a [@@ ] line describes. *)
Definition parse_hunk (l : string) : result DiffHunk.t :=
  let m := FindStringSubmatch hunkRe l in
  if (length m <? 5)%nat then Err (errors_New ("Error parsing line: " +:+ l))
  else
    let* a := Atoi (m !!! 1%nat) in
    let* b := (if (0 <? String.length (m !!! 2%nat))%nat then Atoi (m !!! 2%nat) else Ok a) in
    let* c := Atoi (m !!! 3%nat) in
    let* d := (if (0 <? String.length (m !!! 4%nat))%nat then Atoi (m !!! 4%nat) else Ok c) in
    let h0 := DiffHunk.zero in
    let h1 := if (0 <? String.length (m !!! 5%nat))%nat
              then DiffHunk.set_HunkHeader (m !!! 5%nat) h0 else h0 in
    let h2 := DiffHunk.set_OrigRange (DiffRange.mk a b []) h1 in
    Ok (DiffHunk.set_NewRange (DiffRange.mk c d []) h2).

(** Lines 275-305: a body line of mode [m] added to the ranges of a hunk. *)
Definition add_line (m : DiffLineMode) (line : DiffLine.t) (added removed : Z)
    (h : DiffHunk.t) : DiffHunk.t :=
  let newLine := DiffLine.set_Number added line in
  let origLine := DiffLine.set_Number removed line in
  match m with
  | ADDED =>
      DiffHunk.set_WholeRange (DiffRange.append_Lines newLine (DiffHunk.WholeRange h))
        (DiffHunk.set_NewRange (DiffRange.append_Lines newLine (DiffHunk.NewRange h)) h)
  | REMOVED =>
      DiffHunk.set_WholeRange (DiffRange.append_Lines origLine (DiffHunk.WholeRange h))
        (DiffHunk.set_OrigRange (DiffRange.append_Lines origLine (DiffHunk.OrigRange h)) h)
  | UNCHANGED =>
      DiffHunk.set_OrigRange (DiffRange.append_Lines origLine (DiffHunk.OrigRange h))
        (DiffHunk.set_WholeRange (DiffRange.append_Lines newLine (DiffHunk.WholeRange h))
          (DiffHunk.set_NewRange (DiffRange.append_Lines newLine (DiffHunk.NewRange h)) h))
  end.

(** One iteration of the loop of [Parse], on [l = lines[idx]].

    The Go code appends the new file, or the new hunk, to its slice first
    and fills it in through the pointer afterwards.  Nothing reads the slice
    in between and a failed parse returns no Diff, so the embedding appends
    the file or hunk as filled in; the nil pointer [file] is still
    dereferenced before the hunk header is parsed.  An index that [file]
    holds is always one of [diff.Files] (see [pointers_ok] below). *)
Definition Parse_line (lines : list string) (idx : nat) (l : string) (st0 : state)
  : result state :=
  let st := set_diffPosCount (incr (diffPosCount st0)) st0 in
  let files := Diff.Files (diff st) in
  if HasPrefix l "diff " then
    let '(orig, new) := file_names l in
    let f := DiffFile.mk (file_header lines idx l) MODIFIED orig new [] in
    Ok (mkState (Diff.set_Files (files ++ [f]) (diff st)) (Some (length files)) (hunk st)
                (ADDEDCount st) (REMOVEDCount st) false (diffPosCount st) true)
  else if HasPrefix l "deleted file " then set_file_Mode DELETED st
  else if HasPrefix l "new file " then set_file_Mode NEW st
  else if HasPrefix l "rename " then set_file_Mode RENAMED st
  else if HasPrefix l "@@ " then
    let pos := if firstHunkInFile st then 0 else diffPosCount st in
    match file st with
    | None => Panic nil_deref
    | Some i =>
        match files !! i with
        | None => Panic nil_deref
        | Some f =>
            let* h := parse_hunk l in
            let j := length (DiffFile.Hunks f) in
            let f' := DiffFile.set_Hunks (DiffFile.Hunks f ++ [h]) f in
            Ok (mkState (Diff.set_Files (<[i := f']> files) (diff st)) (file st) (Some (i, j))
                        (DiffRange.Start (DiffHunk.NewRange h))
                        (DiffRange.Start (DiffHunk.OrigRange h))
                        true pos false)
        end
    end
  else if inHunk st && isSourceLine l then
    let* m := lineMode l in
    let line := DiffLine.mk m 0 (string_drop 1 l) (diffPosCount st) in
    match hunk st with
    | None => Panic nil_deref
    | Some (i, j) =>
        let upd := add_line m line (ADDEDCount st) (REMOVEDCount st) in
        let files' :=
          alter (fun f => DiffFile.set_Hunks (alter upd j (DiffFile.Hunks f)) f) i files in
        Ok (mkState (Diff.set_Files files' (diff st)) (file st) (hunk st)
                    (match m with REMOVED => ADDEDCount st | _ => incr (ADDEDCount st) end)
                    (match m with ADDED => REMOVEDCount st | _ => incr (REMOVEDCount st) end)
                    (inHunk st) (diffPosCount st) (firstHunkInFile st))
    end
  else Ok st.

Fixpoint Parse_loop (lines : list string) (idx : nat) (rest : list string) (st : state)
  : result state :=
  match rest with
  | [] => Ok st
  | l :: rest' =>
      let* st' := Parse_line lines idx l st in
      Parse_loop lines (S idx) rest' st'
  end.

Definition Parse (diffString : string) : result Diff.t :=
  let lines := Split diffString newline in
  let* st := Parse_loop lines 0 lines (init diffString) in
  Ok (diff st).

(** ** The loop of [Parse], case by case *)

(** The [switch] of [Parse] looks at the prefix of the line first. *)
Inductive line_class := FileStart | ModeLine (m : FileMode) | HunkStart | Body.

#[global] Instance line_class_eq_dec : EqDecision line_class.
Proof. solve_decision. Defined.

Definition classify (l : string) : line_class :=
  if HasPrefix l "diff " then FileStart
  else if HasPrefix l "deleted file " then ModeLine DELETED
  else if HasPrefix l "new file " then ModeLine NEW
  else if HasPrefix l "rename " then ModeLine RENAMED
  else if HasPrefix l "@@ " then HunkStart
  else Body.

(** The state once [diffPosCount++] has run. *)
Definition tick (st : state) : state := set_diffPosCount (incr (diffPosCount st)) st.

Definition files_of (st : state) : list DiffFile.t := Diff.Files (diff st).

(** [hunk] of file [i], hunk [j]. *)
Definition hunk_at (fs : list DiffFile.t) (i j : nat) : option DiffHunk.t :=
  match fs !! i with
  | Some f => DiffFile.Hunks f !! j
  | None => None
  end.

(** The write of a body line through the pointer [hunk = (i, j)]. *)
Definition write_hunk (upd : DiffHunk.t -> DiffHunk.t) (i j : nat)
    (fs : list DiffFile.t) : list DiffFile.t :=
  alter (fun f => DiffFile.set_Hunks (alter upd j (DiffFile.Hunks f)) f) i fs.

(** The file that the file-start line [l = lines[idx]] opens. *)
Definition new_file (lines : list string) (idx : nat) (l : string) : DiffFile.t :=
  DiffFile.mk (file_header lines idx l) MODIFIED (fst (file_names l)) (snd (file_names l)) [].

(** The body line [l], met at position [pos]. *)
Definition body_line (m : DiffLineMode) (l : string) (pos : Z) : DiffLine.t :=
  DiffLine.mk m 0 (string_drop 1 l) pos.

(** The successful iterations of the loop of [Parse], as a step relation:
    [Parse_step lines idx l st st'] when the iteration on [l = lines[idx]]
    takes the state [st] to [st']. *)
Inductive Parse_step (lines : list string) (idx : nat) (l : string) (st : state)
  : state -> Prop :=
| step_file_start :
    classify l = FileStart ->
    Parse_step lines idx l st
      (mkState (Diff.set_Files (files_of st ++ [new_file lines idx l]) (diff st))
         (Some (length (files_of st))) (hunk st) (ADDEDCount st) (REMOVEDCount st)
         false (incr (diffPosCount st)) true)
| step_mode m i :
    classify l = ModeLine m ->
    file st = Some i ->
    Parse_step lines idx l st
      (set_Files (alter (DiffFile.set_Mode m) i (files_of st)) (tick st))
| step_hunk_start i f h :
    classify l = HunkStart ->
    file st = Some i ->
    files_of st !! i = Some f ->
    parse_hunk l = Ok h ->
    Parse_step lines idx l st
      (mkState
         (Diff.set_Files
            (<[i := DiffFile.set_Hunks (DiffFile.Hunks f ++ [h]) f]> (files_of st))
            (diff st))
         (Some i) (Some (i, length (DiffFile.Hunks f)))
         (DiffRange.Start (DiffHunk.NewRange h))
         (DiffRange.Start (DiffHunk.OrigRange h))
         true
         (if firstHunkInFile st then 0 else incr (diffPosCount st))
         false)
| step_content m i j :
    classify l = Body ->
    inHunk st = true ->
    isSourceLine l = true ->
    lineMode l = Ok m ->
    hunk st = Some (i, j) ->
    Parse_step lines idx l st
      (mkState
         (Diff.set_Files
            (write_hunk
               (add_line m (body_line m l (incr (diffPosCount st)))
                  (ADDEDCount st) (REMOVEDCount st))
               i j (files_of st))
            (diff st))
         (file st) (Some (i, j))
         (match m with REMOVED => ADDEDCount st | _ => incr (ADDEDCount st) end)
         (match m with ADDED => REMOVEDCount st | _ => incr (REMOVEDCount st) end)
         true (incr (diffPosCount st)) (firstHunkInFile st))
| step_skip :
    classify l = Body ->
    inHunk st && isSourceLine l = false ->
    Parse_step lines idx l st (tick st).

(** ** Counting the lines of a hunk *)

Definition count_mode (m : DiffLineMode) (ls : list DiffLine.t) : nat :=
  length (filter (fun dl => DiffLine.Mode dl = m) ls).

(** Line conservation of a hunk; the added, removed and unchanged lines of
    a hunk are counted in its whole range, which holds every body line
    once. *)
Definition line_conservation (h : DiffHunk.t) : Prop :=
  let whole := DiffRange.Lines (DiffHunk.WholeRange h) in
  length whole = (count_mode ADDED whole + count_mode REMOVED whole
                  + count_mode UNCHANGED whole)%nat
  /\ length (DiffRange.Lines (DiffHunk.NewRange h))
     = (count_mode ADDED whole + count_mode UNCHANGED whole)%nat
  /\ length (DiffRange.Lines (DiffHunk.OrigRange h))
     = (count_mode REMOVED whole + count_mode UNCHANGED whole)%nat.

(** A property of every hunk of every file. *)
Definition all_hunks (Q : DiffHunk.t -> Prop) (fs : list DiffFile.t) : Prop :=
  Forall (fun f => Forall Q (DiffFile.Hunks f)) fs.

(** ** Lines met inside an active hunk *)

(** [l] is a physical line of [s], met by the scan (which came through the
    lines [pre] before it) while a hunk is active. *)
Definition in_active_hunk (s : string) (pre : list string) (l : string)
    (post : list string) : Prop :=
  Split s newline = pre ++ l :: post
  /\ exists st, Parse_loop (Split s newline) 0 pre (init s) = Ok st
                /\ inHunk st = true.

(** [l] qualifies as content and its first character is none of [' '],
    ['+'], ['-']. *)
Definition unknown_mode_line (l : string) : Prop :=
  isSourceLine l = true
  /\ exists c r, l = String c r /\ c <> " "%char /\ c <> "+"%char /\ c <> "-"%char.

Definition lineMode_error (l : string) : error :=
  errors_New ("could not parse line mode for line: " +:+ dquote +:+ l +:+ dquote).

(** ** Where the pointers of [Parse] point *)

Definition last_index {A} (l : list A) : option nat :=
  match length l with
  | O => None
  | S n => Some n
  end.

(** [file] is nil until the first file is appended and then points to the
    last file; while [inHunk], [hunk] points to the last hunk of that file;
    while [firstHunkInFile], that file has no hunk yet. *)
Definition pointers_ok (st : state) : Prop :=
  file st = last_index (files_of st)
  /\ (inHunk st = true ->
      exists i f j, file st = Some i /\ files_of st !! i = Some f
                    /\ hunk st = Some (i, j) /\ length (DiffFile.Hunks f) = S j)
  /\ (firstHunkInFile st = true ->
      inHunk st = false
      /\ exists i f, file st = Some i /\ files_of st !! i = Some f
                     /\ DiffFile.Hunks f = []).

(** ** What [Changed] collects *)

(** The numbers of the Added-mode lines of the new range of a hunk, and of
    all hunks of a file, in order. *)
Definition added_numbers_hunk (h : DiffHunk.t) : list Z :=
  map DiffLine.Number
      (filter (fun dl => DiffLine.Mode dl = ADDED) (DiffRange.Lines (DiffHunk.NewRange h))).

Definition added_numbers (f : DiffFile.t) : list Z :=
  concat (map added_numbers_hunk (DiffFile.Hunks f)).

(** The files that write under the key [k]. *)
Definition writes_to (k : string) (f : DiffFile.t) : Prop :=
  DiffFile.Mode f <> DELETED /\ DiffFile.NewName f = k.

#[global] Instance writes_to_dec k f : Decision (writes_to k f).
Proof. unfold writes_to. apply _. Defined.

Definition changed_under (k : string) (fs : list DiffFile.t) : list Z :=
  concat (map added_numbers (filter (writes_to k) fs)).

(** No key of the map holds an empty slice. *)
Definition no_empty_entry (m : gmap string (list Z)) : Prop :=
  forall k, m !! k <> Some [].

(** ** The paths of a file *)

(** The file-start lines among [lines], in order. *)
Definition file_start_lines (lines : list string) : list string :=
  filter (fun l => HasPrefix l "diff " = true) lines.

(** The last two tokens of a [diff ] line, when it has three tokens or
    more. *)
Definition path_hints (l : string) : option string * option string :=
  let toks := Fields l in
  if (3 <=? length toks)%nat
  then (toks !! (length toks - 2)%nat, toks !! (length toks - 1)%nat)
  else (None, None).

(** [path_from marker tok p]: the path [p] read off the token [tok] that
    should carry [marker]: the token stripped of the marker, or the empty
    string when there is no token or it does not start with the marker. *)
Inductive path_from (marker : string) (tok : option string) : string -> Prop :=
| path_stripped p : tok = Some (marker +:+ p) -> path_from marker tok p
| path_empty : (forall p, tok <> Some (marker +:+ p)) -> path_from marker tok EmptyString.

Definition names_of (f : DiffFile.t) : string * string :=
  (DiffFile.OrigName f, DiffFile.NewName f).

(** ** Hunks only grow *)

(** The fields of a range that the hunk header fixes. *)
Definition window (r : DiffRange.t) : Z * Z := (DiffRange.Start r, DiffRange.Length r).

(** [h'] is [h] with more lines at the end of its ranges. *)
Definition hunk_extends (h h' : DiffHunk.t) : Prop :=
  DiffHunk.HunkHeader h' = DiffHunk.HunkHeader h
  /\ window (DiffHunk.OrigRange h') = window (DiffHunk.OrigRange h)
  /\ window (DiffHunk.NewRange h') = window (DiffHunk.NewRange h)
  /\ DiffRange.Lines (DiffHunk.OrigRange h) `prefix_of` DiffRange.Lines (DiffHunk.OrigRange h')
  /\ DiffRange.Lines (DiffHunk.NewRange h) `prefix_of` DiffRange.Lines (DiffHunk.NewRange h')
  /\ DiffRange.Lines (DiffHunk.WholeRange h) `prefix_of` DiffRange.Lines (DiffHunk.WholeRange h').

(** ** Well-formed hunk headers *)

(** A non-empty string of ASCII digits. *)
Definition is_number (d : string) : Prop := d <> EmptyString /\ all_digits d = true.

Definition opt_number (o : option string) : Prop :=
  match o with Some d => is_number d | None => True end.

Definition opt_suffix (sep : string) (o : option string) : string :=
  match o with Some d => sep +:+ d | None => EmptyString end.

(** The line [@@ -A[,B] +C[,D] @@[ heading]]. *)
Definition hunk_header_line (A : string) (B : option string) (C : string)
    (D : option string) (heading : option string) : string :=
  "@@ -" +:+ A +:+ opt_suffix "," B +:+ " +" +:+ C +:+ opt_suffix "," D +:+ " @@"
  +:+ opt_suffix " " heading.

(** The integer a digit string denotes. *)
Definition number (d : string) : Z := digits_val 0 d.

(** The first byte of [s], if any, satisfies [p]. *)
Definition starts_in (p : ascii -> bool) (s : string) : bool :=
  match s with String c _ => p c | EmptyString => false end.

(** ** The first content line of a file *)

(** [cl] is the first content line of the first hunk of the file that the
    file-start line [dl] opens: [hl] is the first hunk-start line behind
    [dl], and the lines [skipped] between [hl] and [cl] do not qualify as
    content. *)
Definition first_content_line (s : string) (pre : list string) (dl : string)
    (mid : list string) (hl : string) (skipped : list string) (cl : string)
    (post : list string) : Prop :=
  Split s newline = pre ++ dl :: mid ++ hl :: skipped ++ cl :: post
  /\ classify dl = FileStart
  /\ Forall (fun l => classify l <> FileStart /\ classify l <> HunkStart) mid
  /\ classify hl = HunkStart
  /\ Forall (fun l => classify l = Body /\ isSourceLine l = false) skipped
  /\ classify cl = Body
  /\ isSourceLine cl = true.

(** The first line of the first hunk of file [n] has position [p]. *)
Definition first_line_position (d : Diff.t) (n : nat) (p : Z) : Prop :=
  exists h x,
    hunk_at (Diff.Files d) n 0 = Some h
    /\ DiffRange.Lines (DiffHunk.WholeRange h) !! 0%nat = Some x
    /\ DiffLine.Position x = p.

Definition is_hunk_start (l : string) : bool :=
  match classify l with HunkStart => true | _ => false end.

(** ** Modes of the lines of a file *)

Definition no_mode_in (m : DiffLineMode) (ls : list DiffLine.t) : Prop :=
  Forall (fun dl => DiffLine.Mode dl <> m) ls.

(** No new range of the file holds an Added line. *)
Definition no_added (f : DiffFile.t) : Prop :=
  Forall (fun h => no_mode_in ADDED (DiffRange.Lines (DiffHunk.NewRange h)))
         (DiffFile.Hunks f).

(** No original range of the file holds a Removed line. *)
Definition no_removed (f : DiffFile.t) : Prop :=
  Forall (fun h => no_mode_in REMOVED (DiffRange.Lines (DiffHunk.OrigRange h)))
         (DiffFile.Hunks f).

(** [sec] is the section of the file that the file-start line [dl] opens:
    the lines up to the next file-start line or the end of the input. *)
Definition file_section (s : string) (pre : list string) (dl : string)
    (sec post : list string) : Prop :=
  Split s newline = pre ++ dl :: sec ++ post
  /\ classify dl = FileStart
  /\ Forall (fun l => classify l <> FileStart) sec
  /\ (post = [] \/ exists dl' post', post = dl' :: post' /\ classify dl' = FileStart).

Definition starts_with (c : ascii) (l : string) : bool :=
  match l with String c' _ => Ascii.eqb c' c | EmptyString => false end.

(** A property of every hunk of file [n], if there is such a file. *)
Definition file_hunks (Q : DiffHunk.t -> Prop) (n : nat) (fs : list DiffFile.t) : Prop :=
  forall f, fs !! n = Some f -> Forall Q (DiffFile.Hunks f).

(** ** Sample inputs *)

Definition unlines (ls : list string) : string := String.concat nl ls.

(** One file, one hunk (scenario A of the specification). *)
Definition sample_head : list string :=
  ["diff --git a/x.txt b/x.txt"; "index 0a1b2c3..4d5e6f7 100644";
   "--- a/x.txt"; "+++ b/x.txt"]%string.

Definition sample_body : list string := [" a"; "+b"; " c"; "-old"]%string.

Definition sample : string :=
  unlines (sample_head ++ "@@ -1,3 +1,4 @@ func foo"%string :: sample_body).

(** Two files, the second one deleted. *)
Definition sample2_first : list string :=
  ["diff --git a/x.txt b/x.txt"; "@@ -1 +1,2 @@"; " x"; "+y"]%string.

Definition sample2_header : list string :=
  ["deleted file mode 100644"; "index 0a1b2c3..0000000";
   "--- a/gone.txt"; "+++ /dev/null"]%string.

Definition sample2 : string :=
  unlines (sample2_first
           ++ "diff --git a/gone.txt b/gone.txt"%string
           :: sample2_header ++ ["@@ -1,2 +0,0 @@"; "-first"; "-second"]%string).

(** A body line of unknown mode. *)
Definition sample3 : string :=
  unlines ["diff --git a/x.txt b/x.txt"; "@@ -1 +1 @@"; "?what"]%string.

Definition parsed (s : string) : Diff.t :=
  match Parse s with
  | Ok d => d
  | _ => Diff.mk [] s 0
  end.

Definition sample_parsed : Diff.t := Eval vm_compute in parsed sample.
Definition sample2_parsed : Diff.t := Eval vm_compute in parsed sample2.

Definition sample_file : DiffFile.t :=
  Eval vm_compute in
    match Diff.Files sample_parsed with
    | f :: _ => f
    | [] => DiffFile.mk EmptyString MODIFIED EmptyString EmptyString []
    end.

Definition sample_hunk : DiffHunk.t :=
  Eval vm_compute in
    match DiffFile.Hunks sample_file with
    | h :: _ => h
    | [] => DiffHunk.zero
    end.

Definition sample2_file : DiffFile.t :=
  Eval vm_compute in
    match Diff.Files sample2_parsed with
    | _ :: f :: _ => f
    | _ => DiffFile.mk EmptyString MODIFIED EmptyString EmptyString []
    end.


(** * The rest of the package

    What follows embeds the two [String] methods and states, for the code
    embedded above, what the output of [Parse] holds line by line. *)

(** ** The names of the modes

    [FileMode] and [DiffLineMode] are [int] types whose constants are
    numbered by [iota]; a value of the type may be any [int].  The [String]
    methods take the [int]. *)

Definition FileMode_int (fm : FileMode) : Z :=
  match fm with DELETED => 0 | MODIFIED => 1 | NEW => 2 | RENAMED => 3 end.

Definition DiffLineMode_int (dlm : DiffLineMode) : Z :=
  match dlm with ADDED => 0 | REMOVED => 1 | UNCHANGED => 2 end.

(** [fm.String()] *)
Definition FileMode_String (fm : Z) : string :=
  if fm =? FileMode_int DELETED then "DELETED"
  else if fm =? FileMode_int MODIFIED then "MODIFIED"
  else if fm =? FileMode_int NEW then "NEW"
  else if fm =? FileMode_int RENAMED then "RENAMED"
  else "UNKNOWN".

(** [dlm.String()] *)
Definition DiffLineMode_String (dlm : Z) : string :=
  if dlm =? DiffLineMode_int ADDED then "ADDED"
  else if dlm =? DiffLineMode_int REMOVED then "REMOVED"
  else if dlm =? DiffLineMode_int UNCHANGED then "UNCHANGED"
  else "UNKNOWN".

(** ** The headers of the files *)

(** The headers of the files that the lines [rest = lines[idx:]] open. *)
Fixpoint headers_from (lines : list string) (idx : nat) (rest : list string)
  : list string :=
  match rest with
  | [] => []
  | l :: rest' =>
      (if decide (classify l = FileStart) then [file_header lines idx l] else [])
      ++ headers_from lines (S idx) rest'
  end.

(** The first line of a text. *)
Definition first_line (text : string) : option string := head (Split text newline).

(** ** The lines of a hunk *)

(** The character that a body line of a mode starts with. *)
Definition mode_char (m : DiffLineMode) : ascii :=
  match m with
  | ADDED => "+"
  | REMOVED => "-"
  | UNCHANGED => " "
  end%char.

(** The body line that a [DiffLine] stands for. *)
Definition source_line (dl : DiffLine.t) : string :=
  String (mode_char (DiffLine.Mode dl)) (DiffLine.Content dl).

(** All the lines that a hunk holds in its three ranges. *)
Definition hunk_lines (h : DiffHunk.t) : list DiffLine.t :=
  DiffRange.Lines (DiffHunk.OrigRange h) ++ DiffRange.Lines (DiffHunk.NewRange h)
  ++ DiffRange.Lines (DiffHunk.WholeRange h).

(** A property of every line of every range of every hunk of every file. *)
Definition all_lines (P : DiffLine.t -> Prop) (fs : list DiffFile.t) : Prop :=
  all_hunks (fun h => Forall P (hunk_lines h)) fs.

(** A [DiffLine] without its number. *)
Definition unnumbered (dl : DiffLine.t) : DiffLineMode * string * Z :=
  (DiffLine.Mode dl, DiffLine.Content dl, DiffLine.Position dl).

(** How the new and the original range of a hunk sit in its whole range. *)
Definition ranges_of_whole (h : DiffHunk.t) : Prop :=
  let whole := DiffRange.Lines (DiffHunk.WholeRange h) in
  let orig := DiffRange.Lines (DiffHunk.OrigRange h) in
  DiffRange.Lines (DiffHunk.NewRange h)
  = filter (fun dl => DiffLine.Mode dl <> REMOVED) whole
  /\ map unnumbered orig
     = map unnumbered (filter (fun dl => DiffLine.Mode dl <> ADDED) whole)
  /\ filter (fun dl => DiffLine.Mode dl = REMOVED) orig
     = filter (fun dl => DiffLine.Mode dl = REMOVED) whole.

(** The lines [ls] are numbered one by one from [start] on. *)
Definition numbered_from (start : Z) (ls : list DiffLine.t) : Prop :=
  forall k dl, ls !! k = Some dl -> DiffLine.Number dl = wrap (start + Z.of_nat k).

Definition range_numbered (r : DiffRange.t) : Prop :=
  numbered_from (DiffRange.Start r) (DiffRange.Lines r).

(** A value of the type [int]. *)
Definition is_int (z : Z) : Prop := - 2 ^ 63 <= z < 2 ^ 63.

(** While a hunk is active the two counters stand behind the lines of its
    new and of its original range. *)
Definition counters_ok (st : state) : Prop :=
  inHunk st = true ->
  exists i j h,
    hunk st = Some (i, j)
    /\ hunk_at (files_of st) i j = Some h
    /\ ADDEDCount st
       = wrap (DiffRange.Start (DiffHunk.NewRange h)
               + Z.of_nat (length (DiffRange.Lines (DiffHunk.NewRange h))))
    /\ REMOVEDCount st
       = wrap (DiffRange.Start (DiffHunk.OrigRange h)
               + Z.of_nat (length (DiffRange.Lines (DiffHunk.OrigRange h)))).

(** ** The section of a file *)

(** The state behind the file-start line [l = lines[idx]]. *)
Definition open_file (lines : list string) (idx : nat) (l : string) (st : state) : state :=
  mkState (Diff.set_Files (files_of st ++ [new_file lines idx l]) (diff st))
    (Some (length (files_of st))) (hunk st) (ADDEDCount st) (REMOVEDCount st)
    false (incr (diffPosCount st)) true.

(** The mode that a line sets, if it is a mode-refinement line. *)
Definition mode_of_line (l : string) : option FileMode :=
  match classify l with
  | ModeLine m => Some m
  | _ => None
  end.

(** The mode that the last mode-refinement line of a section sets;
    [MODIFIED] when the section has none. *)
Definition section_mode (sec : list string) : FileMode :=
  default MODIFIED (last (omap mode_of_line sec)).

(** The hunk-start lines among [lines], in order. *)
Definition hunk_start_lines (lines : list string) : list string :=
  filter (fun l => classify l = HunkStart) lines.

(** The hunk [h] was opened by the hunk-start line [l]. *)
Definition opened_by (h : DiffHunk.t) (l : string) : Prop :=
  exists h0, parse_hunk l = Ok h0 /\ hunk_extends h0 h.

(** ** The body of a hunk *)

(** A line that is recorded when it is met inside a hunk. *)
Definition is_content (l : string) : bool :=
  bool_decide (classify l = Body) && isSourceLine l.

(** The lines of [mid] behind its first hunk-start line, counted; [None]
    when [mid] has no hunk-start line. *)
Fixpoint lines_since_first_hunk (mid : list string) : option nat :=
  match mid with
  | [] => None
  | l :: mid' =>
      if is_hunk_start l then Some (length mid') else lines_since_first_hunk mid'
  end.

(** The position counter behind a hunk-start line, where [mid] are the
    lines between the file-start line and it. *)
Definition hunk_offset (mid : list string) : nat :=
  match lines_since_first_hunk mid with
  | None => 0
  | Some k => S k
  end.

(** What the [k]-th line behind a hunk-start line is recorded as, if it is
    recorded. *)
Definition recorded (off : nat) (k : nat) (l : string)
  : option (DiffLineMode * string * Z) :=
  if is_content l then
    match lineMode l with
    | Ok m => Some (m, string_drop 1 l, wrap (Z.of_nat (off + S k)))
    | _ => None
    end
  else None.

(** The lines that the body of a hunk is recorded as. *)
Definition recorded_lines (off : nat) (body : list string)
  : list (DiffLineMode * string * Z) :=
  omap id (imap (recorded off) body).

(** [hl] is a hunk-start line of the file that [dl] opens, and [body] the
    lines up to the next hunk-start or file-start line. *)
Definition hunk_section (s : string) (pre : list string) (dl : string)
    (mid : list string) (hl : string) (body post : list string) : Prop :=
  Split s newline = pre ++ dl :: mid ++ hl :: body ++ post
  /\ classify dl = FileStart
  /\ Forall (fun l => classify l <> FileStart) mid
  /\ classify hl = HunkStart
  /\ Forall (fun l => classify l <> FileStart /\ classify l <> HunkStart) body
  /\ (post = []
      \/ exists l post', post = l :: post'
                         /\ (classify l = FileStart \/ classify l = HunkStart)).

(** ** Regular expressions, as a relation

    [matches text r s m s' m']: the pattern [r] matches a prefix of [s] and
    leaves [s']; the submatches [m] become [m']. *)

Inductive matches (text : string)
  : regex -> string -> list string -> string -> list string -> Prop :=
| matches_Lit p s m :
    matches text (Lit p) (p +:+ s) m s m
| matches_Cat r1 r2 s m s1 m1 s2 m2 :
    matches text r1 s m s1 m1 -> matches text r2 s1 m1 s2 m2 ->
    matches text (Cat r1 r2) s m s2 m2
| matches_Alt_l r1 r2 s m s' m' :
    matches text r1 s m s' m' -> matches text (Alt r1 r2) s m s' m'
| matches_Alt_r r1 r2 s m s' m' :
    matches text r2 s m s' m' -> matches text (Alt r1 r2) s m s' m'
| matches_Opt_some r s m s' m' :
    matches text r s m s' m' -> matches text (Opt r) s m s' m'
| matches_Opt_none r s m :
    matches text (Opt r) s m s m
| matches_Plus p d s m :
    d <> EmptyString -> string_forallb p d = true ->
    matches text (Plus p) (d +:+ s) m s m
| matches_Group n r s m s' m' :
    matches text r s m s' m' ->
    matches text (Group n r) s m s'
      (<[n := string_take (String.length s - String.length s') s]> m')
| matches_Begin s m :
    String.length s = String.length text -> matches text Begin s m s m
| matches_End m :
    matches text End EmptyString m EmptyString m.

(** A string of ASCII digits, the empty one included. *)
Definition digits (d : string) : Prop := all_digits d = true.

(** The submatches that [hunkRe] gives: the two starts are numbers, the two
    lengths are numbers or empty. *)
Definition header_submatches (m : list string) : Prop :=
  exists whole A B C D heading,
    m = [whole; A; B; C; D; heading]
    /\ is_number A /\ digits B /\ is_number C /\ digits D.

(** A hunk whose two ranges start and measure within [0, 2^63). *)
Definition window_in_range (h : DiffHunk.t) : Prop :=
  let ok z := 0 <= z < 2 ^ 63 in
  ok (DiffRange.Start (DiffHunk.OrigRange h))
  /\ ok (DiffRange.Length (DiffHunk.OrigRange h))
  /\ ok (DiffRange.Start (DiffHunk.NewRange h))
  /\ ok (DiffRange.Length (DiffHunk.NewRange h)).

(** The scan reaches the line [l] with a file open. *)
Definition in_open_file (s : string) (pre : list string) (l : string)
    (post : list string) : Prop :=
  Split s newline = pre ++ l :: post
  /\ exists st, Parse_loop (Split s newline) 0 pre (init s) = Ok st
                /\ file st <> None.

(** The numbers of a hunk header in the order in which [Parse] converts
    them. *)
Definition header_numbers (A : string) (B : option string) (C : string)
    (D : option string) : list string :=
  A :: option_list B ++ C :: option_list D.

(** The first of the numbers [ns] that does not fit an [int]. *)
Definition first_overflow (ns : list string) : option string :=
  List.find (fun n => 2 ^ 63 <=? number n) ns.


(** ** Well-formed input *)

(** A hunk-start line [@@ -A[,B] +C[,D] @@[ heading]] whose numbers fit an
    [int]. *)
Definition well_formed_header (l : string) : Prop :=
  exists A B C D heading,
    l = hunk_header_line A B C D heading
    /\ is_number A /\ opt_number B /\ is_number C /\ opt_number D
    /\ first_overflow (header_numbers A B C D) = None.

(** A line that starts with the character of a mode. *)
Definition has_mode (l : string) : Prop :=
  exists m r, l = String (mode_char m) r.

(** Whether a hunk is open behind the lines [pre]: the last line of [pre]
    that opens a file or a hunk opens a hunk. *)
Definition hunk_open (pre : list string) : bool :=
  fold_left (fun b l => match classify l with
                        | FileStart => false
                        | HunkStart => true
                        | _ => b
                        end) pre false.

(** The first line with one of the five prefixes, if there is one, is a
    file-start line; every hunk-start line is well formed; every line met
    with a hunk open that may be recorded starts with the character of a
    mode. *)
Definition well_formed (lines : list string) : Prop :=
  (Forall (fun l => classify l = Body) lines
   \/ exists pre l post,
        lines = pre ++ l :: post
        /\ Forall (fun l => classify l = Body) pre
        /\ classify l = FileStart)
  /\ Forall (fun l => classify l = HunkStart -> well_formed_header l) lines
  /\ forall pre l post,
       lines = pre ++ l :: post -> hunk_open pre = true -> is_content l = true ->
       has_mode l.

(** ** Paths *)

(** No byte of [p] is ASCII white space. *)
Definition no_space (p : string) : bool :=
  string_forallb (fun c => negb (asciiSpace c)) p.

(** ** Sample inputs *)

(** Text that is no diff. *)
Definition sample4 : string := unlines ["commit 0a1b2c3"; EmptyString; "    a message"]%string.

(** A removed line whose text starts with [--]. *)
Definition sample5 : string :=
  unlines ["diff --git a/q.sql b/q.sql"; "index 0a1b2c3..4d5e6f7 100644";
           "--- a/q.sql"; "+++ b/q.sql"; "@@ -1,3 +1,2 @@"; " SELECT 1;";
           "--- drop the table"; "-DROP TABLE t;"; " SELECT 2;";
           "@@ -10 +9,2 @@ tail"; " x"; "+y"]%string.

Definition sample5_parsed : Diff.t := Eval vm_compute in parsed sample5.

(** A hunk header with a number beyond [int]. *)
Definition sample6 : string :=
  unlines ["diff --git a/x b/x"; "@@ -1,2 +9223372036854775808 @@"; " x"]%string.

(** A diff that only removes lines. *)
Definition sample7 : string :=
  unlines ["diff --git a/gone.txt b/gone.txt"; "--- a/gone.txt"; "+++ /dev/null";
           "@@ -1,2 +0,0 @@"; "-first"; "-second"]%string.

Definition sample7_parsed : Diff.t := Eval vm_compute in parsed sample7.

(** ** The scan inside the section of a file *)

(** The state behind the lines [acc] that follow the file-start line of
    file [n]: the file has the hunks opened so far, and the position
    counter stands at the number of lines behind the first hunk-start
    line. *)
Definition in_section (n : nat) (acc : list string) (st : state) : Prop :=
  pointers_ok st
  /\ file st = Some n
  /\ (exists f, files_of st !! n = Some f
                /\ length (DiffFile.Hunks f) = length (hunk_start_lines acc))
  /\ match lines_since_first_hunk acc with
     | None => firstHunkInFile st = true
     | Some k => firstHunkInFile st = false /\ diffPosCount st = wrap (Z.of_nat k)
     end.

(** The state behind the lines [acc] that follow the hunk-start line of
    hunk [j] of file [n], where the position counter stood at [off] behind
    the hunk-start line. *)
Definition in_hunk_body (n j off : nat) (acc : list string) (st : state) : Prop :=
  pointers_ok st
  /\ inHunk st = true
  /\ hunk st = Some (n, j)
  /\ diffPosCount st = wrap (Z.of_nat (off + length acc))
  /\ exists h,
       hunk_at (files_of st) n j = Some h
       /\ map unnumbered (DiffRange.Lines (DiffHunk.WholeRange h)) = recorded_lines off acc
       /\ length (DiffRange.Lines (DiffHunk.WholeRange h))
          = length (filter (fun l => is_content l = true) acc).

(** The hunk [j] of file [i] is not the one that body lines are written
    to. *)
Definition hunk_closed (i j : nat) (st : state) : Prop :=
  inHunk st = false \/ hunk st <> Some (i, j).

(** The second hunk of [sample5], cut out of the input. *)
Definition sample5_mid : list string :=
  ["index 0a1b2c3..4d5e6f7 100644"; "--- a/q.sql"; "+++ b/q.sql"; "@@ -1,3 +1,2 @@";
   " SELECT 1;"; "--- drop the table"; "-DROP TABLE t;"; " SELECT 2;"]%string.

Definition sample5_body : list string := [" x"; "+y"]%string.

(** ** Two scans of the same lines *)

(** The states of two scans that agree on everything but the input kept and
    the position counter, where the counter is not read before the next
    first hunk-start line of a file puts it to [0]. *)
Definition same_scan (st st' : state) : Prop :=
  Diff.Files (diff st) = Diff.Files (diff st')
  /\ file st = file st'
  /\ hunk st = hunk st'
  /\ ADDEDCount st = ADDEDCount st'
  /\ REMOVEDCount st = REMOVEDCount st'
  /\ inHunk st = inHunk st'
  /\ firstHunkInFile st = firstHunkInFile st'
  /\ (diffPosCount st = diffPosCount st'
      \/ (inHunk st = false /\ (file st = None \/ firstHunkInFile st = true))).

Definition same_result (r r' : result state) : Prop :=
  match r, r' with
  | Ok st, Ok st' => same_scan st st'
  | Err e, Err e' => e = e'
  | Panic m, Panic m' => m = m'
  | _, _ => False
  end.

(** A commit message in front of [sample]. *)
Definition sample8 : string := unlines (Split sample4 newline ++ Split sample newline).

(** * Proofs *)

(** ** Strings *)

Lemma append_String c p r : String c p +:+ r = String c (p +:+ r).
Proof. reflexivity. Qed.

Lemma append_Empty r : EmptyString +:+ r = r.
Proof. reflexivity. Qed.

Lemma append_nil_r s : s +:+ EmptyString = s.
Proof. induction s as [|c s IH]; [reflexivity|]. rewrite append_String. now f_equal. Qed.

Lemma length_append a b : String.length (a +:+ b) = (String.length a + String.length b)%nat.
Proof.
  induction a as [|c a IH]; [reflexivity|]. rewrite append_String. simpl. now f_equal.
Qed.

Lemma string_take_app a b : string_take (String.length a) (a +:+ b) = a.
Proof.
  induction a as [|c a IH]; [destruct b; reflexivity|].
  rewrite append_String. simpl. now f_equal.
Qed.

Lemma string_take_all s : string_take (String.length s - 0) s = s.
Proof. rewrite Nat.sub_0_r. rewrite <- (append_nil_r s) at 2. apply string_take_app. Qed.

Lemma string_drop_app p r : string_drop (String.length p) (p +:+ r) = r.
Proof. induction p as [|c p IH]; simpl; [reflexivity|exact IH]. Qed.

Lemma HasPrefix_app p r : HasPrefix (p +:+ r) p = true.
Proof.
  unfold HasPrefix. induction p as [|c p IH]; simpl.
  - destruct r; reflexivity.
  - destruct (ascii_dec c c); [exact IH|congruence].
Qed.

Lemma HasPrefix_inv s p :
  HasPrefix s p = true -> s = p +:+ string_drop (String.length p) s.
Proof.
  unfold HasPrefix. revert s. induction p as [|c p IH]; intros s H; simpl.
  - reflexivity.
  - destruct s as [|c' s]; simpl in H; [discriminate|].
    destruct (ascii_dec c c') as [->|]; [|discriminate].
    rewrite append_String. f_equal. apply IH, H.
Qed.

Lemma all_digits_forallb d : all_digits d = string_forallb is_digit d.
Proof. induction d as [|c d IH]; [reflexivity|]. simpl. now rewrite IH. Qed.

Lemma no_newline_forallb t : no_newline t = string_forallb not_newline t.
Proof. induction t as [|c t IH]; [reflexivity|]. simpl. now rewrite IH. Qed.

Lemma no_newline_app_r a b : no_newline (a +:+ b) = true -> no_newline b = true.
Proof.
  induction a as [|c a IH]; [rewrite append_Empty; auto|].
  rewrite append_String. simpl. intros H. apply andb_true_iff in H as [_ H]. auto.
Qed.

(** The lines that [Split] gives hold no newline. *)
Lemma Split_no_newline s : Forall (fun l => no_newline l = true) (Split s newline).
Proof.
  induction s as [|c s IH]; simpl.
  - repeat constructor.
  - destruct (Ascii.eqb c newline) eqn:E.
    + constructor; [reflexivity|exact IH].
    + destruct (Split s newline) as [|x xs]; [repeat constructor; simpl; now rewrite E|].
      inversion IH as [|? ? Hx Hxs]; subst. constructor; [|exact Hxs].
      simpl. now rewrite E, Hx.
Qed.

Lemma CutPrefix_path_from marker tok :
  path_from marker (Some tok)
    (let '(p, ok) := CutPrefix tok marker in if ok then p else EmptyString).
Proof.
  unfold CutPrefix. destruct (HasPrefix tok marker) eqn:E.
  - apply path_stripped. f_equal. apply HasPrefix_inv, E.
  - apply path_empty. intros p [= ->]. rewrite HasPrefix_app in E. discriminate.
Qed.

(** ** The backtracking search on a well-formed hunk header *)

Lemma is_number_cons d : is_number d -> exists c r, d = String c r /\ is_digit c = true.
Proof.
  intros [Hne Hd]. destruct d as [|c r]; [congruence|].
  simpl in Hd. apply andb_true_iff in Hd as [Hc _]. eauto.
Qed.

(** [c+] takes the whole run of [c]s when what follows the pattern matches
    behind the run. *)
Lemma plus_greedy p d r m (k : continuation) x :
  d <> EmptyString -> string_forallb p d = true -> starts_in p r = false ->
  k r m = Some x ->
  plus p (d +:+ r) m k = Some x.
Proof.
  intros Hne Hd Hr Hk. induction d as [|c d IH]; [congruence|].
  simpl in Hd. apply andb_true_iff in Hd as [Hc Hd]. rewrite append_String. simpl.
  rewrite Hc. destruct d as [|c' d].
  - rewrite append_Empty. destruct r as [|c' r]; simpl in *; [exact Hk|].
    rewrite Hr. exact Hk.
  - rewrite IH; [reflexivity|discriminate|exact Hd].
Qed.

Lemma backtrack_Cat text r1 r2 s m k :
  backtrack text (r1 >> r2) s m k
  = backtrack text r1 s m (fun s' m' => backtrack text r2 s' m' k).
Proof. reflexivity. Qed.

Lemma backtrack_Lit text p r m k : backtrack text (Lit p) (p +:+ r) m k = k r m.
Proof. simpl. rewrite HasPrefix_app, string_drop_app. reflexivity. Qed.

Lemma backtrack_Group_Plus text n p d r m (k : continuation) x :
  d <> EmptyString -> string_forallb p d = true -> starts_in p r = false ->
  k r (<[n := d]> m) = Some x ->
  backtrack text (Group n (Plus p)) (d +:+ r) m k = Some x.
Proof.
  intros Hne Hd Hr Hk. simpl. apply plus_greedy; auto.
  rewrite length_append, Nat.add_sub, string_take_app. exact Hk.
Qed.

Lemma backtrack_Opt_hit text r s m k x :
  backtrack text r s m k = Some x -> backtrack text (Opt r) s m k = Some x.
Proof. simpl. now intros ->. Qed.

Lemma backtrack_Opt_miss text r s m k :
  backtrack text r s m k = None -> backtrack text (Opt r) s m k = k s m.
Proof. simpl. now intros ->. Qed.

(** A number, an optional comma and second number, and a space behind. *)
Lemma backtrack_numbers text n1 n2 T X Y rest m k x :
  is_number X -> opt_number Y ->
  backtrack text T (String " " rest)
    (if Y is Some y then <[n2 := y]> (<[n1 := X]> m) else <[n1 := X]> m) k = Some x ->
  backtrack text
    (Group n1 (Plus is_digit) >> Opt (Lit ",") >> Opt (Group n2 (Plus is_digit)) >> T)%regex
    (X +:+ opt_suffix "," Y +:+ String " " rest) m k = Some x.
Proof.
  intros [HX1 HX2] HY HT. rewrite backtrack_Cat.
  rewrite all_digits_forallb in HX2.
  destruct Y as [y|]; cbn [opt_suffix].
  - destruct HY as [Hy1 Hy2]. rewrite all_digits_forallb in Hy2.
    change (("," +:+ y) +:+ String " " rest) with ("," +:+ (y +:+ String " " rest)).
    apply backtrack_Group_Plus; [exact HX1|exact HX2|reflexivity|].
    rewrite backtrack_Cat. apply backtrack_Opt_hit. rewrite backtrack_Lit, backtrack_Cat.
    apply backtrack_Opt_hit.
    apply backtrack_Group_Plus; [exact Hy1|exact Hy2|reflexivity|exact HT].
  - rewrite append_Empty. apply backtrack_Group_Plus; [exact HX1|exact HX2|reflexivity|].
    rewrite backtrack_Cat, backtrack_Opt_miss by reflexivity.
    rewrite backtrack_Cat, backtrack_Opt_miss by reflexivity. exact HT.
Qed.

(** The closing [@@] and the heading. *)
Lemma backtrack_heading text heading m (k : continuation) x :
  no_newline (default EmptyString heading) = true ->
  k EmptyString (if heading is Some (String c t) then <[5%nat := String c t]> m else m)
  = Some x ->
  backtrack text (Lit " @@" >> Opt (Lit " ") >> Opt (Group 5 (Plus not_newline)))%regex
    (" @@" +:+ opt_suffix " " heading) m k = Some x.
Proof.
  intros Hh Hk. rewrite backtrack_Cat, backtrack_Lit, backtrack_Cat.
  destruct heading as [[|c t]|]; cbn [opt_suffix].
  - apply backtrack_Opt_hit. rewrite backtrack_Lit.
    rewrite backtrack_Opt_miss by reflexivity. exact Hk.
  - apply backtrack_Opt_hit. rewrite backtrack_Lit.
    apply backtrack_Opt_hit. rewrite <- (append_nil_r (String c t)) at 1.
    apply backtrack_Group_Plus; [discriminate| |reflexivity|exact Hk].
    cbn [default from_option id] in Hh. rewrite no_newline_forallb in Hh. exact Hh.
  - rewrite backtrack_Opt_miss by reflexivity.
    rewrite backtrack_Opt_miss by reflexivity. exact Hk.
Qed.

(** The pattern on a well-formed header: the greedy choices lead to the
    end of the line. *)
Lemma backtrack_hunkRe_header text A B C D heading m (k : continuation) x :
  is_number A -> opt_number B -> is_number C -> opt_number D ->
  no_newline (default EmptyString heading) = true ->
  k EmptyString
    (let m1 := if B is Some b then <[2%nat := b]> (<[1%nat := A]> m) else <[1%nat := A]> m in
     let m3 := if D is Some d then <[4%nat := d]> (<[3%nat := C]> m1) else <[3%nat := C]> m1 in
     if heading is Some (String c t) then <[5%nat := String c t]> m3 else m3)
  = Some x ->
  backtrack text hunkRe (hunk_header_line A B C D heading) m k = Some x.
Proof.
  intros HA HB HC HD Hh Hk.
  unfold hunkRe, hunk_header_line. rewrite backtrack_Cat, backtrack_Lit.
  change (" +" +:+ C +:+ opt_suffix "," D +:+ " @@" +:+ opt_suffix " " heading)
    with (String " " ("+" +:+ C +:+ opt_suffix "," D +:+ " @@" +:+ opt_suffix " " heading)).
  apply (backtrack_numbers text 1 2); auto.
  change (String " " ("+" +:+ C +:+ opt_suffix "," D +:+ " @@" +:+ opt_suffix " " heading))
    with (" +" +:+ C +:+ opt_suffix "," D +:+ " @@" +:+ opt_suffix " " heading).
  rewrite backtrack_Cat, backtrack_Lit.
  change (" @@" +:+ opt_suffix " " heading)
    with (String " " ("@@" +:+ opt_suffix " " heading)).
  apply (backtrack_numbers text 3 4); auto.
  change (String " " ("@@" +:+ opt_suffix " " heading))
    with (" @@" +:+ opt_suffix " " heading).
  apply backtrack_heading; [exact Hh|exact Hk].
Qed.

(** The search at the start of a well-formed header succeeds, with the
    line, the numbers and the heading as submatches. *)
Lemma hunkRe_match_at_header text A B C D heading :
  is_number A -> opt_number B -> is_number C -> opt_number D ->
  no_newline (default EmptyString heading) = true ->
  match_at text hunkRe (hunk_header_line A B C D heading)
  = Some [hunk_header_line A B C D heading; A; default EmptyString B; C;
          default EmptyString D; default EmptyString heading].
Proof.
  intros HA HB HC HD Hh. unfold match_at.
  apply backtrack_hunkRe_header; auto.
  cbn [String.length]. rewrite string_take_all.
  destruct B, D, heading as [[|c t]|]; reflexivity.
Qed.

Lemma FindStringSubmatch_first r s m :
  match_at s r s = Some m -> FindStringSubmatch r s = m.
Proof.
  intros H. unfold FindStringSubmatch. destruct s; cbn [find_from]; rewrite H; reflexivity.
Qed.

(** ** [Atoi] and [parse_hunk] *)

Lemma is_digit_not_sign c :
  is_digit c = true -> Ascii.eqb c "-" = false /\ Ascii.eqb c "+" = false.
Proof.
  destruct c as [[] [] [] [] [] [] [] []]; vm_compute; intros H; try discriminate H;
    split; reflexivity.
Qed.

Lemma Atoi_number d :
  is_number d ->
  Atoi d = if 2 ^ 63 <=? number d then Err (NumError "Atoi" d ErrRange) else Ok (number d).
Proof.
  intros Hd. destruct (is_number_cons _ Hd) as (c & r & -> & Hc).
  destruct Hd as [_ Hall]. destruct (is_digit_not_sign _ Hc) as [Hm Hp].
  unfold Atoi. rewrite Hm, Hp. cbv beta iota. rewrite Hall. reflexivity.
Qed.

Lemma length_is_number d : is_number d -> (0 <? String.length d)%nat = true.
Proof. intros Hd. destruct (is_number_cons _ Hd) as (c & r & -> & _). reflexivity. Qed.

Lemma Atoi_no_panic s msg : Atoi s <> Panic msg.
Proof.
  unfold Atoi. destruct (match s with EmptyString => _ | String _ _ => _ end) as [neg body].
  destruct (is_empty body); [discriminate|].
  destruct (negb (all_digits body)); [discriminate|].
  destruct neg; [destruct (_ <? _)|destruct (_ <=? _)]; discriminate.
Qed.

Lemma bind_no_panic {A B} (r : result A) (k : A -> result B) msg :
  (forall m, r <> Panic m) -> (forall a, k a <> Panic msg) -> bind r k <> Panic msg.
Proof.
  intros Hr Hk. destruct r as [a|e|m]; simpl; [apply Hk|discriminate|].
  exfalso. now apply (Hr m).
Qed.

Lemma parse_hunk_no_panic l msg : parse_hunk l <> Panic msg.
Proof.
  unfold parse_hunk.
  destruct (length (FindStringSubmatch hunkRe l) <? 5)%nat; [discriminate|].
  apply bind_no_panic; [intros; apply Atoi_no_panic|intros a].
  apply bind_no_panic.
  { intros m. destruct (0 <? _)%nat; [apply Atoi_no_panic|discriminate]. }
  intros b. apply bind_no_panic; [intros; apply Atoi_no_panic|intros c].
  apply bind_no_panic.
  { intros m. destruct (0 <? _)%nat; [apply Atoi_no_panic|discriminate]. }
  intros d. discriminate.
Qed.

(** A fresh hunk has no lines. *)
Lemma parse_hunk_Lines l h :
  parse_hunk l = Ok h ->
  DiffRange.Lines (DiffHunk.OrigRange h) = []
  /\ DiffRange.Lines (DiffHunk.NewRange h) = []
  /\ DiffRange.Lines (DiffHunk.WholeRange h) = [].
Proof.
  unfold parse_hunk.
  destruct (length (FindStringSubmatch hunkRe l) <? 5)%nat; [discriminate|].
  destruct (Atoi _) as [a| |]; simpl; try discriminate.
  destruct (if (0 <? _)%nat then _ else _) as [b| |]; simpl; try discriminate.
  destruct (Atoi _) as [c| |]; simpl; try discriminate.
  destruct (if (0 <? _)%nat then _ else _) as [d| |]; simpl; try discriminate.
  intros [= <-]. destruct (0 <? _)%nat; simpl; auto.
Qed.

(** The hunk that a well-formed header gives, when it gives one. *)
Lemma parse_hunk_header A B C D heading h :
  is_number A -> opt_number B -> is_number C -> opt_number D ->
  no_newline (default EmptyString heading) = true ->
  parse_hunk (hunk_header_line A B C D heading) = Ok h ->
  h = DiffHunk.mk (default EmptyString heading)
        (DiffRange.mk (number A) (number (default A B)) [])
        (DiffRange.mk (number C) (number (default C D)) [])
        DiffRange.zero.
Proof.
  intros HA HB HC HD Hh. unfold parse_hunk.
  rewrite (FindStringSubmatch_first _ _ _
             (hunkRe_match_at_header _ A B C D heading HA HB HC HD Hh)).
  set (line := hunk_header_line A B C D heading).
  cbn [length]. change (6 <? 5)%nat with false. cbv iota.
  change ([line; A; default EmptyString B; C; default EmptyString D;
           default EmptyString heading] !!! 1%nat) with A.
  change ([line; A; default EmptyString B; C; default EmptyString D;
           default EmptyString heading] !!! 2%nat) with (default EmptyString B).
  change ([line; A; default EmptyString B; C; default EmptyString D;
           default EmptyString heading] !!! 3%nat) with C.
  change ([line; A; default EmptyString B; C; default EmptyString D;
           default EmptyString heading] !!! 4%nat) with (default EmptyString D).
  change ([line; A; default EmptyString B; C; default EmptyString D;
           default EmptyString heading] !!! 5%nat) with (default EmptyString heading).
  rewrite (Atoi_number A HA). destruct (2 ^ 63 <=? number A); [discriminate|].
  cbn [bind].
  assert (Hopt : forall X Y,
             is_number X -> opt_number Y ->
             (if (0 <? String.length (default EmptyString Y))%nat
              then Atoi (default EmptyString Y) else Ok (number X))
             = if (if Y is Some y then 2 ^ 63 <=? number y else false)
               then Err (NumError "Atoi" (default EmptyString Y) ErrRange)
               else Ok (number (default X Y))).
  { intros X [y|] HX HY; simpl.
    - rewrite (length_is_number y HY), (Atoi_number y HY). reflexivity.
    - reflexivity. }
  rewrite (Hopt A B HA HB). destruct (if B is Some y then _ else _); [discriminate|].
  cbn [bind]. rewrite (Atoi_number C HC). destruct (2 ^ 63 <=? number C); [discriminate|].
  cbn [bind]. rewrite (Hopt C D HC HD). destruct (if D is Some y then _ else _); [discriminate|].
  cbn [bind]. intros [= <-].
  destruct heading as [[|c t]|]; reflexivity.
Qed.

Lemma heading_no_newline A B C D heading :
  no_newline (hunk_header_line A B C D heading) = true ->
  no_newline (default EmptyString heading) = true.
Proof.
  unfold hunk_header_line. intros H.
  do 7 apply no_newline_app_r in H.
  destruct heading as [t|]; [|reflexivity]. simpl in *. now apply no_newline_app_r in H.
Qed.

Lemma classify_hunk_header_line A B C D heading :
  classify (hunk_header_line A B C D heading) = HunkStart.
Proof. reflexivity. Qed.

Lemma lineMode_no_panic l msg : isSourceLine l = true -> lineMode l <> Panic msg.
Proof.
  intros H. destruct l as [|c r]; [discriminate|]. unfold lineMode.
  destruct (Ascii.eqb c " "); [discriminate|].
  destruct (Ascii.eqb c "+"); [discriminate|].
  destruct (Ascii.eqb c "-"); discriminate.
Qed.

Lemma lineMode_unknown l :
  unknown_mode_line l -> lineMode l = Err (lineMode_error l).
Proof.
  intros (_ & c & r & -> & H1 & H2 & H3). unfold lineMode.
  apply Ascii.eqb_neq in H1, H2, H3. rewrite H1, H2, H3. reflexivity.
Qed.

Lemma lineMode_starts_with l m :
  lineMode l = Ok m ->
  (m = ADDED -> starts_with "+" l = true) /\ (m = REMOVED -> starts_with "-" l = true).
Proof.
  destruct l as [|c r]; [discriminate|]. unfold lineMode, starts_with.
  destruct (Ascii.eqb c " ") eqn:E1; [intros [= <-]; split; discriminate|].
  destruct (Ascii.eqb c "+") eqn:E2; [intros [= <-]; split; [auto|discriminate]|].
  destruct (Ascii.eqb c "-") eqn:E3; [intros [= <-]; split; [discriminate|auto]|].
  discriminate.
Qed.

(** ** The loop of [Parse] as steps *)

(** [Parse_line], sorted by the class of the line. *)
Lemma Parse_line_classify lines idx l st :
  Parse_line lines idx l st =
  match classify l with
  | FileStart =>
      Ok (mkState (Diff.set_Files (files_of st ++ [new_file lines idx l]) (diff st))
            (Some (length (files_of st))) (hunk st) (ADDEDCount st) (REMOVEDCount st)
            false (incr (diffPosCount st)) true)
  | ModeLine m => set_file_Mode m (tick st)
  | HunkStart =>
      match file st with
      | None => Panic nil_deref
      | Some i =>
          match files_of st !! i with
          | None => Panic nil_deref
          | Some f =>
              let* h := parse_hunk l in
              Ok (mkState
                    (Diff.set_Files
                       (<[i := DiffFile.set_Hunks (DiffFile.Hunks f ++ [h]) f]> (files_of st))
                       (diff st))
                    (Some i) (Some (i, length (DiffFile.Hunks f)))
                    (DiffRange.Start (DiffHunk.NewRange h))
                    (DiffRange.Start (DiffHunk.OrigRange h))
                    true
                    (if firstHunkInFile st then 0 else incr (diffPosCount st))
                    false)
          end
      end
  | Body =>
      if inHunk st && isSourceLine l then
        let* m := lineMode l in
        match hunk st with
        | None => Panic nil_deref
        | Some (i, j) =>
            Ok (mkState
                  (Diff.set_Files
                     (write_hunk
                        (add_line m (body_line m l (incr (diffPosCount st)))
                           (ADDEDCount st) (REMOVEDCount st))
                        i j (files_of st))
                     (diff st))
                  (file st) (Some (i, j))
                  (match m with REMOVED => ADDEDCount st | _ => incr (ADDEDCount st) end)
                  (match m with ADDED => REMOVEDCount st | _ => incr (REMOVEDCount st) end)
                  (inHunk st) (incr (diffPosCount st)) (firstHunkInFile st))
        end
      else Ok (tick st)
  end.
Proof.
  unfold Parse_line, classify, new_file.
  destruct (HasPrefix l "diff ").
  { destruct (file_names l); reflexivity. }
  destruct (HasPrefix l "deleted file "); [reflexivity|].
  destruct (HasPrefix l "new file "); [reflexivity|].
  destruct (HasPrefix l "rename "); [reflexivity|].
  destruct (HasPrefix l "@@ ").
  { simpl. destruct (file st); reflexivity. }
  simpl. destruct (inHunk st && isSourceLine l); [|reflexivity].
  destruct (lineMode l); simpl; try reflexivity.
  destruct (hunk st) as [[i j]|]; reflexivity.
Qed.

(** The successful iterations are the steps. *)
Lemma Parse_line_Ok lines idx l st st' :
  Parse_line lines idx l st = Ok st' <-> Parse_step lines idx l st st'.
Proof.
  rewrite Parse_line_classify. split.
  - destruct (classify l) eqn:Hc.
    + intros [= <-]. now constructor.
    + unfold set_file_Mode. simpl. destruct (file st) as [i|] eqn:Hi; [|discriminate].
      intros [= <-]. now apply step_mode.
    + destruct (file st) as [i|] eqn:Hi; [|discriminate].
      destruct (files_of st !! i) as [f|] eqn:Hf; [|discriminate].
      destruct (parse_hunk l) as [h| |] eqn:Hh; simpl; try discriminate.
      intros [= <-]. now apply step_hunk_start.
    + destruct (inHunk st && isSourceLine l) eqn:E.
      * apply andb_true_iff in E as [Hin Hsrc].
        destruct (lineMode l) as [m| |] eqn:Hm; simpl; try discriminate.
        destruct (hunk st) as [[i j]|] eqn:Hk; [|discriminate].
        intros [= <-]. rewrite Hin. now apply step_content.
      * intros [= <-]. now apply step_skip.
  - intros [Hc|m i Hc Hi|i f h Hc Hi Hf Hh|m i j Hc Hin Hsrc Hm Hk|Hc Hskip]; rewrite Hc.
    + reflexivity.
    + unfold set_file_Mode. simpl. rewrite Hi. reflexivity.
    + rewrite Hi, Hf, Hh. reflexivity.
    + rewrite Hin, Hsrc, Hm, Hk. reflexivity.
    + rewrite Hskip. reflexivity.
Qed.

Lemma Parse_loop_cons_Ok lines idx l rest st st' :
  Parse_loop lines idx (l :: rest) st = Ok st' ->
  exists st1, Parse_step lines idx l st st1
              /\ Parse_loop lines (S idx) rest st1 = Ok st'.
Proof.
  simpl. destruct (Parse_line lines idx l st) as [st1| |] eqn:E; simpl; try discriminate.
  apply Parse_line_Ok in E. eauto.
Qed.

Lemma Parse_loop_app lines pre post idx st :
  Parse_loop lines idx (pre ++ post) st =
  let* st' := Parse_loop lines idx pre st in
  Parse_loop lines (idx + length pre) post st'.
Proof.
  revert idx st. induction pre as [|l pre IH]; intros idx st; simpl.
  - f_equal. lia.
  - destruct (Parse_line lines idx l st) as [st'| |]; simpl; [|reflexivity..].
    rewrite IH. replace (S idx + length pre)%nat with (idx + S (length pre))%nat by lia.
    reflexivity.
Qed.

Lemma Parse_loop_app_Ok lines idx a b st st' :
  Parse_loop lines idx (a ++ b) st = Ok st' ->
  exists st1, Parse_loop lines idx a st = Ok st1
              /\ Parse_loop lines (idx + length a) b st1 = Ok st'.
Proof.
  rewrite Parse_loop_app.
  destruct (Parse_loop lines idx a st) as [st1| |]; simpl; try discriminate. eauto.
Qed.

(** An invariant of the steps holds when the loop ends. *)
Lemma Parse_loop_invariant (lines : list string) (P : state -> Prop) :
  (forall idx l st st', P st -> Parse_step lines idx l st st' -> P st') ->
  forall rest idx st st',
    P st -> Parse_loop lines idx rest st = Ok st' -> P st'.
Proof.
  intros Hstep rest. induction rest as [|l rest IH]; intros idx st st' HP Hloop.
  - injection Hloop as <-. exact HP.
  - apply Parse_loop_cons_Ok in Hloop as (st1 & H1 & Hrest).
    eapply IH; [|exact Hrest]. eapply Hstep; eauto.
Qed.

Lemma Parse_Ok_loop s d :
  Parse s = Ok d ->
  exists st, Parse_loop (Split s newline) 0 (Split s newline) (init s) = Ok st
             /\ d = diff st.
Proof.
  unfold Parse. destruct (Parse_loop _ _ _ _) as [st| |]; simpl; try discriminate.
  intros [= <-]. eauto.
Qed.

(** [Parse], cut at one of the lines of the input. *)
Lemma Parse_at_line s pre l post st :
  Split s newline = pre ++ l :: post ->
  Parse_loop (Split s newline) 0 pre (init s) = Ok st ->
  Parse s =
  let* st1 := Parse_line (Split s newline) (length pre) l st in
  let* st2 := Parse_loop (Split s newline) (S (length pre)) post st1 in
  Ok (diff st2).
Proof.
  intros Hs Hpre. unfold Parse.
  rewrite Hs at 2. rewrite Parse_loop_app, Hpre. simpl.
  destruct (Parse_line _ _ _ _); reflexivity.
Qed.

Lemma Parse_Ok_at_line s pre l post d :
  Split s newline = pre ++ l :: post ->
  Parse s = Ok d ->
  exists st st1 st2,
    Parse_loop (Split s newline) 0 pre (init s) = Ok st
    /\ Parse_step (Split s newline) (length pre) l st st1
    /\ Parse_loop (Split s newline) (S (length pre)) post st1 = Ok st2
    /\ d = diff st2.
Proof.
  intros Hs HP. destruct (Parse_Ok_loop _ _ HP) as (st2 & Hloop & ->).
  rewrite Hs in Hloop at 2.
  apply Parse_loop_app_Ok in Hloop as (st & Hpre & Hloop).
  apply Parse_loop_cons_Ok in Hloop as (st1 & Hl & Hpost).
  exists st, st1, st2. repeat split; auto.
Qed.

(** ** Where the pointers point *)

Lemma last_index_snoc {A} (l : list A) x : last_index (l ++ [x]) = Some (length l).
Proof. unfold last_index. rewrite length_app, Nat.add_1_r. reflexivity. Qed.

Lemma last_index_Some {A} (l : list A) i :
  last_index l = Some i -> (i < length l)%nat /\ length l = S i.
Proof. unfold last_index. destruct (length l); intros [= <-]; lia. Qed.

Lemma last_index_length {A} (l l' : list A) :
  length l' = length l -> last_index l' = last_index l.
Proof. unfold last_index. intros ->. reflexivity. Qed.

Lemma pointers_ok_init s : pointers_ok (init s).
Proof. repeat split; simpl; discriminate. Qed.

Lemma Parse_step_pointers_ok lines idx l st st' :
  pointers_ok st -> Parse_step lines idx l st st' -> pointers_ok st'.
Proof.
  intros (Hf & Hh & H1)
         [Hc|m i Hc Hi|i f h Hc Hi Hf' Hh'|m i j Hc Hin Hsrc Hm Hk|Hc Hskip];
    unfold pointers_ok, files_of in *; simpl.
  - rewrite last_index_snoc. split; [reflexivity|]. split; [discriminate|].
    intros _. split; [reflexivity|]. eexists _, _. split; [reflexivity|]. split.
    + rewrite lookup_app_r by reflexivity. rewrite Nat.sub_diag. reflexivity.
    + reflexivity.
  - split; [|split].
    + rewrite Hf. symmetry. apply last_index_length, length_alter.
    + intros Hin. destruct (Hh Hin) as (i' & f & j & Hi' & Hl & Hk & Hlen).
      assert (i' = i) as -> by congruence.
      exists i, (DiffFile.set_Mode m f), j. rewrite list_lookup_alter_eq, Hl. auto.
    + intros Hfirst. destruct (H1 Hfirst) as (Hin & i' & f & Hi' & Hl & Hk).
      assert (i' = i) as -> by congruence. split; [exact Hin|].
      exists i, (DiffFile.set_Mode m f). rewrite list_lookup_alter_eq, Hl. auto.
  - split; [|split].
    + rewrite <- Hi, Hf. symmetry. apply last_index_length, length_insert.
    + intros _. eexists i, _, _. split; [reflexivity|].
      split; [apply list_lookup_insert_eq; eapply lookup_lt_Some; exact Hf'|].
      split; [reflexivity|]. simpl. rewrite length_app, Nat.add_1_r. reflexivity.
    + discriminate.
  - destruct (Hh Hin) as (i' & f & j' & Hi & Hl & Hk' & Hlen).
    assert (i' = i /\ j' = j) as [-> ->] by (split; congruence).
    unfold write_hunk. split; [|split].
    + rewrite Hf. symmetry. apply last_index_length, length_alter.
    + intros _. eexists i, _, j. rewrite list_lookup_alter_eq, Hl. simpl.
      split; [exact Hi|]. split; [reflexivity|]. split; [reflexivity|].
      simpl. rewrite length_alter. exact Hlen.
    + intros Hfirst. destruct (H1 Hfirst) as (Hin' & _). congruence.
  - exact (conj Hf (conj Hh H1)).
Qed.

Lemma Parse_loop_pointers_ok lines rest idx st st' :
  pointers_ok st -> Parse_loop lines idx rest st = Ok st' -> pointers_ok st'.
Proof.
  apply (Parse_loop_invariant lines pointers_ok).
  intros. eapply Parse_step_pointers_ok; eauto.
Qed.

Lemma pointers_ok_file st i :
  pointers_ok st -> file st = Some i -> exists f, files_of st !! i = Some f.
Proof.
  intros (Hf & _) Hi. rewrite Hi in Hf. symmetry in Hf.
  apply last_index_Some in Hf as [Hlt _]. exact (lookup_lt_is_Some_2 _ _ Hlt).
Qed.

(** ** Properties of every hunk *)

(** What holds of a fresh hunk and is kept by the write of a body line
    holds of every hunk after the step. *)
Lemma Parse_step_all_hunks (Q : DiffHunk.t -> Prop) lines idx l st st' :
  (forall h, parse_hunk l = Ok h -> Q h) ->
  (forall m p a r h, Q h -> Q (add_line m (body_line m l p) a r h)) ->
  all_hunks Q (files_of st) ->
  Parse_step lines idx l st st' ->
  all_hunks Q (files_of st').
Proof.
  intros Hnew Hadd Hall
         [Hc|m i Hc Hi|i f h Hc Hi Hf Hh|m i j Hc Hin Hsrc Hm Hk|Hc Hskip];
    unfold all_hunks, files_of, write_hunk in *; simpl.
  - apply Forall_app; split; [exact Hall|]. repeat constructor.
  - apply Forall_alter; [exact Hall|]. intros f _ Hf. exact Hf.
  - apply Forall_insert; [exact Hall|]. simpl. apply Forall_app; split.
    + exact (proj1 (Forall_lookup _ _) Hall i f Hf).
    + repeat constructor. auto.
  - apply Forall_alter; [exact Hall|]. intros f _ Hf. simpl.
    apply Forall_alter; [exact Hf|]. intros h _ Hh. auto.
  - exact Hall.
Qed.

Lemma Parse_all_hunks (Q : DiffHunk.t -> Prop) s d :
  (forall l h, parse_hunk l = Ok h -> Q h) ->
  (forall m l p a r h, Q h -> Q (add_line m (body_line m l p) a r h)) ->
  Parse s = Ok d -> all_hunks Q (Diff.Files d).
Proof.
  intros Hnew Hadd HP. destruct (Parse_Ok_loop _ _ HP) as (st & Hloop & ->).
  change (all_hunks Q (files_of st)).
  eapply (Parse_loop_invariant _ (fun st => all_hunks Q (files_of st))); [| |exact Hloop].
  - intros idx l st0 st1 H0 Hstep.
    eapply Parse_step_all_hunks; [| |exact H0|exact Hstep]; eauto.
  - constructor.
Qed.

(** ** Hunks only grow *)

Lemma hunk_extends_refl h : hunk_extends h h.
Proof. repeat split; reflexivity. Qed.

Lemma hunk_extends_trans h1 h2 h3 :
  hunk_extends h1 h2 -> hunk_extends h2 h3 -> hunk_extends h1 h3.
Proof.
  intros (A1 & A2 & A3 & A4 & A5 & A6) (B1 & B2 & B3 & B4 & B5 & B6).
  repeat split; try congruence; etrans; eauto.
Qed.

Lemma hunk_extends_add_line m line a r h : hunk_extends h (add_line m line a r h).
Proof.
  destruct m; repeat split; simpl; try reflexivity; apply prefix_app_r; reflexivity.
Qed.

Lemma hunk_at_write_hunk upd i j fs h :
  hunk_at fs i j = Some h -> hunk_at (write_hunk upd i j fs) i j = Some (upd h).
Proof.
  unfold hunk_at, write_hunk. destruct (fs !! i) as [f|] eqn:Ef; [|discriminate].
  intros Hj. rewrite list_lookup_alter_eq, Ef. simpl.
  rewrite list_lookup_alter_eq, Hj. reflexivity.
Qed.

(** A step keeps every hunk in its place and only adds lines to it. *)
Lemma Parse_step_hunk_extends lines idx l st st' i j h :
  hunk_at (files_of st) i j = Some h ->
  Parse_step lines idx l st st' ->
  exists h', hunk_at (files_of st') i j = Some h' /\ hunk_extends h h'.
Proof.
  unfold hunk_at. destruct (files_of st !! i) as [f|] eqn:Ef; [|discriminate].
  intros Hj [Hc|m i0 Hc Hi|i0 f0 h0 Hc Hi Hf Hh|m i0 j0 Hc Hin Hsrc Hm Hk|Hc Hskip];
    unfold files_of, write_hunk in *; simpl.
  - exists h. split; [|apply hunk_extends_refl].
    rewrite lookup_app_l by (eapply lookup_lt_Some; exact Ef). rewrite Ef. exact Hj.
  - exists h. split; [|apply hunk_extends_refl]. rewrite list_lookup_alter.
    destruct (decide (i0 = i)) as [->|_]; rewrite Ef; exact Hj.
  - exists h. split; [|apply hunk_extends_refl]. rewrite list_lookup_insert.
    destruct (decide (i0 = i ∧ (i0 < length (Diff.Files (diff st)))%nat)) as [[-> _]|_].
    + assert (f0 = f) as -> by congruence. simpl.
      rewrite lookup_app_l by (eapply lookup_lt_Some; exact Hj). exact Hj.
    + rewrite Ef. exact Hj.
  - rewrite list_lookup_alter.
    destruct (decide (i0 = i)) as [->|_]; rewrite Ef; simpl.
    + rewrite list_lookup_alter. destruct (decide (j0 = j)) as [->|_]; rewrite Hj; simpl.
      * eexists. split; [reflexivity|apply hunk_extends_add_line].
      * exists h. split; [reflexivity|apply hunk_extends_refl].
    + exists h. split; [exact Hj|apply hunk_extends_refl].
  - exists h. split; [|apply hunk_extends_refl]. rewrite Ef. exact Hj.
Qed.

Lemma Parse_loop_hunk_extends lines rest idx st st' i j h :
  hunk_at (files_of st) i j = Some h ->
  Parse_loop lines idx rest st = Ok st' ->
  exists h', hunk_at (files_of st') i j = Some h' /\ hunk_extends h h'.
Proof.
  revert idx st h. induction rest as [|l rest IH]; intros idx st h Hh Hloop.
  - injection Hloop as <-. exists h. split; [exact Hh|apply hunk_extends_refl].
  - apply Parse_loop_cons_Ok in Hloop as (st1 & Hstep & Hrest).
    destruct (Parse_step_hunk_extends _ _ _ _ _ _ _ _ Hh Hstep) as (h1 & Hh1 & He1).
    destruct (IH _ _ _ Hh1 Hrest) as (h2 & Hh2 & He2).
    exists h2. split; [exact Hh2|]. eapply hunk_extends_trans; eauto.
Qed.

(** ** The names of the files *)

Lemma map_alter_same {A B} (phi : A -> B) (g : A -> A) i (l : list A) :
  (forall x, phi (g x) = phi x) -> map phi (alter g i l) = map phi l.
Proof.
  intros Hg. revert i. induction l as [|x l IH]; intros [|i]; simpl; try reflexivity.
  - now rewrite Hg.
  - f_equal. apply IH.
Qed.

Lemma map_insert_same {A B} (phi : A -> B) i x y (l : list A) :
  l !! i = Some x -> phi y = phi x -> map phi (<[i := y]> l) = map phi l.
Proof.
  revert i. induction l as [|z l IH]; intros [|i] Hl Hphi; simpl in *; try discriminate.
  - injection Hl as ->. now rewrite Hphi.
  - f_equal. now apply IH.
Qed.

Lemma classify_FileStart l : classify l = FileStart <-> HasPrefix l "diff " = true.
Proof.
  unfold classify. destruct (HasPrefix l "diff "); [tauto|].
  destruct (HasPrefix l "deleted file "); [split; discriminate|].
  destruct (HasPrefix l "new file "); [split; discriminate|].
  destruct (HasPrefix l "rename "); [split; discriminate|].
  destruct (HasPrefix l "@@ "); split; discriminate.
Qed.

Lemma file_start_lines_app l1 l2 :
  file_start_lines (l1 ++ l2) = file_start_lines l1 ++ file_start_lines l2.
Proof. apply filter_app. Qed.

Lemma file_start_lines_one l :
  file_start_lines [l] = if decide (classify l = FileStart) then [l] else [].
Proof.
  unfold file_start_lines. rewrite filter_cons, filter_nil.
  destruct (decide (classify l = FileStart)) as [H|H].
  - rewrite decide_True by now apply classify_FileStart. reflexivity.
  - rewrite decide_False; [reflexivity|]. intros H'. now apply H, classify_FileStart.
Qed.

(** A step that is not a file start keeps the names of all files; a file
    start appends the names read off the line. *)
Lemma Parse_step_names lines idx l st st' :
  Parse_step lines idx l st st' ->
  map names_of (files_of st')
  = map names_of (files_of st) ++ map file_names (file_start_lines [l]).
Proof.
  rewrite file_start_lines_one.
  intros [Hc|m i Hc Hi|i f h Hc Hi Hf Hh|m i j Hc Hin Hsrc Hm Hk|Hc Hskip];
    rewrite Hc; unfold files_of, write_hunk in *; simpl; rewrite ?app_nil_r.
  - rewrite map_app. simpl. unfold names_of at 2. simpl.
    destruct (file_names l); reflexivity.
  - apply map_alter_same. reflexivity.
  - eapply map_insert_same; [exact Hf|reflexivity].
  - apply map_alter_same. reflexivity.
  - reflexivity.
Qed.

Lemma Parse_loop_names lines rest idx st st' :
  Parse_loop lines idx rest st = Ok st' ->
  map names_of (files_of st')
  = map names_of (files_of st) ++ map file_names (file_start_lines rest).
Proof.
  revert idx st. induction rest as [|l rest IH]; intros idx st Hloop.
  - injection Hloop as <-. simpl. now rewrite app_nil_r.
  - apply Parse_loop_cons_Ok in Hloop as (st1 & Hl & Hrest).
    rewrite (IH _ _ Hrest), (Parse_step_names _ _ _ _ _ Hl), <- app_assoc, <- map_app.
    change (l :: rest) with ([l] ++ rest). now rewrite file_start_lines_app.
Qed.

Lemma Parse_loop_files_length lines rest idx st st' :
  Parse_loop lines idx rest st = Ok st' ->
  length (files_of st') = (length (files_of st) + length (file_start_lines rest))%nat.
Proof.
  intros H. apply Parse_loop_names in H. apply (f_equal length) in H.
  rewrite length_app, !length_map in H. exact H.
Qed.

(** The files of the Diff are the file-start lines of the input, one for
    one, with the names read off them. *)
Lemma Parse_names s d :
  Parse s = Ok d ->
  map names_of (Diff.Files d) = map file_names (file_start_lines (Split s newline)).
Proof.
  intros HP. destruct (Parse_Ok_loop _ _ HP) as (st & Hloop & ->).
  exact (Parse_loop_names _ _ _ _ _ Hloop).
Qed.

Lemma file_names_path_from l :
  path_from "a/" (fst (path_hints l)) (fst (file_names l))
  /\ path_from "b/" (snd (path_hints l)) (snd (file_names l)).
Proof.
  unfold path_hints, file_names.
  destruct (Nat.leb_spec 3 (length (Fields l))) as [Hlen|Hlen]; simpl.
  - rewrite !list_lookup_total_alt.
    destruct (lookup_lt_is_Some_2 (Fields l) (length (Fields l) - 2)) as [from ->]; [lia|].
    destruct (lookup_lt_is_Some_2 (Fields l) (length (Fields l) - 1)) as [to ->]; [lia|].
    simpl. split; apply CutPrefix_path_from.
  - split; apply path_empty; discriminate.
Qed.

Lemma file_names_few_tokens l :
  (length (Fields l) < 3)%nat -> file_names l = (EmptyString, EmptyString).
Proof.
  intros H. unfold file_names.
  destruct (Nat.leb_spec 3 (length (Fields l))); [lia|reflexivity].
Qed.

(** ** The lines of one file *)

(** The hunks of file [n] keep a property that holds of a fresh hunk and
    that the write of the line [l] keeps. *)
Lemma Parse_step_file_hunks (Q : DiffHunk.t -> Prop) n lines idx l st st' :
  (forall h, parse_hunk l = Ok h -> Q h) ->
  (forall m p a r h, isSourceLine l = true -> lineMode l = Ok m -> Q h ->
     Q (add_line m (body_line m l p) a r h)) ->
  file_hunks Q n (files_of st) ->
  Parse_step lines idx l st st' ->
  file_hunks Q n (files_of st').
Proof.
  intros Hnew Hadd HQ
         [Hc|m i Hc Hi|i f0 h Hc Hi Hf Hh|m i j Hc Hin Hsrc Hm Hk|Hc Hskip];
    unfold file_hunks, files_of, write_hunk in *; simpl; intros f.
  - rewrite lookup_snoc_Some. intros [[_ Hf]|[_ <-]]; [now apply HQ|constructor].
  - rewrite list_lookup_alter. destruct (decide (i = n)) as [->|_]; [|apply HQ].
    destruct (Diff.Files (diff st) !! n) as [f0|] eqn:E0; [|discriminate].
    intros [= <-]. simpl. now apply HQ.
  - rewrite list_lookup_insert. destruct (decide _) as [[-> _]|_]; [|apply HQ].
    intros [= <-]. simpl. apply Forall_app. split; [now apply HQ|].
    repeat constructor. now apply Hnew.
  - rewrite list_lookup_alter. destruct (decide (i = n)) as [->|_]; [|apply HQ].
    destruct (Diff.Files (diff st) !! n) as [f0|] eqn:E0; [|discriminate].
    intros [= <-]. simpl. apply Forall_alter; [now apply HQ|].
    intros h _ Hh. now apply Hadd.
  - apply HQ.
Qed.

Lemma Parse_loop_file_hunks (Q : DiffHunk.t -> Prop) (good : string -> Prop) n
    lines sec idx st st' :
  (forall l h, parse_hunk l = Ok h -> Q h) ->
  (forall l m p a r h, good l -> isSourceLine l = true -> lineMode l = Ok m -> Q h ->
     Q (add_line m (body_line m l p) a r h)) ->
  Forall good sec ->
  file_hunks Q n (files_of st) ->
  Parse_loop lines idx sec st = Ok st' ->
  file_hunks Q n (files_of st').
Proof.
  intros Hnew Hadd Hsec. revert idx st.
  induction Hsec as [|l sec Hl _ IH]; intros idx st HQ Hloop.
  - injection Hloop as <-. exact HQ.
  - apply Parse_loop_cons_Ok in Hloop as (st1 & Hstep & Hrest).
    apply (IH _ _ (Parse_step_file_hunks Q n _ _ _ _ _ (Hnew l)
                     (fun m p a r h Hs Hm Hh => Hadd l m p a r h Hl Hs Hm Hh) HQ Hstep)
              Hrest).
Qed.

(** Once a later file has been opened, file [n] is out of reach. *)
Lemma Parse_step_frame n lines idx l st st' :
  pointers_ok st -> (S n < length (files_of st))%nat ->
  Parse_step lines idx l st st' ->
  files_of st' !! n = files_of st !! n /\ (S n < length (files_of st'))%nat.
Proof.
  intros (Hf & Hh & _) Hlen Hstep.
  assert (Hptr : forall i, file st = Some i -> i <> n).
  { intros i Hi. rewrite Hi in Hf. symmetry in Hf.
    apply last_index_Some in Hf as [_ Hf]. lia. }
  destruct Hstep as [Hc|m i Hc Hi|i f h Hc Hi Hf' Hh'|m i j Hc Hin Hsrc Hm Hk|Hc Hskip];
    unfold files_of, write_hunk in *; simpl.
  - rewrite length_app. simpl. split; [apply lookup_app_l; lia|lia].
  - rewrite length_alter. split; [apply list_lookup_alter_ne, Hptr, Hi|exact Hlen].
  - rewrite length_insert. split; [apply list_lookup_insert_ne, Hptr, Hi|exact Hlen].
  - destruct (Hh Hin) as (i' & f & j' & Hi & _ & Hk' & _).
    assert (i' = i) as -> by congruence. rewrite length_alter.
    split; [apply list_lookup_alter_ne, Hptr, Hi|exact Hlen].
  - auto.
Qed.

Lemma Parse_loop_frame n lines rest idx st st' :
  pointers_ok st -> (S n < length (files_of st))%nat ->
  Parse_loop lines idx rest st = Ok st' ->
  files_of st' !! n = files_of st !! n.
Proof.
  revert idx st. induction rest as [|l rest IH]; intros idx st Hok Hlen Hloop.
  - injection Hloop as <-. reflexivity.
  - apply Parse_loop_cons_Ok in Hloop as (st1 & Hstep & Hrest).
    destruct (Parse_step_frame n _ _ _ _ _ Hok Hlen Hstep) as [<- Hlen1].
    apply (IH _ _ (Parse_step_pointers_ok _ _ _ _ _ Hok Hstep) Hlen1 Hrest).
Qed.

(** * The claims *)

Lemma Parse_sample : Parse sample = Ok sample_parsed.
Proof. vm_compute. reflexivity. Defined.

Lemma Parse_sample2 : Parse sample2 = Ok sample2_parsed.
Proof. vm_compute. reflexivity. Defined.

(** ** C1: when [Parse] panics and when it cannot *)

(** Once a file has been started, no iteration panics. *)
Lemma Parse_line_no_panic lines idx l st msg :
  pointers_ok st -> file st <> None -> Parse_line lines idx l st <> Panic msg.
Proof.
  intros Hok Hfile. pose proof Hok as (_ & Hh & _). rewrite Parse_line_classify.
  destruct (file st) as [i|] eqn:Ei; [|congruence].
  destruct (pointers_ok_file st i Hok Ei) as [f Hl].
  destruct (classify l).
  - discriminate.
  - unfold set_file_Mode. simpl. rewrite Ei. discriminate.
  - rewrite Hl. apply bind_no_panic; [intros; apply parse_hunk_no_panic|discriminate].
  - destruct (inHunk st && isSourceLine l) eqn:E; [|discriminate].
    apply andb_true_iff in E as [Ein Esrc].
    apply bind_no_panic; [intros; now apply lineMode_no_panic|intros m].
    destruct (Hh Ein) as (i' & f' & j & _ & _ & Hk & _). rewrite Hk. discriminate.
Qed.

Lemma Parse_step_keeps_file lines idx l st st' :
  file st <> None -> Parse_step lines idx l st st' -> file st' <> None.
Proof.
  intros Hfile [Hc|m i Hc Hi|i f h Hc Hi Hf Hh|m i j Hc Hin Hsrc Hm Hk|Hc Hskip];
    simpl; congruence.
Qed.

Lemma Parse_loop_no_panic lines rest idx st msg :
  pointers_ok st -> file st <> None -> Parse_loop lines idx rest st <> Panic msg.
Proof.
  revert idx st. induction rest as [|l rest IH]; intros idx st Hok Hfile; simpl.
  - discriminate.
  - destruct (Parse_line lines idx l st) as [st1| |] eqn:E; simpl.
    + apply Parse_line_Ok in E. apply IH.
      * eapply Parse_step_pointers_ok; eauto.
      * eapply Parse_step_keeps_file; eauto.
    + discriminate.
    + intros [= ->]. eapply Parse_line_no_panic; eauto.
Qed.

(** Lines before the first file that the switch does not single out leave
    the pointers nil. *)
Lemma Parse_loop_Body_prefix lines pre idx st :
  Forall (fun l => classify l = Body) pre ->
  inHunk st = false ->
  exists st', Parse_loop lines idx pre st = Ok st'
              /\ file st' = file st /\ inHunk st' = false.
Proof.
  intros Hpre. revert idx st. induction Hpre as [|l pre Hl _ IH]; intros idx st Hin; simpl.
  - eauto.
  - rewrite Parse_line_classify, Hl, Hin. simpl.
    destruct (IH (S idx) (tick st) Hin) as (st' & -> & ? & ?). eauto.
Qed.

(** A mode line or a hunk-start line met while no file has been started
    dereferences the nil pointer [file]. *)
Lemma Parse_panics_before_file s pre l post :
  Split s newline = pre ++ l :: post ->
  Forall (fun l => classify l = Body) pre ->
  (exists m, classify l = ModeLine m) \/ classify l = HunkStart ->
  Parse s = Panic nil_deref.
Proof.
  intros Hs Hpre Hl.
  destruct (Parse_loop_Body_prefix (Split s newline) pre 0 (init s) Hpre eq_refl)
    as (st & Hloop & Hfile & _).
  rewrite (Parse_at_line _ _ _ _ _ Hs Hloop), Parse_line_classify.
  destruct Hl as [[m ->]| ->].
  - unfold set_file_Mode. simpl. rewrite Hfile. reflexivity.
  - rewrite Hfile. reflexivity.
Qed.

(** When the first line that the switch singles out is a file-start line,
    [Parse] returns a Diff or an error. *)
Lemma Parse_no_panic_after_file s pre l post msg :
  Split s newline = pre ++ l :: post ->
  Forall (fun l => classify l = Body) pre ->
  classify l = FileStart ->
  Parse s <> Panic msg.
Proof.
  intros Hs Hpre Hl.
  destruct (Parse_loop_Body_prefix (Split s newline) pre 0 (init s) Hpre eq_refl)
    as (st & Hloop & _).
  rewrite (Parse_at_line _ _ _ _ _ Hs Hloop).
  destruct (Parse_line _ _ l st) as [st1| |] eqn:E1; simpl.
  - apply Parse_line_Ok in E1.
    apply bind_no_panic; [intros m|discriminate]. apply Parse_loop_no_panic.
    + eapply Parse_step_pointers_ok; [|exact E1].
      eapply Parse_loop_pointers_ok; [apply pointers_ok_init|exact Hloop].
    + destruct E1; simpl; congruence.
  - discriminate.
  - rewrite Parse_line_classify, Hl in E1. discriminate.
Qed.

(** C1.  [Parse] crashes on a mode-refinement line and on a hunk-start line
    that come before any file-start line: evaluated on four one-line
    inputs. *)
Theorem Parse_crashes_before_first_file :
  Parse "deleted file mode 100644" = Panic nil_deref
  /\ Parse "new file mode 100644" = Panic nil_deref
  /\ Parse "rename from old.txt" = Panic nil_deref
  /\ Parse "@@ -1,3 +1,4 @@" = Panic nil_deref.
Proof. repeat split; vm_compute; reflexivity. Qed.

(** ** C2: the header of a file *)

(** The marker pair is looked for at [idx+2] and [idx+3] only: a pair that
    stands at [idx+1] and [idx+2], with no [index] line before it and no
    third marker line behind it, is left out of the header. *)
Lemma file_header_pair_after_diff lines idx l :
  (idx + 3 < length lines)%nat ->
  MatchString rein (lines !!! (idx + 1)%nat) = false ->
  MatchString remp (lines !!! (idx + 3)%nat) = false ->
  file_header lines idx l = l.
Proof.
  intros Hlen Hi H3. unfold file_header.
  destruct (Nat.ltb_spec (idx + 3) (length lines)); [|lia].
  rewrite Hi, H3, andb_false_r. reflexivity.
Qed.

(** Nothing is absorbed when fewer than three lines follow. *)
Lemma file_header_near_end lines idx l :
  (length lines <= idx + 3)%nat -> file_header lines idx l = l.
Proof.
  intros Hlen. unfold file_header.
  destruct (Nat.ltb_spec (idx + 3) (length lines)); [lia|reflexivity].
Qed.

(** C2.  On a file section without [index] line, the [---]/[+++] pair that
    follows the [diff ] line is not absorbed: the header is the [diff ]
    line alone.  The same happens to an [index] line that has fewer than
    three lines behind the [diff ] line. *)
Theorem Parse_header_misses_marker_pair :
  (exists d,
      Parse (unlines ["diff --git a/x b/x"; "--- a/x"; "+++ b/x"; "@@ -1 +1 @@";
                      "-a"; "+b"]%string) = Ok d
      /\ map DiffFile.DiffHeader (Diff.Files d) = ["diff --git a/x b/x"%string])
  /\ (exists d,
      Parse (unlines ["diff --git a/x b/x"; "index 0a1b2c3..4d5e6f7 100644";
                      EmptyString]) = Ok d
      /\ map DiffFile.DiffHeader (Diff.Files d) = ["diff --git a/x b/x"%string]).
Proof. split; eexists; split; vm_compute; reflexivity. Qed.

(** ** C3: body lines with an unknown first character *)

(** C3 (as amended).  A line met inside an active hunk that qualifies as
    content, starts with none of [' '], ['+'], ['-'] and with none of the
    five prefixes the switch tests first, fails the whole parse with the
    error that quotes the line. *)
Theorem Parse_unknown_mode_line (s : string) (pre : list string) (l : string)
    (post : list string) :
  in_active_hunk s pre l post ->
  unknown_mode_line l ->
  classify l = Body ->
  Parse s = Err (lineMode_error l).
Proof.
  intros (Hs & st & Hpre & Hin) Hl Hc.
  rewrite (Parse_at_line _ _ _ _ _ Hs Hpre), Parse_line_classify, Hc, Hin.
  rewrite (proj1 Hl). simpl. rewrite (lineMode_unknown _ Hl). reflexivity.
Qed.

Lemma Parse_unknown_mode_line_witness :
  in_active_hunk sample3 ["diff --git a/x.txt b/x.txt"; "@@ -1 +1 @@"]%string "?what" []
  /\ unknown_mode_line "?what"
  /\ classify "?what" = Body
  /\ Parse sample3 = Err (lineMode_error "?what").
Proof.
  assert (H1 : in_active_hunk sample3
                 ["diff --git a/x.txt b/x.txt"; "@@ -1 +1 @@"]%string "?what" []).
  { split; [vm_compute; reflexivity|]. eexists. split; vm_compute; reflexivity. }
  assert (H2 : unknown_mode_line "?what").
  { split; [reflexivity|]. exists "?"%char, "what"%string. repeat split; discriminate. }
  assert (H3 : classify "?what" = Body) by reflexivity.
  exact (conj H1 (conj H2 (conj H3 (Parse_unknown_mode_line _ _ _ _ H1 H2 H3)))).
Defined.

(** C3 (as stated) fails: a [diff ] line inside a hunk body starts a new
    file instead of failing the parse. *)
Lemma Parse_unknown_mode_line_counterexample :
  ~ (forall s pre l post,
        in_active_hunk s pre l post -> unknown_mode_line l ->
        exists e, Parse s = Err e).
Proof.
  intros H.
  pose (l1 := "diff --git a/x b/x"%string).
  pose (l2 := "@@ -1 +1 @@"%string).
  pose (l3 := "diff --git a/y b/y"%string).
  destruct (H (unlines [l1; l2; l3]) [l1; l2] l3 []) as [e He].
  - split; [reflexivity|]. eexists. split; vm_compute; reflexivity.
  - split; [reflexivity|]. exists "d"%char, "iff --git a/y b/y"%string.
    repeat split; discriminate.
  - vm_compute in He. discriminate.
Qed.

(** ** C4: the ranges of a hunk *)

(** C4.  A hunk-start line [@@ -A[,B] +C[,D] @@[ heading]] of an input that
    [Parse] accepts opens a hunk whose original range starts at [A] with
    length [B] (or [A] when [B] is omitted) and whose new range starts at
    [C] with length [D] (or [C] when [D] is omitted), with the heading as
    hunk header; the added counter is then [C] and the removed counter
    [A]. *)
Theorem Parse_hunk_header (s : string) (pre post : list string)
    (A C : string) (B D heading : option string) (d : Diff.t) :
  Split s newline = pre ++ hunk_header_line A B C D heading :: post ->
  is_number A -> opt_number B -> is_number C -> opt_number D ->
  Parse s = Ok d ->
  exists st st1 i j h,
    Parse_loop (Split s newline) 0 pre (init s) = Ok st
    /\ Parse_line (Split s newline) (length pre) (hunk_header_line A B C D heading) st
       = Ok st1
    /\ ADDEDCount st1 = number C
    /\ REMOVEDCount st1 = number A
    /\ hunk st1 = Some (i, j)
    /\ hunk_at (Diff.Files d) i j = Some h
    /\ DiffRange.Start (DiffHunk.OrigRange h) = number A
    /\ DiffRange.Length (DiffHunk.OrigRange h) = number (default A B)
    /\ DiffRange.Start (DiffHunk.NewRange h) = number C
    /\ DiffRange.Length (DiffHunk.NewRange h) = number (default C D)
    /\ DiffHunk.HunkHeader h = default EmptyString heading.
Proof.
  intros Hs HA HB HC HD HP.
  destruct (Parse_Ok_at_line _ _ _ _ _ Hs HP) as (st & st1 & st2 & Hpre & Hstep & Hpost & ->).
  assert (Hnl : no_newline (default EmptyString heading) = true).
  { apply (heading_no_newline A B C D). pose proof (Split_no_newline s) as Hall.
    rewrite Hs in Hall. apply Forall_app in Hall as [_ Hall]. now inversion Hall. }
  pose proof (proj2 (Parse_line_Ok _ _ _ _ _) Hstep) as Hline.
  destruct Hstep as [Hc|m i Hc Hi|i f h0 Hc Hi Hf Hh|m i j Hc Hin Hsrc Hm Hk|Hc Hskip];
    rewrite classify_hunk_header_line in Hc; try discriminate Hc.
  apply (parse_hunk_header A B C D heading h0 HA HB HC HD Hnl) in Hh. subst h0.
  match type of Hpost with
  | Parse_loop _ _ _ ?st1 = _ =>
      assert (Hat : hunk_at (files_of st1) i (length (DiffFile.Hunks f))
                    = Some (DiffHunk.mk (default EmptyString heading)
                              (DiffRange.mk (number A) (number (default A B)) [])
                              (DiffRange.mk (number C) (number (default C D)) [])
                              DiffRange.zero))
  end.
  { unfold hunk_at, files_of in *; simpl.
    rewrite list_lookup_insert_eq by (eapply lookup_lt_Some; exact Hf). simpl.
    apply list_lookup_middle. reflexivity. }
  destruct (Parse_loop_hunk_extends _ _ _ _ _ _ _ _ Hat Hpost)
    as (h & Hh & Hhdr & Hwo & Hwn & _).
  unfold window in Hwo, Hwn. simpl in Hwo, Hwn, Hhdr.
  injection Hwo as Ho1 Ho2. injection Hwn as Hn1 Hn2.
  eexists st, _, i, (length (DiffFile.Hunks f)), h.
  split; [exact Hpre|]. split; [exact Hline|]. simpl. repeat split; auto.
Qed.

Lemma Parse_hunk_header_witness :
  Split sample newline
  = sample_head ++ hunk_header_line "1" (Some "3"%string) "1" (Some "4"%string)
                     (Some "func foo"%string) :: sample_body
  /\ is_number "1" /\ opt_number (Some "3"%string)
  /\ is_number "1" /\ opt_number (Some "4"%string)
  /\ Parse sample = Ok sample_parsed
  /\ exists st st1 i j h,
       Parse_loop (Split sample newline) 0 sample_head (init sample) = Ok st
       /\ Parse_line (Split sample newline) (length sample_head)
            (hunk_header_line "1" (Some "3"%string) "1" (Some "4"%string)
               (Some "func foo"%string)) st
          = Ok st1
       /\ ADDEDCount st1 = number "1"
       /\ REMOVEDCount st1 = number "1"
       /\ hunk st1 = Some (i, j)
       /\ hunk_at (Diff.Files sample_parsed) i j = Some h
       /\ DiffRange.Start (DiffHunk.OrigRange h) = number "1"
       /\ DiffRange.Length (DiffHunk.OrigRange h) = number (default "1"%string (Some "3"%string))
       /\ DiffRange.Start (DiffHunk.NewRange h) = number "1"
       /\ DiffRange.Length (DiffHunk.NewRange h) = number (default "1"%string (Some "4"%string))
       /\ DiffHunk.HunkHeader h = default EmptyString (Some "func foo"%string).
Proof.
  assert (H1 : Split sample newline
               = sample_head ++ hunk_header_line "1" (Some "3"%string) "1" (Some "4"%string)
                                  (Some "func foo"%string) :: sample_body)
    by (vm_compute; reflexivity).
  assert (H2 : is_number "1") by (split; [discriminate|reflexivity]).
  assert (H3 : opt_number (Some "3"%string)) by (split; [discriminate|reflexivity]).
  assert (H4 : opt_number (Some "4"%string)) by (split; [discriminate|reflexivity]).
  exact (conj H1 (conj H2 (conj H3 (conj H2 (conj H4 (conj Parse_sample
           (Parse_hunk_header _ _ _ _ _ _ _ _ _ H1 H2 H3 H2 H4 Parse_sample))))))).
Defined.

(** ** C5: malformed hunk headers *)

(** Once a file has been started, a hunk-start line that [parse_hunk]
    rejects fails the whole parse with that error. *)
Lemma Parse_malformed_hunk_header s pre l post st e :
  Split s newline = pre ++ l :: post ->
  Parse_loop (Split s newline) 0 pre (init s) = Ok st ->
  file st <> None ->
  classify l = HunkStart ->
  parse_hunk l = Err e ->
  Parse s = Err e.
Proof.
  intros Hs Hpre Hfile Hc He.
  rewrite (Parse_at_line _ _ _ _ _ Hs Hpre), Parse_line_classify, Hc.
  destruct (file st) as [i|] eqn:Ei; [|congruence].
  assert (Hok : pointers_ok st).
  { eapply Parse_loop_pointers_ok; [apply pointers_ok_init|exact Hpre]. }
  destruct (pointers_ok_file st i Hok Ei) as [f ->]. rewrite He. reflexivity.
Qed.

Lemma parse_hunk_bad :
  parse_hunk "@@ bad @@" = Err (errors_New "Error parsing line: @@ bad @@").
Proof. vm_compute. reflexivity. Qed.

(** C5.  The malformed header [@@ bad @@] as the whole input: [Parse]
    dereferences the nil [file] before it looks at the header, and crashes
    where an error is due.  Behind a file-start line the same header does
    fail the parse with the error. *)
Theorem Parse_malformed_header_without_file :
  Parse "@@ bad @@" = Panic nil_deref
  /\ Parse (unlines ["diff --git a/x b/x"; "@@ bad @@"]%string)
     = Err (errors_New "Error parsing line: @@ bad @@").
Proof. split; vm_compute; reflexivity. Qed.

(** ** C6: line conservation *)

Lemma count_mode_app m l1 l2 :
  count_mode m (l1 ++ l2) = (count_mode m l1 + count_mode m l2)%nat.
Proof. unfold count_mode. rewrite filter_app, length_app. reflexivity. Qed.

Lemma count_mode_nil m : count_mode m [] = 0%nat.
Proof. reflexivity. Qed.

Lemma count_mode_cons m dl ls :
  count_mode m (dl :: ls)
  = ((if decide (DiffLine.Mode dl = m) then 1 else 0) + count_mode m ls)%nat.
Proof.
  unfold count_mode. rewrite filter_cons. destruct (decide _); reflexivity.
Qed.

Lemma count_mode_partition ls :
  length ls = (count_mode ADDED ls + count_mode REMOVED ls + count_mode UNCHANGED ls)%nat.
Proof.
  induction ls as [|dl ls IH]; [reflexivity|].
  rewrite !count_mode_cons. simpl length. rewrite IH.
  destruct (DiffLine.Mode dl); simpl; lia.
Qed.

Lemma line_conservation_fresh l h : parse_hunk l = Ok h -> line_conservation h.
Proof.
  intros H. destruct (parse_hunk_Lines _ _ H) as (Ho & Hn & Hw).
  unfold line_conservation. rewrite Ho, Hn, Hw. repeat split.
Qed.

Lemma line_conservation_add_line m l p a r h :
  line_conservation h ->
  line_conservation (add_line m (body_line m l p) a r h).
Proof.
  unfold line_conservation. intros (_ & Hn & Ho).
  split; [apply count_mode_partition|].
  destruct m; simpl; rewrite ?length_app, !count_mode_app, !count_mode_cons, Hn, Ho;
    simpl; rewrite ?count_mode_nil; lia.
Qed.

(** C6.  Line conservation: in every hunk of a Diff that [Parse] returns,
    the whole range has as many lines as there are added, removed and
    unchanged lines, the new range as many as added and unchanged ones, and
    the original range as many as removed and unchanged ones. *)
Theorem Parse_line_conservation (s : string) (d : Diff.t)
    (i j : nat) (f : DiffFile.t) (h : DiffHunk.t) :
  Parse s = Ok d ->
  Diff.Files d !! i = Some f ->
  DiffFile.Hunks f !! j = Some h ->
  let whole := DiffRange.Lines (DiffHunk.WholeRange h) in
  length whole = (count_mode ADDED whole + count_mode REMOVED whole
                  + count_mode UNCHANGED whole)%nat
  /\ length (DiffRange.Lines (DiffHunk.NewRange h))
     = (count_mode ADDED whole + count_mode UNCHANGED whole)%nat
  /\ length (DiffRange.Lines (DiffHunk.OrigRange h))
     = (count_mode REMOVED whole + count_mode UNCHANGED whole)%nat.
Proof.
  intros HP Hf Hh.
  assert (Hall : all_hunks line_conservation (Diff.Files d)).
  { eapply Parse_all_hunks; [| |exact HP].
    - exact line_conservation_fresh.
    - intros. now apply line_conservation_add_line. }
  unfold all_hunks in Hall. rewrite Forall_lookup in Hall.
  specialize (Hall i f Hf). rewrite Forall_lookup in Hall.
  exact (Hall j h Hh).
Qed.

Lemma Parse_line_conservation_witness :
  Parse sample = Ok sample_parsed
  /\ Diff.Files sample_parsed !! 0%nat = Some sample_file
  /\ DiffFile.Hunks sample_file !! 0%nat = Some sample_hunk
  /\ (let whole := DiffRange.Lines (DiffHunk.WholeRange sample_hunk) in
      length whole = (count_mode ADDED whole + count_mode REMOVED whole
                      + count_mode UNCHANGED whole)%nat
      /\ length (DiffRange.Lines (DiffHunk.NewRange sample_hunk))
         = (count_mode ADDED whole + count_mode UNCHANGED whole)%nat
      /\ length (DiffRange.Lines (DiffHunk.OrigRange sample_hunk))
         = (count_mode REMOVED whole + count_mode UNCHANGED whole)%nat).
Proof.
  assert (H2 : Diff.Files sample_parsed !! 0%nat = Some sample_file) by reflexivity.
  assert (H3 : DiffFile.Hunks sample_file !! 0%nat = Some sample_hunk) by reflexivity.
  exact (conj Parse_sample (conj H2 (conj H3
           (Parse_line_conservation _ _ _ _ _ _ Parse_sample H2 H3)))).
Defined.

(** ** C7: the position counter *)

(** The law of the counter: every line scanned adds one, and a hunk-start
    line puts it to [0] when it is the first of its file. *)
Lemma Parse_line_diffPosCount lines idx l st st' :
  Parse_line lines idx l st = Ok st' ->
  diffPosCount st' =
  if is_hunk_start l && firstHunkInFile st then 0 else incr (diffPosCount st).
Proof.
  intros H. apply Parse_line_Ok in H. unfold is_hunk_start.
  destruct H as [Hc|m i Hc Hi|i f h Hc Hi Hf Hh|m i j Hc Hin Hsrc Hm Hk|Hc Hskip];
    rewrite Hc; reflexivity.
Qed.

(** Lines between the file-start line and the first hunk-start line leave
    [file] and [firstHunkInFile] alone. *)
Lemma Parse_loop_before_first_hunk lines mid idx st st' :
  Forall (fun l => classify l <> FileStart /\ classify l <> HunkStart) mid ->
  Parse_loop lines idx mid st = Ok st' ->
  firstHunkInFile st' = firstHunkInFile st /\ file st' = file st.
Proof.
  intros Hmid. revert idx st. induction Hmid as [|l mid [Hl1 Hl2] _ IH]; intros idx st Hloop.
  - injection Hloop as <-. auto.
  - apply Parse_loop_cons_Ok in Hloop as (st1 & Hl & Hrest).
    destruct (IH _ _ Hrest) as [-> ->].
    destruct Hl as [Hc|m i Hc Hi|i f h Hc Hi Hf Hh|m i j Hc Hin Hsrc Hm Hk|Hc Hskip];
      simpl; auto; congruence.
Qed.

(** Lines of a hunk body that do not qualify as content only move the
    counter. *)
Lemma Parse_loop_skipped lines skipped idx st st' :
  Forall (fun l => classify l = Body /\ isSourceLine l = false) skipped ->
  Parse_loop lines idx skipped st = Ok st' ->
  st' = set_diffPosCount (Nat.iter (length skipped) incr (diffPosCount st)) st.
Proof.
  intros Hsk. revert idx st. induction Hsk as [|l sk [Hl1 Hl2] _ IH]; intros idx st Hloop.
  - injection Hloop as <-. destruct st; reflexivity.
  - simpl in Hloop. rewrite Parse_line_classify, Hl1, Hl2, andb_false_r in Hloop.
    simpl in Hloop. rewrite (IH _ _ Hloop). simpl length.
    rewrite Nat.iter_succ_r. reflexivity.
Qed.

Lemma wrap_incr x : wrap (wrap x + 1) = wrap (x + 1).
Proof.
  unfold wrap. f_equal.
  replace ((x + 2 ^ 63) mod 2 ^ 64 - 2 ^ 63 + 1 + 2 ^ 63)
    with ((x + 2 ^ 63) mod 2 ^ 64 + 1) by lia.
  rewrite Z.add_mod_idemp_l by lia. f_equal. lia.
Qed.

Lemma iter_incr n : Nat.iter n incr 0 = wrap (Z.of_nat n).
Proof.
  induction n as [|n IH]; [reflexivity|].
  simpl Nat.iter. rewrite IH. unfold incr. rewrite wrap_incr. f_equal. lia.
Qed.

Lemma add_line_first_whole m line a r h :
  DiffRange.Lines (DiffHunk.WholeRange h) = [] ->
  exists x,
    DiffRange.Lines (DiffHunk.WholeRange (add_line m line a r h)) = [x]
    /\ DiffLine.Position x = DiffLine.Position line.
Proof. intros Hw. destruct m; simpl; rewrite Hw; eexists; repeat split. Qed.

(** C7 (as amended).  Every line scanned adds one to the position counter
    and the first hunk-start line of a file puts it to [0]; so in every
    file of a parsed diff, whatever came before, the first content line of
    the first hunk has position [1 + k], where [k] lines that do not
    qualify as content stand between the hunk-start line and it: position
    [1] when it follows the hunk-start line directly. *)
Theorem Parse_first_line_position (s : string) (pre : list string) (dl : string)
    (mid : list string) (hl : string) (skipped : list string) (cl : string)
    (post : list string) (d : Diff.t) :
  first_content_line s pre dl mid hl skipped cl post ->
  Parse s = Ok d ->
  (forall lines idx l st st',
      Parse_line lines idx l st = Ok st' ->
      diffPosCount st' =
      if is_hunk_start l && firstHunkInFile st then 0 else incr (diffPosCount st))
  /\ first_line_position d (length (file_start_lines pre))
       (wrap (Z.of_nat (length skipped) + 1))
  /\ (skipped = [] -> first_line_position d (length (file_start_lines pre)) 1).
Proof.
  intros (Hs & Hdl & Hmid & Hhl & Hsk & Hcl & Hsrc) HP.
  split; [exact Parse_line_diffPosCount|].
  assert (Hmain : first_line_position d (length (file_start_lines pre))
                    (wrap (Z.of_nat (length skipped) + 1))).
  2:{ split; [exact Hmain|]. intros ->. exact Hmain. }
  destruct (Parse_Ok_loop _ _ HP) as (st_end & Hloop & ->).
  rewrite Hs in Hloop at 2.
  apply Parse_loop_app_Ok in Hloop as (st0 & Hpre & Hloop).
  apply Parse_loop_cons_Ok in Hloop as (st1 & Hdl_step & Hloop).
  apply Parse_loop_app_Ok in Hloop as (st2 & Hmid_loop & Hloop).
  apply Parse_loop_cons_Ok in Hloop as (st3 & Hhl_step & Hloop).
  apply Parse_loop_app_Ok in Hloop as (st4 & Hsk_loop & Hloop).
  apply Parse_loop_cons_Ok in Hloop as (st5 & Hcl_step & Hpost).
  (* the file that [dl] opens is file [n] *)
  pose proof (Parse_loop_files_length _ _ _ _ _ Hpre) as Hn. simpl in Hn.
  set (n := length (file_start_lines pre)) in *.
  assert (Hok2 : pointers_ok st2).
  { eapply Parse_loop_pointers_ok; [|exact Hmid_loop].
    eapply Parse_step_pointers_ok; [|exact Hdl_step].
    eapply Parse_loop_pointers_ok; [apply pointers_ok_init|exact Hpre]. }
  destruct (Parse_loop_before_first_hunk _ _ _ _ _ Hmid Hmid_loop) as [Hfirst2 Hfile2].
  destruct Hdl_step as [_|? ? Hc|? ? ? Hc|? ? ? Hc|Hc]; try congruence.
  simpl in Hfirst2, Hfile2. rewrite Hn in Hfile2.
  destruct Hok2 as (_ & _ & H1). destruct (H1 Hfirst2) as (Hin2 & i & f & Hi & Hf & Hnil).
  assert (i = n) as -> by congruence. clear Hi.
  (* the hunk-start line opens hunk 0 of file [n] and resets the counter *)
  destruct Hhl_step as [Hc|? ? Hc|i f0 h0 _ Hi Hf0 Hh0|? ? ? Hc|Hc]; try congruence.
  assert (i = n) as -> by congruence. assert (f0 = f) as -> by congruence.
  rewrite Hnil, Hfirst2 in *. simpl in Hsk_loop.
  destruct (parse_hunk_Lines _ _ Hh0) as (_ & _ & Hw0).
  (* the lines skipped only move the counter *)
  apply (Parse_loop_skipped _ _ _ _ _ Hsk) in Hsk_loop. subst st4. simpl in Hcl_step.
  (* the content line is written to that hunk *)
  destruct Hcl_step as [Hc|? ? Hc|? ? ? Hc|m i j _ _ _ Hm Hk|_ Hskip];
    try congruence; [|simpl in Hskip; rewrite Hsrc in Hskip; discriminate].
  simpl in Hk. injection Hk as <- <-. simpl in Hpost.
  match type of Hpost with
  | Parse_loop _ _ _ ?st5 = _ =>
      match st5 with
      | context [add_line m ?line ?a ?r] =>
          destruct (add_line_first_whole m line a r h0 Hw0) as (x & Hx & Hxpos);
          assert (Hat5 : hunk_at (files_of st5) n 0 = Some (add_line m line a r h0))
      end
  end.
  { unfold files_of. simpl. apply hunk_at_write_hunk. unfold hunk_at.
    rewrite list_lookup_insert_eq by (eapply lookup_lt_Some; exact Hf). reflexivity. }
  (* and stays its first line *)
  destruct (Parse_loop_hunk_extends _ _ _ _ _ _ _ _ Hat5 Hpost)
    as (h & Hh & _ & _ & _ & _ & _ & Hpre_w).
  rewrite Hx in Hpre_w. destruct Hpre_w as [k Hk].
  exists h, x. split; [exact Hh|]. split; [rewrite Hk; reflexivity|].
  rewrite Hxpos. simpl.
  change (incr (Nat.iter (length skipped) incr 0))
    with (Nat.iter (S (length skipped)) incr 0).
  rewrite iter_incr. f_equal. lia.
Qed.

Lemma Parse_first_line_position_witness :
  first_content_line sample2 sample2_first "diff --git a/gone.txt b/gone.txt"
    sample2_header "@@ -1,2 +0,0 @@" [] "-first" ["-second"%string]
  /\ Parse sample2 = Ok sample2_parsed
  /\ (forall lines idx l st st',
         Parse_line lines idx l st = Ok st' ->
         diffPosCount st' =
         if is_hunk_start l && firstHunkInFile st then 0 else incr (diffPosCount st))
  /\ first_line_position sample2_parsed (length (file_start_lines sample2_first))
       (wrap (Z.of_nat (length (@nil string)) + 1))
  /\ (@nil string = [] ->
      first_line_position sample2_parsed (length (file_start_lines sample2_first)) 1).
Proof.
  assert (H1 : first_content_line sample2 sample2_first "diff --git a/gone.txt b/gone.txt"
                 sample2_header "@@ -1,2 +0,0 @@" [] "-first" ["-second"%string]).
  { repeat split; try reflexivity; repeat constructor;
      try (intros Hc; vm_compute in Hc; discriminate Hc); reflexivity. }
  exact (conj H1 (conj Parse_sample2
           (Parse_first_line_position _ _ _ _ _ _ _ _ _ H1 Parse_sample2))).
Defined.

(** C7 (as stated) fails: the removal of a line that starts with [--] shows
    as a body line that starts with [---], which is scanned and counted but
    does not qualify as content; the first content line of the second file
    then has position 2. *)
Lemma Parse_first_line_position_counterexample :
  ~ (forall s pre dl mid hl skipped cl post d,
        first_content_line s pre dl mid hl skipped cl post ->
        Parse s = Ok d ->
        first_line_position d (length (file_start_lines pre)) 1).
Proof.
  intros H.
  pose (pre := ["diff --git a/x b/x"; "@@ -1 +1,2 @@"; " x"; "+y"]%string).
  pose (dl := "diff --git a/q.sql b/q.sql"%string).
  pose (mid := ["--- a/q.sql"; "+++ b/q.sql"]%string).
  pose (hl := "@@ -1,2 +0,0 @@"%string).
  pose (skipped := ["--- drop the table"]%string).
  pose (cl := "-DROP TABLE t;"%string).
  pose (s := unlines (pre ++ dl :: mid ++ hl :: skipped ++ [cl])).
  destruct (Parse s) as [d| |] eqn:E; try (vm_compute in E; discriminate E).
  destruct (H s pre dl mid hl skipped cl [] d) as (h & x & Hh & Hx & Hp).
  - repeat split; try reflexivity; repeat constructor;
      try (intros Hc; vm_compute in Hc; discriminate Hc); reflexivity.
  - exact E.
  - vm_compute in E. injection E as <-.
    vm_compute in Hh. injection Hh as <-.
    vm_compute in Hx. injection Hx as <-.
    vm_compute in Hp. discriminate Hp.
Qed.

(** ** C8: [Changed] *)

Lemma map_get_insert m k v k' :
  map_get (<[k := v]> m) k' = if decide (k' = k) then v else map_get m k'.
Proof.
  unfold map_get. destruct (decide (k' = k)) as [->|Hne].
  - rewrite lookup_insert_eq. reflexivity.
  - rewrite lookup_insert_ne by congruence. reflexivity.
Qed.

Lemma Changed_hunk_get name m h k :
  map_get (Changed_hunk name m h) k
  = map_get m k ++ (if decide (k = name) then added_numbers_hunk h else []).
Proof.
  unfold Changed_hunk, added_numbers_hunk.
  generalize (DiffRange.Lines (DiffHunk.NewRange h)) as ls. intros ls. revert m.
  induction ls as [|dl ls IH]; intros m; simpl.
  - destruct (decide (k = name)); rewrite app_nil_r; reflexivity.
  - rewrite IH, filter_cons. unfold Changed_line.
    destruct (decide (DiffLine.Mode dl = ADDED)) as [Ha|Ha].
    + rewrite map_get_insert. destruct (decide (k = name)) as [->|Hne]; simpl.
      * rewrite <- app_assoc. reflexivity.
      * reflexivity.
    + reflexivity.
Qed.

Lemma Changed_hunk_no_empty name m h :
  no_empty_entry m -> no_empty_entry (Changed_hunk name m h).
Proof.
  unfold Changed_hunk.
  generalize (DiffRange.Lines (DiffHunk.NewRange h)) as ls. intros ls. revert m.
  induction ls as [|dl ls IH]; intros m Hm; simpl; [exact Hm|].
  apply IH. unfold Changed_line. destruct (decide _); [|exact Hm].
  intros k. destruct (decide (k = name)) as [->|Hne].
  - rewrite lookup_insert_eq. intros [= H]. now apply app_nil in H as [_ ?].
  - rewrite lookup_insert_ne by congruence. apply Hm.
Qed.

Lemma Changed_hunks_get name hs m k :
  map_get (foldl (Changed_hunk name) m hs) k
  = map_get m k ++ (if decide (k = name) then concat (map added_numbers_hunk hs) else []).
Proof.
  revert m. induction hs as [|h hs IH]; intros m; simpl.
  - destruct (decide (k = name)); rewrite app_nil_r; reflexivity.
  - rewrite IH, Changed_hunk_get. destruct (decide (k = name)).
    + rewrite <- app_assoc. reflexivity.
    + rewrite !app_nil_r. reflexivity.
Qed.

Lemma Changed_hunks_no_empty name hs m :
  no_empty_entry m -> no_empty_entry (foldl (Changed_hunk name) m hs).
Proof.
  revert m. induction hs as [|h hs IH]; intros m Hm; simpl; [exact Hm|].
  apply IH, Changed_hunk_no_empty, Hm.
Qed.

Lemma Changed_file_get m f k :
  map_get (Changed_file m f) k
  = map_get m k ++ (if decide (writes_to k f) then added_numbers f else []).
Proof.
  unfold Changed_file, writes_to, added_numbers.
  destruct (decide (DiffFile.Mode f = DELETED)) as [Hd|Hd].
  - rewrite decide_False by tauto. rewrite app_nil_r. reflexivity.
  - rewrite Changed_hunks_get.
    destruct (decide (k = DiffFile.NewName f)) as [->|Hne].
    + rewrite decide_True by tauto. reflexivity.
    + rewrite decide_False; [reflexivity|]. intros [_ ?]. congruence.
Qed.

Lemma Changed_file_no_empty m f :
  no_empty_entry m -> no_empty_entry (Changed_file m f).
Proof.
  unfold Changed_file. destruct (decide _); [auto|]. apply Changed_hunks_no_empty.
Qed.

Lemma Changed_files_get fs m k :
  map_get (foldl Changed_file m fs) k = map_get m k ++ changed_under k fs.
Proof.
  revert m. induction fs as [|f fs IH]; intros m; simpl.
  - unfold changed_under. simpl. rewrite app_nil_r. reflexivity.
  - rewrite IH, Changed_file_get. unfold changed_under. rewrite filter_cons.
    destruct (decide (writes_to k f)); simpl.
    + rewrite <- app_assoc. reflexivity.
    + rewrite app_nil_r. reflexivity.
Qed.

Lemma Changed_files_no_empty fs m :
  no_empty_entry m -> no_empty_entry (foldl Changed_file m fs).
Proof.
  revert m. induction fs as [|f fs IH]; intros m Hm; simpl; [exact Hm|].
  apply IH, Changed_file_no_empty, Hm.
Qed.

(** A key under which [Changed] has filed no number has no entry. *)
Lemma Changed_get_nil (d : Diff.t) (k : string) :
  map_get (Changed d) k = [] -> Changed d !! k = None.
Proof.
  intros Hget. pose proof (Changed_files_no_empty (Diff.Files d) ∅) as Hne.
  fold (Changed d) in Hne.
  assert (H0 : no_empty_entry ∅) by (intros k'; rewrite lookup_empty; discriminate).
  specialize (Hne H0 k). unfold map_get in Hget.
  destruct (Changed d !! k) as [l|]; [|reflexivity]. simpl in Hget. congruence.
Qed.

(** C8 (as amended).  [Changed] maps a path [k] to the numbers of the
    Added-mode lines of the new ranges of the non-Deleted files whose new
    path is [k], in file, hunk and line order, and has no entry for [k]
    when there is no such line.  Deleted files are skipped. *)
Theorem Changed_lookup (d : Diff.t) (k : string) :
  Changed d !! k =
  if decide (changed_under k (Diff.Files d) = []) then None
  else Some (changed_under k (Diff.Files d)).
Proof.
  pose proof (Changed_files_get (Diff.Files d) ∅ k) as Hget.
  pose proof (Changed_files_no_empty (Diff.Files d) ∅) as Hne.
  fold (Changed d) in Hget, Hne.
  assert (H0 : no_empty_entry ∅) by (intros k'; rewrite lookup_empty; discriminate).
  specialize (Hne H0 k). unfold map_get in Hget. rewrite lookup_empty in Hget.
  simpl in Hget. destruct (Changed d !! k) as [l|] eqn:E; simpl in Hget; subst.
  - rewrite decide_False; [reflexivity|]. intros Hnil. apply Hne. now rewrite Hnil.
  - rewrite <- Hget. reflexivity.
Qed.

(** A path that only Deleted files carry has no entry. *)
Lemma Changed_skips_deleted (d : Diff.t) (k : string) :
  (forall f, f ∈ Diff.Files d -> DiffFile.NewName f = k -> DiffFile.Mode f = DELETED) ->
  Changed d !! k = None.
Proof.
  intros Hdel.
  assert (Hnil : filter (writes_to k) (Diff.Files d) = []).
  { induction (Diff.Files d) as [|f fs IH]; [reflexivity|].
    rewrite filter_cons. rewrite decide_False.
    - apply IH. intros f' Hin. apply Hdel. now right.
    - intros [Hm Hn]. apply Hm, Hdel; [left|exact Hn]. }
  apply Changed_get_nil. unfold Changed. rewrite Changed_files_get.
  unfold changed_under. rewrite Hnil. reflexivity.
Qed.

(** A non-Deleted file whose new path no other non-Deleted file shares
    gets exactly its own added line numbers. *)
Lemma Changed_unshared_path (d : Diff.t) (fs1 fs2 : list DiffFile.t) (f : DiffFile.t) :
  Diff.Files d = fs1 ++ f :: fs2 ->
  DiffFile.Mode f <> DELETED ->
  Forall (fun g => ~ writes_to (DiffFile.NewName f) g) (fs1 ++ fs2) ->
  map_get (Changed d) (DiffFile.NewName f) = added_numbers f.
Proof.
  intros Hd Hm Hothers. apply Forall_app in Hothers as [H1 H2].
  unfold Changed. rewrite Changed_files_get, Hd. unfold map_get at 1.
  rewrite lookup_empty. simpl. unfold changed_under.
  rewrite filter_app, filter_cons, decide_True by (split; auto).
  assert (Hnil : forall gs, Forall (fun g => ~ writes_to (DiffFile.NewName f) g) gs ->
                            filter (writes_to (DiffFile.NewName f)) gs = []).
  { intros gs Hgs. induction Hgs as [|g gs Hg _ IH]; [reflexivity|].
    rewrite filter_cons, decide_False by exact Hg. exact IH. }
  rewrite (Hnil _ H1), (Hnil _ H2). simpl. apply app_nil_r.
Qed.

(** C8 (as stated) fails, also on the Diffs that [Parse] returns: two
    sections of one diff may carry the same new path, and then the entry
    holds the lines of both. *)
Lemma Changed_lookup_counterexample :
  ~ (forall (d : Diff.t) (f : DiffFile.t),
        f ∈ Diff.Files d ->
        (DiffFile.Mode f = DELETED -> Changed d !! DiffFile.NewName f = None)
        /\ (DiffFile.Mode f <> DELETED ->
            map_get (Changed d) (DiffFile.NewName f) = added_numbers f)).
Proof.
  intros H.
  pose (s := unlines ["diff --git a/x b/x"; "@@ -1 +1,2 @@"; " a"; "+b";
                      "diff --git a/x b/x"; "@@ -7 +7,2 @@"; " c"; "+d"]%string).
  pose (d := parsed s).
  pose (f := match Diff.Files d with f :: _ => f | [] => sample_file end).
  assert (Hin : f ∈ Diff.Files d) by (vm_compute; apply list_elem_of_here).
  destruct (H d f Hin) as [_ H2].
  assert (Hm : DiffFile.Mode f <> DELETED) by (vm_compute; discriminate).
  specialize (H2 Hm). vm_compute in H2. discriminate H2.
Qed.

(** ** C9: file modes and line modes *)

Lemma no_added_add_line l m p a r h :
  (isSourceLine l = true -> starts_with "+" l = false) ->
  isSourceLine l = true -> lineMode l = Ok m ->
  no_mode_in ADDED (DiffRange.Lines (DiffHunk.NewRange h)) ->
  no_mode_in ADDED
    (DiffRange.Lines (DiffHunk.NewRange (add_line m (body_line m l p) a r h))).
Proof.
  intros Hgood Hsrc Hm Hh. destruct (lineMode_starts_with _ _ Hm) as [Ha _].
  unfold no_mode_in in *. destruct m; simpl.
  - rewrite (Hgood Hsrc) in Ha. discriminate (Ha eq_refl).
  - exact Hh.
  - apply Forall_app. split; [exact Hh|]. repeat constructor. discriminate.
Qed.

Lemma no_removed_add_line l m p a r h :
  (isSourceLine l = true -> starts_with "-" l = false) ->
  isSourceLine l = true -> lineMode l = Ok m ->
  no_mode_in REMOVED (DiffRange.Lines (DiffHunk.OrigRange h)) ->
  no_mode_in REMOVED
    (DiffRange.Lines (DiffHunk.OrigRange (add_line m (body_line m l p) a r h))).
Proof.
  intros Hgood Hsrc Hm Hh. destruct (lineMode_starts_with _ _ Hm) as [_ Hr].
  unfold no_mode_in in *. destruct m; simpl.
  - exact Hh.
  - rewrite (Hgood Hsrc) in Hr. discriminate (Hr eq_refl).
  - apply Forall_app. split; [exact Hh|]. repeat constructor. discriminate.
Qed.

(** C9 (as amended).  [Parse] does not hold the lines of a file against its
    mode: the mode of a line is read off its first character alone.  What
    holds, for a file of any mode, Deleted and New included: its new ranges
    hold no Added line when no line of its section that qualifies as
    content starts with [+], and its original ranges hold no Removed line
    when none starts with [-]. *)
Theorem Parse_file_line_modes (s : string) (pre : list string) (dl : string)
    (sec post : list string) (d : Diff.t) :
  file_section s pre dl sec post ->
  Parse s = Ok d ->
  exists f,
    Diff.Files d !! length (file_start_lines pre) = Some f
    /\ (Forall (fun l => isSourceLine l = true -> starts_with "+" l = false) sec ->
        no_added f)
    /\ (Forall (fun l => isSourceLine l = true -> starts_with "-" l = false) sec ->
        no_removed f).
Proof.
  intros (Hs & Hdl & _ & Hpost) HP.
  destruct (Parse_Ok_loop _ _ HP) as (st_end & Hloop & ->).
  rewrite Hs in Hloop at 2.
  apply Parse_loop_app_Ok in Hloop as (st0 & Hpre & Hloop).
  apply Parse_loop_cons_Ok in Hloop as (st1 & Hdl_step & Hloop).
  apply Parse_loop_app_Ok in Hloop as (st2 & Hsec_loop & Hloop).
  pose proof (Parse_loop_files_length _ _ _ _ _ Hpre) as Hn. simpl in Hn.
  set (n := length (file_start_lines pre)) in *.
  assert (Hok1 : pointers_ok st1).
  { eapply Parse_step_pointers_ok; [|exact Hdl_step].
    eapply Parse_loop_pointers_ok; [apply pointers_ok_init|exact Hpre]. }
  assert (Hok2 : pointers_ok st2) by (eapply Parse_loop_pointers_ok; eauto).
  (* the file-start line opens file [n], without hunks *)
  assert (Hst1 : files_of st1 = files_of st0 ++ [new_file (Split s newline) (length pre) dl]).
  { destruct Hdl_step as [_|? ? Hc|? ? ? Hc|? ? ? Hc|Hc]; try congruence. reflexivity. }
  assert (Hfresh : forall Q, file_hunks Q n (files_of st1)).
  { intros Q f. rewrite Hst1, lookup_snoc_Some.
    intros [[Hlt _]|[_ <-]]; [lia|constructor]. }
  assert (Hlen1 : length (files_of st1) = S n).
  { rewrite Hst1, length_app. simpl. lia. }
  pose proof (Parse_loop_files_length _ _ _ _ _ Hsec_loop) as Hlen2.
  destruct (lookup_lt_is_Some_2 (files_of st2) n) as [f Hf]; [lia|].
  (* the lines behind the section do not reach it *)
  assert (Hend : files_of st_end !! n = Some f).
  { destruct Hpost as [->|(dl' & post' & -> & Hdl')].
    - injection Hloop as <-. exact Hf.
    - apply Parse_loop_cons_Ok in Hloop as (st3 & Hstep3 & Hrest).
      pose proof (Parse_step_pointers_ok _ _ _ _ _ Hok2 Hstep3) as Hok3.
      assert (Hfiles3 : exists f', files_of st3 = files_of st2 ++ [f']).
      { destruct Hstep3 as [_|? ? Hc|? ? ? Hc|? ? ? Hc|Hc]; try congruence.
        unfold files_of at 1. simpl. eauto. }
      destruct Hfiles3 as [f' Hfiles3].
      assert (Hlen3 : (S n < length (files_of st3))%nat).
      { rewrite Hfiles3, length_app. simpl. lia. }
      rewrite (Parse_loop_frame n _ _ _ _ _ Hok3 Hlen3 Hrest).
      rewrite Hfiles3, lookup_app_l by lia. exact Hf. }
  exists f. split; [exact Hend|]. split; intros Hgood.
  - refine (Parse_loop_file_hunks _ _ n _ _ _ _ _ _ _ Hgood (Hfresh _) Hsec_loop f Hf).
    + intros l h Hh. destruct (parse_hunk_Lines _ _ Hh) as (_ & -> & _). constructor.
    + intros l m p a r h. apply no_added_add_line.
  - refine (Parse_loop_file_hunks _ _ n _ _ _ _ _ _ _ Hgood (Hfresh _) Hsec_loop f Hf).
    + intros l h Hh. destruct (parse_hunk_Lines _ _ Hh) as (-> & _). constructor.
    + intros l m p a r h. apply no_removed_add_line.
Qed.

Lemma Parse_file_line_modes_witness :
  file_section sample2 sample2_first "diff --git a/gone.txt b/gone.txt"
    (sample2_header ++ ["@@ -1,2 +0,0 @@"; "-first"; "-second"]%string) []
  /\ Parse sample2 = Ok sample2_parsed
  /\ exists f,
       Diff.Files sample2_parsed !! length (file_start_lines sample2_first) = Some f
       /\ (Forall (fun l => isSourceLine l = true -> starts_with "+" l = false)
             (sample2_header ++ ["@@ -1,2 +0,0 @@"; "-first"; "-second"]%string) ->
           no_added f)
       /\ (Forall (fun l => isSourceLine l = true -> starts_with "-" l = false)
             (sample2_header ++ ["@@ -1,2 +0,0 @@"; "-first"; "-second"]%string) ->
           no_removed f).
Proof.
  assert (H1 : file_section sample2 sample2_first "diff --git a/gone.txt b/gone.txt"
                 (sample2_header ++ ["@@ -1,2 +0,0 @@"; "-first"; "-second"]%string) []).
  { split; [vm_compute; reflexivity|]. split; [reflexivity|]. split; [|left; reflexivity].
    repeat constructor; intros Hc; vm_compute in Hc; discriminate Hc. }
  exact (conj H1 (conj Parse_sample2
           (Parse_file_line_modes _ _ _ _ _ _ H1 Parse_sample2))).
Defined.

(** C9 (as stated) fails: a Deleted file keeps the Added line that its
    section holds. *)
Lemma Parse_file_line_modes_counterexample :
  ~ (forall s d i f,
        Parse s = Ok d -> Diff.Files d !! i = Some f ->
        (DiffFile.Mode f = DELETED -> no_added f)
        /\ (DiffFile.Mode f = NEW -> no_removed f)).
Proof.
  intros H.
  pose (s := unlines ["diff --git a/x b/x"; "deleted file mode 100644"; "@@ -1 +1 @@";
                      "-gone"; "+kept"]%string).
  destruct (Parse s) as [d| |] eqn:E; try (vm_compute in E; discriminate E).
  vm_compute in E. injection E as <-.
  destruct (H s _ 0%nat _ ltac:(vm_compute; reflexivity) eq_refl) as [Hd _].
  specialize (Hd eq_refl). unfold no_added in Hd. simpl in Hd.
  inversion Hd as [|? ? Hh _]; subst. inversion Hh as [|? ? Hl _]; subst.
  now apply Hl.
Qed.

(** ** C10: the paths of a file *)

Lemma changed_under_contains k fs i f :
  fs !! i = Some f -> writes_to k f ->
  exists before after, changed_under k fs = before ++ added_numbers f ++ after.
Proof.
  intros Hl Hw. apply list_elem_of_split_length in Hl as (fs1 & fs2 & -> & _).
  unfold changed_under. rewrite filter_app, filter_cons, decide_True by exact Hw.
  rewrite map_app, concat_app. simpl. eauto.
Qed.

(** C10.  The file that the [i]-th file-start line opens has as original
    path the second-to-last token of that line stripped of [a/], and as new
    path the last token stripped of [b/]; a path is the empty string when
    the token lacks the marker and when the line has fewer than three
    tokens.  [Changed] files the added lines of a non-Deleted file under
    its new path, the empty one included. *)
Theorem Parse_file_paths (s : string) (d : Diff.t) (i : nat) (f : DiffFile.t) :
  Parse s = Ok d ->
  Diff.Files d !! i = Some f ->
  exists l,
    file_start_lines (Split s newline) !! i = Some l
    /\ path_from "a/" (fst (path_hints l)) (DiffFile.OrigName f)
    /\ path_from "b/" (snd (path_hints l)) (DiffFile.NewName f)
    /\ ((length (Fields l) < 3)%nat ->
        DiffFile.OrigName f = EmptyString /\ DiffFile.NewName f = EmptyString)
    /\ (DiffFile.Mode f <> DELETED ->
        exists before after,
          map_get (Changed d) (DiffFile.NewName f) = before ++ added_numbers f ++ after).
Proof.
  intros HP Hf. pose proof (Parse_names _ _ HP) as Hnames.
  assert (Hn : map names_of (Diff.Files d) !! i = Some (names_of f)).
  { rewrite list_lookup_fmap, Hf. reflexivity. }
  rewrite Hnames, list_lookup_fmap in Hn.
  destruct (file_start_lines (Split s newline) !! i) as [l|] eqn:El; [|discriminate].
  simpl in Hn. injection Hn as Hn. exists l. split; [reflexivity|].
  destruct (file_names_path_from l) as [Ha Hb]. rewrite Hn in Ha, Hb. simpl in Ha, Hb.
  split; [exact Ha|]. split; [exact Hb|]. split.
  - intros Hlen. rewrite (file_names_few_tokens _ Hlen) in Hn.
    unfold names_of in Hn. injection Hn as <- <-. auto.
  - intros Hm. unfold Changed. rewrite Changed_files_get. unfold map_get at 1.
    rewrite lookup_empty. simpl.
    eapply changed_under_contains; [exact Hf|]. split; [exact Hm|reflexivity].
Qed.

Lemma Parse_file_paths_witness :
  Parse sample = Ok sample_parsed
  /\ Diff.Files sample_parsed !! 0%nat = Some sample_file
  /\ exists l,
       file_start_lines (Split sample newline) !! 0%nat = Some l
       /\ path_from "a/" (fst (path_hints l)) (DiffFile.OrigName sample_file)
       /\ path_from "b/" (snd (path_hints l)) (DiffFile.NewName sample_file)
       /\ ((length (Fields l) < 3)%nat ->
           DiffFile.OrigName sample_file = EmptyString
           /\ DiffFile.NewName sample_file = EmptyString)
       /\ (DiffFile.Mode sample_file <> DELETED ->
           exists before after,
             map_get (Changed sample_parsed) (DiffFile.NewName sample_file)
             = before ++ added_numbers sample_file ++ after).
Proof.
  assert (H2 : Diff.Files sample_parsed !! 0%nat = Some sample_file) by reflexivity.
  exact (conj Parse_sample (conj H2 (Parse_file_paths _ _ _ _ Parse_sample H2))).
Defined.

(** * Further properties of the package *)

Lemma Parse_sample5 : Parse sample5 = Ok sample5_parsed.
Proof. vm_compute. reflexivity. Defined.

Lemma Parse_sample7 : Parse sample7 = Ok sample7_parsed.
Proof. vm_compute. reflexivity. Defined.

(** ** The names of the modes *)

(** X1.  [FileMode.String] gives the four declared modes four different
    names, and the name [UNKNOWN] to the values that are none of them and to
    no other. *)
Theorem FileMode_String_names :
  (forall a b : FileMode,
      FileMode_String (FileMode_int a) = FileMode_String (FileMode_int b) -> a = b)
  /\ (forall z : Z, FileMode_String z = "UNKNOWN"%string <-> forall m, FileMode_int m <> z).
Proof.
  split.
  - intros [] [] H; first [reflexivity|vm_compute in H; discriminate H].
  - intros z. unfold FileMode_String. split.
    + intros H m Hm. subst z. destruct m; vm_compute in H; discriminate H.
    + intros H.
      destruct (Z.eqb_spec z (FileMode_int DELETED)) as [E|_]; [now destruct (H DELETED)|].
      destruct (Z.eqb_spec z (FileMode_int MODIFIED)) as [E|_]; [now destruct (H MODIFIED)|].
      destruct (Z.eqb_spec z (FileMode_int NEW)) as [E|_]; [now destruct (H NEW)|].
      destruct (Z.eqb_spec z (FileMode_int RENAMED)) as [E|_]; [now destruct (H RENAMED)|].
      reflexivity.
Qed.

(** X2.  [DiffLineMode.String] gives the three declared modes three
    different names, and the name [UNKNOWN] to the values that are none of
    them and to no other. *)
Theorem DiffLineMode_String_names :
  (forall a b : DiffLineMode,
      DiffLineMode_String (DiffLineMode_int a) = DiffLineMode_String (DiffLineMode_int b) ->
      a = b)
  /\ (forall z : Z,
         DiffLineMode_String z = "UNKNOWN"%string <-> forall m, DiffLineMode_int m <> z).
Proof.
  split.
  - intros [] [] H; first [reflexivity|vm_compute in H; discriminate H].
  - intros z. unfold DiffLineMode_String. split.
    + intros H m Hm. subst z. destruct m; vm_compute in H; discriminate H.
    + intros H.
      destruct (Z.eqb_spec z (DiffLineMode_int ADDED)) as [E|_]; [now destruct (H ADDED)|].
      destruct (Z.eqb_spec z (DiffLineMode_int REMOVED)) as [E|_]; [now destruct (H REMOVED)|].
      destruct (Z.eqb_spec z (DiffLineMode_int UNCHANGED)) as [E|_];
        [now destruct (H UNCHANGED)|].
      reflexivity.
Qed.

(** ** The input that [Parse] keeps *)

Lemma Parse_step_Raw lines idx l st st' :
  Parse_step lines idx l st st' ->
  Diff.Raw (diff st') = Diff.Raw (diff st) /\ Diff.PullID (diff st') = Diff.PullID (diff st).
Proof.
  intros [Hc|m i Hc Hi|i f h Hc Hi Hf Hh|m i j Hc Hin Hsrc Hm Hk|Hc Hskip];
    split; reflexivity.
Qed.

Lemma Parse_loop_Raw lines rest idx st st' :
  Parse_loop lines idx rest st = Ok st' ->
  Diff.Raw (diff st') = Diff.Raw (diff st) /\ Diff.PullID (diff st') = Diff.PullID (diff st).
Proof.
  intros Hloop.
  refine (Parse_loop_invariant lines
            (fun st1 => Diff.Raw (diff st1) = Diff.Raw (diff st)
                        /\ Diff.PullID (diff st1) = Diff.PullID (diff st))
            _ _ idx st st' (conj eq_refl eq_refl) Hloop).
  intros i l st0 st1 [HR HI] Hstep.
  destruct (Parse_step_Raw _ _ _ _ _ Hstep) as [-> ->]. auto.
Qed.

(** X3.  The Diff that [Parse] returns holds the input, byte for byte, as
    [Raw], and the zero [PullID]. *)
Theorem Parse_keeps_input (s : string) (d : Diff.t) :
  Parse s = Ok d -> Diff.Raw d = s /\ Diff.PullID d = 0.
Proof.
  intros HP. destruct (Parse_Ok_loop _ _ HP) as (st & Hloop & ->).
  exact (Parse_loop_Raw _ _ _ _ _ Hloop).
Qed.

Lemma Parse_keeps_input_witness :
  Parse sample = Ok sample_parsed
  /\ Diff.Raw sample_parsed = sample /\ Diff.PullID sample_parsed = 0.
Proof. exact (conj Parse_sample (Parse_keeps_input _ _ Parse_sample)). Defined.

(** ** Text without structure *)

Lemma set_diffPosCount_tick p st : set_diffPosCount p (tick st) = set_diffPosCount p st.
Proof. reflexivity. Qed.

(** Lines that the switch does not single out, met outside a hunk, only
    move the position counter. *)
Lemma Parse_loop_Body_skip lines pre idx st :
  Forall (fun l => classify l = Body) pre ->
  inHunk st = false ->
  Parse_loop lines idx pre st
  = Ok (set_diffPosCount (Nat.iter (length pre) incr (diffPosCount st)) st).
Proof.
  intros Hpre. revert idx st. induction Hpre as [|l pre Hl _ IH]; intros idx st Hin.
  - destruct st; reflexivity.
  - cbn [Parse_loop]. rewrite Parse_line_classify, Hl, Hin. cbn [andb bind].
    rewrite (IH (S idx) (tick st) Hin). cbn [length]. rewrite Nat.iter_succ_r.
    reflexivity.
Qed.

(** X4.  An input none of whose lines starts with [diff ], [deleted file ],
    [new file ], [rename ] or [@@ ], the empty input included, parses to a
    Diff without files: no line is looked at further and no error is
    raised. *)
Theorem Parse_without_structure (s : string) :
  Forall (fun l => classify l = Body) (Split s newline) ->
  Parse s = Ok (Diff.mk [] s 0).
Proof.
  intros Hall. unfold Parse.
  rewrite (Parse_loop_Body_skip _ _ 0 (init s) Hall eq_refl). reflexivity.
Qed.

Lemma Parse_without_structure_witness :
  Forall (fun l => classify l = Body) (Split sample4 newline)
  /\ Parse sample4 = Ok (Diff.mk [] sample4 0).
Proof.
  assert (H : Forall (fun l => classify l = Body) (Split sample4 newline))
    by (repeat constructor).
  exact (conj H (Parse_without_structure _ H)).
Defined.

(** ** When [Parse] panics *)

(** The first line that the switch singles out, if there is one. *)
Lemma first_structural_line (lines : list string) :
  Forall (fun l => classify l = Body) lines
  \/ exists pre l post,
       lines = pre ++ l :: post
       /\ Forall (fun l => classify l = Body) pre
       /\ classify l <> Body.
Proof.
  induction lines as [|l lines IH]; [left; constructor|].
  destruct (decide (classify l = Body)) as [Hl|Hl].
  - destruct IH as [IH|(pre & l' & post & -> & Hpre & Hl')].
    + left. now constructor.
    + right. exists (l :: pre), l', post. repeat split; auto.
  - right. exists [], l, lines. repeat split; auto.
Qed.

(** X5.  [Parse] panics on exactly the inputs whose first line with one of
    the five prefixes is a mode-refinement or a hunk-start line, and the
    panic is always the nil pointer dereference: once a [diff ] line has
    come first, no input makes it panic. *)
Theorem Parse_panics_iff (s : string) (msg : string) :
  Parse s = Panic msg
  <-> msg = nil_deref
      /\ exists pre l post,
           Split s newline = pre ++ l :: post
           /\ Forall (fun l => classify l = Body) pre
           /\ classify l <> Body /\ classify l <> FileStart.
Proof.
  split.
  - intros HP.
    destruct (first_structural_line (Split s newline))
      as [Hall|(pre & l & post & Hs & Hpre & Hl)].
    + unfold Parse in HP.
      rewrite (Parse_loop_Body_skip _ _ 0 (init s) Hall eq_refl) in HP. discriminate HP.
    + destruct (classify l) as [|m| |] eqn:Hc; [ | | |congruence].
      * exfalso. exact (Parse_no_panic_after_file _ _ _ _ msg Hs Hpre Hc HP).
      * rewrite (Parse_panics_before_file _ _ _ _ Hs Hpre) in HP by eauto.
        injection HP as <-. split; [reflexivity|].
        exists pre, l, post. rewrite Hc. repeat split; auto; discriminate.
      * rewrite (Parse_panics_before_file _ _ _ _ Hs Hpre) in HP by auto.
        injection HP as <-. split; [reflexivity|].
        exists pre, l, post. rewrite Hc. repeat split; auto; discriminate.
  - intros (-> & pre & l & post & Hs & Hpre & Hl1 & Hl2).
    apply (Parse_panics_before_file _ _ _ _ Hs Hpre).
    destruct (classify l) as [|m| |]; try congruence; eauto.
Qed.

(** ** The files and their headers *)

Lemma append_assoc a b c : (a +:+ b) +:+ c = a +:+ (b +:+ c).
Proof.
  induction a as [|x a IH]; [reflexivity|]. rewrite !append_String. now f_equal.
Qed.

(** A line without newline is the first piece of what it starts. *)
Lemma Split_line l r :
  no_newline l = true -> Split (l +:+ String newline r) newline = l :: Split r newline.
Proof.
  induction l as [|c l IH]; intros Hl.
  - rewrite append_Empty. reflexivity.
  - simpl in Hl. apply andb_true_iff in Hl as [Hc Hl]. apply negb_true_iff in Hc.
    rewrite append_String. cbn [Split]. rewrite Hc, (IH Hl). reflexivity.
Qed.

Lemma Split_one l : no_newline l = true -> Split l newline = [l].
Proof.
  induction l as [|c l IH]; intros Hl; [reflexivity|].
  simpl in Hl. apply andb_true_iff in Hl as [Hc Hl]. apply negb_true_iff in Hc.
  cbn [Split]. rewrite Hc, (IH Hl). reflexivity.
Qed.

Lemma first_line_file_header lines idx l :
  no_newline l = true -> first_line (file_header lines idx l) = Some l.
Proof.
  intros Hl. unfold first_line, file_header, nl.
  destruct (idx + 3 <? length lines)%nat; [|now rewrite Split_one].
  destruct (MatchString rein _), (MatchString remp _ && MatchString remp _);
    rewrite ?append_assoc, ?append_String, ?append_Empty, ?Split_line by exact Hl;
    try reflexivity.
  now rewrite Split_one.
Qed.

(** A step that is not a file start keeps the headers of all files; a file
    start appends the header that it builds. *)
Lemma Parse_step_headers lines idx l st st' :
  Parse_step lines idx l st st' ->
  map DiffFile.DiffHeader (files_of st')
  = map DiffFile.DiffHeader (files_of st) ++ headers_from lines idx [l].
Proof.
  cbn [headers_from]. rewrite app_nil_r.
  intros [Hc|m i Hc Hi|i f h Hc Hi Hf Hh|m i j Hc Hin Hsrc Hm Hk|Hc Hskip];
    rewrite Hc; unfold files_of, write_hunk in *; simpl; rewrite ?app_nil_r.
  - rewrite map_app. reflexivity.
  - apply map_alter_same. reflexivity.
  - eapply map_insert_same; [exact Hf|reflexivity].
  - apply map_alter_same. reflexivity.
  - reflexivity.
Qed.

Lemma Parse_loop_headers lines rest idx st st' :
  Parse_loop lines idx rest st = Ok st' ->
  map DiffFile.DiffHeader (files_of st')
  = map DiffFile.DiffHeader (files_of st) ++ headers_from lines idx rest.
Proof.
  revert idx st. induction rest as [|l rest IH]; intros idx st Hloop.
  - injection Hloop as <-. simpl. now rewrite app_nil_r.
  - apply Parse_loop_cons_Ok in Hloop as (st1 & Hl & Hrest).
    rewrite (IH _ _ Hrest), (Parse_step_headers _ _ _ _ _ Hl), <- app_assoc.
    cbn [headers_from]. now rewrite app_nil_r.
Qed.

Lemma headers_from_app lines idx a b :
  headers_from lines idx (a ++ b)
  = headers_from lines idx a ++ headers_from lines (idx + length a) b.
Proof.
  revert idx. induction a as [|l a IH]; intros idx; cbn [headers_from app length].
  - now rewrite Nat.add_0_r.
  - rewrite IH, <- app_assoc. do 3 f_equal. lia.
Qed.

Lemma length_headers_from lines idx rest :
  length (headers_from lines idx rest) = length (file_start_lines rest).
Proof.
  revert idx. induction rest as [|l rest IH]; intros idx; [reflexivity|].
  cbn [headers_from]. change (l :: rest) with ([l] ++ rest).
  rewrite file_start_lines_app, !length_app, IH, file_start_lines_one.
  destruct (decide (classify l = FileStart)); reflexivity.
Qed.

Lemma headers_from_first_lines lines idx rest :
  Forall (fun l => no_newline l = true) rest ->
  Forall2 (fun h l => first_line h = Some l)
    (headers_from lines idx rest) (file_start_lines rest).
Proof.
  intros Hrest. revert idx. induction Hrest as [|l rest Hl _ IH]; intros idx.
  - constructor.
  - cbn [headers_from]. change (l :: rest) with ([l] ++ rest).
    rewrite file_start_lines_app, file_start_lines_one.
    apply Forall2_app; [|apply IH].
    destruct (decide (classify l = FileStart)); repeat constructor.
    now apply first_line_file_header.
Qed.

(** X6.  A successful [Parse] returns one file for every line of the input
    that starts with [diff ], in the order of these lines, and the header
    of each file has that line as its first line. *)
Theorem Parse_files_of_diff_lines (s : string) (d : Diff.t) :
  Parse s = Ok d ->
  Forall2 (fun f l => first_line (DiffFile.DiffHeader f) = Some l)
    (Diff.Files d) (file_start_lines (Split s newline)).
Proof.
  intros HP. destruct (Parse_Ok_loop _ _ HP) as (st & Hloop & ->).
  apply Parse_loop_headers in Hloop. simpl in Hloop.
  apply (Forall2_fmap_l DiffFile.DiffHeader (fun h l => first_line h = Some l)).
  change (Diff.Files (diff st)) with (files_of st).
  change (DiffFile.DiffHeader <$> files_of st) with (map DiffFile.DiffHeader (files_of st)).
  rewrite Hloop. apply headers_from_first_lines, Split_no_newline.
Qed.

Lemma Parse_files_of_diff_lines_witness :
  Parse sample2 = Ok sample2_parsed
  /\ Forall2 (fun f l => first_line (DiffFile.DiffHeader f) = Some l)
       (Diff.Files sample2_parsed) (file_start_lines (Split sample2 newline)).
Proof. exact (conj Parse_sample2 (Parse_files_of_diff_lines _ _ Parse_sample2)). Defined.

(** The patterns of the header on the lines that [git diff] writes. *)
Lemma backtrack_rest_of_line text t m (k : continuation) x :
  t <> EmptyString -> no_newline t = true ->
  k EmptyString m = Some x ->
  backtrack text (Plus not_newline >> End) t m k = Some x.
Proof.
  intros Hne Hnl Hk. rewrite backtrack_Cat. cbn [backtrack].
  rewrite <- (append_nil_r t). apply plus_greedy; auto.
  now rewrite <- no_newline_forallb.
Qed.

Lemma backtrack_Begin text m k : backtrack text Begin text m k = k text m.
Proof. cbn [backtrack]. now rewrite Nat.eqb_refl. Qed.

Lemma MatchString_rein X :
  X <> EmptyString -> no_newline X = true -> MatchString rein ("index " +:+ X) = true.
Proof.
  intros Hne Hnl. unfold MatchString.
  set (text := "index " +:+ X).
  rewrite (FindStringSubmatch_first _ _ [string_take (String.length text - 0) text]);
    [reflexivity|].
  unfold match_at, rein. rewrite backtrack_Cat, backtrack_Begin, backtrack_Cat.
  unfold text at 2. rewrite backtrack_Lit.
  apply backtrack_rest_of_line; auto.
Qed.

Lemma backtrack_Group text n r s m k :
  backtrack text (Group n r) s m k
  = backtrack text r s m
      (fun s' m' => k s' (<[n := string_take (String.length s - String.length s') s]> m')).
Proof. reflexivity. Qed.

Lemma backtrack_Alt text r1 r2 s m k :
  backtrack text (Alt r1 r2) s m k
  = match backtrack text r1 s m k with
    | Some x => Some x
    | None => backtrack text r2 s m k
    end.
Proof. reflexivity. Qed.

Lemma backtrack_sign c text T r m (k : continuation) x :
  c = "-"%char \/ c = "+"%char ->
  backtrack text T r (<[1%nat := String c EmptyString]> m) k = Some x ->
  backtrack text (Group 1 (Alt (Lit "-") (Lit "+")) >> T) (String c r) m k = Some x.
Proof.
  intros Hc HT. rewrite backtrack_Cat, backtrack_Group, backtrack_Alt.
  destruct Hc as [-> | ->].
  - change (String "-" r) with ("-" +:+ r). rewrite backtrack_Lit.
    rewrite length_append, Nat.add_sub, string_take_app, HT. reflexivity.
  - change (String "+" r) with ("+" +:+ r).
    match goal with
    | |- context [backtrack text (Lit "-") ("+" +:+ r) m ?K] =>
        change (backtrack text (Lit "-") ("+" +:+ r) m K) with (@None (list string))
    end.
    rewrite backtrack_Lit.
    rewrite length_append, Nat.add_sub, string_take_app, HT. reflexivity.
Qed.

Lemma MatchString_remp c P :
  c = "-"%char \/ c = "+"%char ->
  P <> EmptyString -> no_newline P = true ->
  MatchString remp (String c (String c (String c (String " " P)))) = true.
Proof.
  intros Hc Hne Hnl. unfold MatchString.
  set (text := String c (String c (String c (String " " P)))).
  rewrite (FindStringSubmatch_first _ _
             [string_take (String.length text - 0) text; String c EmptyString]);
    [reflexivity|].
  unfold match_at, remp. rewrite backtrack_Cat, backtrack_Begin. unfold text at 2.
  do 3 (apply backtrack_sign; [exact Hc|]).
  rewrite backtrack_Cat.
  change (String " " P) with (" " +:+ P). rewrite backtrack_Lit.
  apply backtrack_rest_of_line; auto.
Qed.

Lemma file_header_git lines idx dl X P Q :
  (idx + 3 < length lines)%nat ->
  lines !! (idx + 1)%nat = Some ("index " +:+ X) ->
  lines !! (idx + 2)%nat = Some ("--- " +:+ P) ->
  lines !! (idx + 3)%nat = Some ("+++ " +:+ Q) ->
  X <> EmptyString -> P <> EmptyString -> Q <> EmptyString ->
  Forall (fun l => no_newline l = true) lines ->
  file_header lines idx dl = unlines [dl; "index " +:+ X; "--- " +:+ P; "+++ " +:+ Q].
Proof.
  intros Hlen H1 H2 H3 HX HP HQ Hnl. unfold file_header.
  destruct (Nat.ltb_spec (idx + 3) (length lines)) as [_|]; [|lia].
  rewrite !list_lookup_total_alt, H1, H2, H3. cbn [default from_option id].
  rewrite Forall_lookup in Hnl.
  pose proof (Hnl _ _ H1) as N1. pose proof (Hnl _ _ H2) as N2. pose proof (Hnl _ _ H3) as N3.
  rewrite MatchString_rein; [|exact HX|exact (no_newline_app_r _ _ N1)].
  change ("--- " +:+ P) with (String "-" (String "-" (String "-" (String " " P)))) at 1.
  change ("+++ " +:+ Q) with (String "+" (String "+" (String "+" (String " " Q)))) at 1.
  rewrite !MatchString_remp;
    [|auto|exact HQ|exact (no_newline_app_r "+++ " _ N3)
     |auto|exact HP|exact (no_newline_app_r "--- " _ N2)].
  cbn [andb unlines String.concat]. rewrite !append_assoc. reflexivity.
Qed.

(** X7.  Where a [diff ] line is followed by an [index] line and by the
    pair of a [---] and a [+++] line, as [git diff] writes them for a
    modified file, the header of the file is these four lines. *)
Theorem Parse_header_git_layout (s : string) (pre : list string) (dl X P Q : string)
    (post : list string) (d : Diff.t) :
  Split s newline = pre ++ dl :: ("index " +:+ X) :: ("--- " +:+ P) :: ("+++ " +:+ Q) :: post ->
  classify dl = FileStart ->
  X <> EmptyString -> P <> EmptyString -> Q <> EmptyString ->
  Parse s = Ok d ->
  exists f,
    Diff.Files d !! length (file_start_lines pre) = Some f
    /\ DiffFile.DiffHeader f = unlines [dl; "index " +:+ X; "--- " +:+ P; "+++ " +:+ Q].
Proof.
  intros Hs Hdl HX HP HQ Hparse.
  destruct (Parse_Ok_loop _ _ Hparse) as (st & Hloop & ->).
  apply Parse_loop_headers in Hloop. simpl in Hloop.
  rewrite Hs in Hloop at 2.
  set (lines := Split s newline) in *.
  assert (Hh : map DiffFile.DiffHeader (files_of st) !! length (file_start_lines pre)
               = Some (file_header lines (length pre) dl)).
  { rewrite Hloop, headers_from_app.
    rewrite lookup_app_r by (rewrite length_headers_from; lia).
    rewrite length_headers_from, Nat.sub_diag. cbn [headers_from].
    rewrite decide_True by exact Hdl. reflexivity. }
  change (map DiffFile.DiffHeader (files_of st)) with (DiffFile.DiffHeader <$> files_of st) in Hh.
  rewrite list_lookup_fmap in Hh.
  destruct (files_of st !! length (file_start_lines pre)) as [f|] eqn:Ef; [|discriminate].
  exists f. split; [exact Ef|]. simpl in Hh. injection Hh as ->.
  apply (file_header_git lines (length pre) dl X P Q).
  - rewrite Hs, length_app. simpl. lia.
  - rewrite Hs. rewrite lookup_app_r by lia.
    replace (length pre + 1 - length pre)%nat with 1%nat by lia. reflexivity.
  - rewrite Hs. rewrite lookup_app_r by lia.
    replace (length pre + 2 - length pre)%nat with 2%nat by lia. reflexivity.
  - rewrite Hs. rewrite lookup_app_r by lia.
    replace (length pre + 3 - length pre)%nat with 3%nat by lia. reflexivity.
  - exact HX.
  - exact HP.
  - exact HQ.
  - apply Split_no_newline.
Qed.

Lemma Parse_header_git_layout_witness :
  Split sample newline
  = [] ++ "diff --git a/x.txt b/x.txt"%string
       :: ("index " +:+ "0a1b2c3..4d5e6f7 100644") :: ("--- " +:+ "a/x.txt")
       :: ("+++ " +:+ "b/x.txt") :: "@@ -1,3 +1,4 @@ func foo"%string :: sample_body
  /\ classify "diff --git a/x.txt b/x.txt" = FileStart
  /\ "0a1b2c3..4d5e6f7 100644"%string <> EmptyString
  /\ "a/x.txt"%string <> EmptyString
  /\ "b/x.txt"%string <> EmptyString
  /\ Parse sample = Ok sample_parsed
  /\ exists f,
       Diff.Files sample_parsed !! length (file_start_lines []) = Some f
       /\ DiffFile.DiffHeader f
          = unlines ["diff --git a/x.txt b/x.txt"%string;
                     "index " +:+ "0a1b2c3..4d5e6f7 100644"; "--- " +:+ "a/x.txt";
                     "+++ " +:+ "b/x.txt"].
Proof.
  assert (H1 : Split sample newline
               = [] ++ "diff --git a/x.txt b/x.txt"%string
                    :: ("index " +:+ "0a1b2c3..4d5e6f7 100644") :: ("--- " +:+ "a/x.txt")
                    :: ("+++ " +:+ "b/x.txt") :: "@@ -1,3 +1,4 @@ func foo"%string
                    :: sample_body)
    by (vm_compute; reflexivity).
  assert (H2 : classify "diff --git a/x.txt b/x.txt" = FileStart) by reflexivity.
  assert (H3 : "0a1b2c3..4d5e6f7 100644"%string <> EmptyString) by discriminate.
  assert (H4 : "a/x.txt"%string <> EmptyString) by discriminate.
  assert (H5 : "b/x.txt"%string <> EmptyString) by discriminate.
  exact (conj H1 (conj H2 (conj H3 (conj H4 (conj H5 (conj Parse_sample
           (Parse_header_git_layout _ _ _ _ _ _ _ _ H1 H2 H3 H4 H5 Parse_sample))))))).
Defined.

(** ** Properties of every line *)

(** [Parse_step_all_hunks], with what the step knows of a body line. *)
Lemma Parse_step_hunks (Q : DiffHunk.t -> Prop) lines idx l st st' :
  (forall h, parse_hunk l = Ok h -> Q h) ->
  (forall m p a r h,
      classify l = Body -> isSourceLine l = true -> lineMode l = Ok m ->
      Q h -> Q (add_line m (body_line m l p) a r h)) ->
  all_hunks Q (files_of st) ->
  Parse_step lines idx l st st' ->
  all_hunks Q (files_of st').
Proof.
  intros Hnew Hadd Hall
         [Hc|m i Hc Hi|i f h Hc Hi Hf Hh|m i j Hc Hin Hsrc Hm Hk|Hc Hskip];
    unfold all_hunks, files_of, write_hunk in *; simpl.
  - apply Forall_app; split; [exact Hall|]. repeat constructor.
  - apply Forall_alter; [exact Hall|]. intros f _ Hf. exact Hf.
  - apply Forall_insert; [exact Hall|]. simpl. apply Forall_app; split.
    + exact (proj1 (Forall_lookup _ _) Hall i f Hf).
    + repeat constructor. auto.
  - apply Forall_alter; [exact Hall|]. intros f _ Hf. simpl.
    apply Forall_alter; [exact Hf|]. intros h _ Hh. auto.
  - exact Hall.
Qed.

Lemma hunk_lines_fresh l h : parse_hunk l = Ok h -> hunk_lines h = [].
Proof.
  intros H. destruct (parse_hunk_Lines _ _ H) as (Ho & Hn & Hw).
  unfold hunk_lines. now rewrite Ho, Hn, Hw.
Qed.

Lemma hunk_lines_add_line (P : DiffLine.t -> Prop) m line a r h :
  P (DiffLine.set_Number a line) -> P (DiffLine.set_Number r line) ->
  Forall P (hunk_lines h) -> Forall P (hunk_lines (add_line m line a r h)).
Proof.
  unfold hunk_lines. intros Ha Hr Hh.
  apply Forall_app in Hh as [Ho Hh]. apply Forall_app in Hh as [Hn Hw].
  destruct m; simpl; repeat (apply Forall_app; split); auto.
Qed.

(** What holds of every body line as it is recorded holds of every line of
    the Diff. *)
Lemma Parse_loop_all_lines (P : DiffLine.t -> Prop) (good : string -> Prop)
    lines rest idx st st' :
  (forall l m n p,
      good l -> classify l = Body -> isSourceLine l = true -> lineMode l = Ok m ->
      P (DiffLine.mk m n (string_drop 1 l) p)) ->
  Forall good rest ->
  all_lines P (files_of st) ->
  Parse_loop lines idx rest st = Ok st' ->
  all_lines P (files_of st').
Proof.
  intros HP Hrest. revert idx st.
  induction Hrest as [|l rest Hl _ IH]; intros idx st Hall Hloop.
  - injection Hloop as <-. exact Hall.
  - apply Parse_loop_cons_Ok in Hloop as (st1 & Hstep & Hloop).
    apply (IH _ _ (Parse_step_hunks _ _ _ _ _ _
                     (fun h Hh => eq_ind_r (Forall P) (Forall_nil_2 P) (hunk_lines_fresh _ _ Hh))
                     (fun m p a r h Hc Hs Hm Hh =>
                        hunk_lines_add_line P m (body_line m l p) a r h
                          (HP l m a p Hl Hc Hs Hm) (HP l m r p Hl Hc Hs Hm) Hh)
                     Hall Hstep)
              Hloop).
Qed.

Lemma Parse_all_lines (P : DiffLine.t -> Prop) s d :
  (forall l m n p,
      l ∈ Split s newline -> classify l = Body -> isSourceLine l = true ->
      lineMode l = Ok m ->
      P (DiffLine.mk m n (string_drop 1 l) p)) ->
  Parse s = Ok d -> all_lines P (Diff.Files d).
Proof.
  intros HP Hparse. destruct (Parse_Ok_loop _ _ Hparse) as (st & Hloop & ->).
  refine (Parse_loop_all_lines P (fun l => l ∈ Split s newline) _ _ _ _ _ HP _ _ Hloop).
  - apply Forall_forall. auto.
  - constructor.
Qed.

(** [lineMode] reads the mode off the first character. *)
Lemma lineMode_mode_char l m :
  lineMode l = Ok m -> l = String (mode_char m) (string_drop 1 l).
Proof.
  destruct l as [|c r]; [discriminate|]. unfold lineMode. cbn [string_drop].
  destruct (Ascii.eqb_spec c " ") as [->|_]; [now intros [= <-]|].
  destruct (Ascii.eqb_spec c "+") as [->|_]; [now intros [= <-]|].
  destruct (Ascii.eqb_spec c "-") as [->|_]; [now intros [= <-]|].
  discriminate.
Qed.

(** X8.  Every line that a Diff returned by [Parse] holds, in whatever
    range, was read from a line of the input that qualifies as content and
    has none of the five prefixes: the first character of that line is the
    one of the line's mode, and the rest of it is the content, byte for
    byte. *)
Theorem Parse_lines_from_input (s : string) (d : Diff.t) :
  Parse s = Ok d ->
  all_lines (fun dl => source_line dl ∈ Split s newline
                       /\ isSourceLine (source_line dl) = true
                       /\ classify (source_line dl) = Body)
    (Diff.Files d).
Proof.
  apply Parse_all_lines. intros l m n p Hin Hc Hsrc Hm.
  unfold source_line. cbn [DiffLine.Mode DiffLine.Content].
  rewrite <- (lineMode_mode_char _ _ Hm). auto.
Qed.

Lemma Parse_lines_from_input_witness :
  Parse sample = Ok sample_parsed
  /\ all_lines (fun dl => source_line dl ∈ Split sample newline
                          /\ isSourceLine (source_line dl) = true
                          /\ classify (source_line dl) = Body)
       (Diff.Files sample_parsed).
Proof. exact (conj Parse_sample (Parse_lines_from_input _ _ Parse_sample)). Defined.

(** A line that starts with [---] or [+++] does not qualify as content. *)
Lemma isSourceLine_marker l :
  HasPrefix l "---" = true \/ HasPrefix l "+++" = true -> isSourceLine l = false.
Proof.
  intros H. unfold isSourceLine. destruct (String.eqb l no_newline_marker); [reflexivity|].
  destruct H as [H|H]; apply HasPrefix_inv in H; rewrite H;
    rewrite length_append; change (String.length _ + ?n)%nat with (S (S (S n)));
    cbn [Nat.eqb Nat.leb orb andb];
    [change "---"%string with ("---" +:+ EmptyString) at 2
    |change "+++"%string with ("+++" +:+ EmptyString) at 2];
    rewrite append_nil_r;
    [rewrite (string_take_app "---")|rewrite (string_take_app "+++")]; reflexivity.
Qed.

(** X9.  No Removed line of a Diff returned by [Parse] has a content that
    starts with [--], and no Added line one that starts with [++]: a body
    line that starts with [---] or [+++] is taken for a path marker and is
    not recorded, also inside a hunk. *)
Theorem Parse_drops_marker_like_lines (s : string) (d : Diff.t) :
  Parse s = Ok d ->
  all_lines (fun dl =>
               (DiffLine.Mode dl = REMOVED -> HasPrefix (DiffLine.Content dl) "--" = false)
               /\ (DiffLine.Mode dl = ADDED -> HasPrefix (DiffLine.Content dl) "++" = false))
    (Diff.Files d).
Proof.
  apply Parse_all_lines. intros l m n p _ _ Hsrc Hm.
  apply lineMode_mode_char in Hm. cbn [DiffLine.Mode DiffLine.Content].
  split; intros ->; cbn [mode_char] in Hm;
    destruct (HasPrefix (string_drop 1 l) _) eqn:E; try reflexivity;
    apply HasPrefix_inv in E; rewrite E in Hm;
    rewrite isSourceLine_marker in Hsrc; try discriminate Hsrc; rewrite Hm.
  - left. apply (HasPrefix_app "---").
  - right. apply (HasPrefix_app "+++").
Qed.

Lemma Parse_drops_marker_like_lines_witness :
  Parse sample5 = Ok sample5_parsed
  /\ all_lines (fun dl =>
                  (DiffLine.Mode dl = REMOVED
                   -> HasPrefix (DiffLine.Content dl) "--" = false)
                  /\ (DiffLine.Mode dl = ADDED
                      -> HasPrefix (DiffLine.Content dl) "++" = false))
       (Diff.Files sample5_parsed).
Proof.
  exact (conj Parse_sample5 (Parse_drops_marker_like_lines _ _ Parse_sample5)).
Defined.

(** ** The three ranges of a hunk *)

Lemma ranges_of_whole_fresh l h : parse_hunk l = Ok h -> ranges_of_whole h.
Proof.
  intros H. destruct (parse_hunk_Lines _ _ H) as (Ho & Hn & Hw).
  unfold ranges_of_whole. rewrite Ho, Hn, Hw. repeat split.
Qed.

Lemma ranges_of_whole_add_line m l p a r h :
  ranges_of_whole h -> ranges_of_whole (add_line m (body_line m l p) a r h).
Proof.
  unfold ranges_of_whole. intros (Hn & Ho & Hr).
  destruct m; cbn [add_line DiffHunk.WholeRange DiffHunk.NewRange DiffHunk.OrigRange
                   DiffHunk.set_WholeRange DiffHunk.set_NewRange DiffHunk.set_OrigRange
                   DiffRange.append_Lines DiffRange.Lines];
    rewrite !filter_app, !filter_cons, !filter_nil;
    cbn [DiffLine.Mode DiffLine.set_Number body_line];
    repeat (first [rewrite decide_True by congruence|rewrite decide_False by congruence]);
    rewrite ?app_nil_r, ?map_app, ?Hn, ?Ho, ?Hr; repeat split; reflexivity.
Qed.

(** X10.  In every hunk of a Diff returned by [Parse], the new range holds
    the lines of the whole range that are not Removed, as they stand there
    and in their order; the original range holds the lines that are not
    Added, in their order and with the same mode, content and position, and
    its Removed lines are those of the whole range. *)
Theorem Parse_ranges_of_whole (s : string) (d : Diff.t)
    (i j : nat) (f : DiffFile.t) (h : DiffHunk.t) :
  Parse s = Ok d ->
  Diff.Files d !! i = Some f ->
  DiffFile.Hunks f !! j = Some h ->
  ranges_of_whole h.
Proof.
  intros HP Hf Hh.
  assert (Hall : all_hunks ranges_of_whole (Diff.Files d)).
  { eapply Parse_all_hunks; [| |exact HP].
    - exact ranges_of_whole_fresh.
    - intros. now apply ranges_of_whole_add_line. }
  unfold all_hunks in Hall. rewrite Forall_lookup in Hall.
  specialize (Hall i f Hf). rewrite Forall_lookup in Hall.
  exact (Hall j h Hh).
Qed.

Lemma Parse_ranges_of_whole_witness :
  Parse sample = Ok sample_parsed
  /\ Diff.Files sample_parsed !! 0%nat = Some sample_file
  /\ DiffFile.Hunks sample_file !! 0%nat = Some sample_hunk
  /\ ranges_of_whole sample_hunk.
Proof.
  assert (H2 : Diff.Files sample_parsed !! 0%nat = Some sample_file) by reflexivity.
  assert (H3 : DiffFile.Hunks sample_file !! 0%nat = Some sample_hunk) by reflexivity.
  exact (conj Parse_sample (conj H2 (conj H3
           (Parse_ranges_of_whole _ _ _ _ _ _ Parse_sample H2 H3)))).
Defined.

(** ** The numbers of the lines *)

Lemma is_digit_val c : is_digit c = true -> 0 <= Z.of_nat (nat_of_ascii c) - 48 <= 9.
Proof.
  unfold is_digit. intros H. apply andb_true_iff in H as [H1 H2].
  apply Nat.leb_le in H1, H2. lia.
Qed.

Lemma digits_val_nonneg d acc : all_digits d = true -> 0 <= acc -> 0 <= digits_val acc d.
Proof.
  revert acc. induction d as [|c d IH]; intros acc Hd Hacc; [exact Hacc|].
  simpl in Hd. apply andb_true_iff in Hd as [Hc Hd]. cbn [digits_val].
  apply IH; [exact Hd|]. pose proof (is_digit_val _ Hc). lia.
Qed.

(** What [Atoi] returns is a decimal number that fits an [int]. *)
Lemma Atoi_Ok_inv s z :
  Atoi s = Ok z ->
  is_int z
  /\ exists neg body,
       s = (if neg : bool then String "-" body else body) +:+ EmptyString
       \/ s = String "+" body.
Proof.
  unfold Atoi, is_int.
  destruct (match s with EmptyString => _ | String _ _ => _ end) as [neg body] eqn:E.
  destruct (is_empty body); [discriminate|].
  destruct (all_digits body) eqn:Hd; [|discriminate]. cbn [negb].
  pose proof (digits_val_nonneg body 0 Hd ltac:(lia)) as Hnn.
  assert (Hs : exists neg body,
             s = (if neg : bool then String "-" body else body) +:+ EmptyString
             \/ s = String "+" body).
  { destruct s as [|c s']; [exists false, EmptyString; now left|].
    destruct (Ascii.eqb_spec c "-") as [->|_]; [exists true, s'; left; now rewrite append_nil_r|].
    destruct (Ascii.eqb_spec c "+") as [->|_]; [exists false, s'; now right|].
    exists false, (String c s'). left. now rewrite append_nil_r. }
  destruct neg.
  - destruct (Z.ltb_spec (2 ^ 63) (digits_val 0 body)); [discriminate|].
    intros [= <-]. split; [lia|exact Hs].
  - destruct (Z.leb_spec (2 ^ 63) (digits_val 0 body)); [discriminate|].
    intros [= <-]. split; [lia|exact Hs].
Qed.

Lemma Atoi_int s z : Atoi s = Ok z -> is_int z.
Proof. intros H. exact (proj1 (Atoi_Ok_inv _ _ H)). Qed.

Lemma wrap_int z : is_int z -> wrap z = z.
Proof.
  unfold is_int, wrap. intros H. rewrite Z.mod_small by lia. lia.
Qed.

(** The conversions behind a hunk that [parse_hunk] returns. *)
Lemma parse_hunk_Ok_inv l h :
  parse_hunk l = Ok h ->
  let m := FindStringSubmatch hunkRe l in
  exists a b c d,
    (5 <= length m)%nat
    /\ Atoi (m !!! 1%nat) = Ok a
    /\ (if (0 <? String.length (m !!! 2%nat))%nat then Atoi (m !!! 2%nat) else Ok a) = Ok b
    /\ Atoi (m !!! 3%nat) = Ok c
    /\ (if (0 <? String.length (m !!! 4%nat))%nat then Atoi (m !!! 4%nat) else Ok c) = Ok d
    /\ window (DiffHunk.OrigRange h) = (a, b)
    /\ window (DiffHunk.NewRange h) = (c, d).
Proof.
  intros H. unfold parse_hunk in H. cbv zeta.
  set (m := FindStringSubmatch hunkRe l) in *.
  destruct (Nat.ltb_spec (length m) 5) as [|Hlen]; [discriminate|].
  destruct (Atoi (m !!! 1%nat)) as [a| |]; simpl in H; try discriminate.
  destruct (if (0 <? _)%nat then _ else _) as [b| |] eqn:Eb; simpl in H; try discriminate.
  destruct (Atoi (m !!! 3%nat)) as [c| |]; simpl in H; try discriminate.
  destruct (if (0 <? String.length (m !!! 4%nat))%nat then _ else _) as [d| |] eqn:Ed;
    simpl in H; try discriminate.
  injection H as <-. exists a, b, c, d.
  repeat split; auto; destruct (0 <? String.length (m !!! 5%nat))%nat; reflexivity.
Qed.

Lemma parse_hunk_int l h :
  parse_hunk l = Ok h ->
  is_int (DiffRange.Start (DiffHunk.OrigRange h))
  /\ is_int (DiffRange.Start (DiffHunk.NewRange h)).
Proof.
  intros H. destruct (parse_hunk_Ok_inv _ _ H) as (a & b & c & d & _ & Ha & _ & Hc & _ & Ho & Hn).
  unfold window in Ho, Hn. injection Ho as -> _. injection Hn as -> _.
  split; eapply Atoi_int; eauto.
Qed.

Lemma numbered_from_snoc start ls dl :
  numbered_from start ls ->
  DiffLine.Number dl = wrap (start + Z.of_nat (length ls)) ->
  numbered_from start (ls ++ [dl]).
Proof.
  intros Hls Hdl k x Hk. apply lookup_snoc_Some in Hk as [[_ Hk]|[-> <-]]; auto.
Qed.

Lemma incr_wrap x n : incr (wrap (x + Z.of_nat n)) = wrap (x + Z.of_nat (n + 1)).
Proof. unfold incr. rewrite wrap_incr. f_equal. lia. Qed.

(** The lines of the two ranges are numbered from the start of the range
    on, and the counters of the active hunk stand behind them. *)
Lemma numbered_add_line m line h :
  let a := wrap (DiffRange.Start (DiffHunk.NewRange h)
                 + Z.of_nat (length (DiffRange.Lines (DiffHunk.NewRange h)))) in
  let r := wrap (DiffRange.Start (DiffHunk.OrigRange h)
                 + Z.of_nat (length (DiffRange.Lines (DiffHunk.OrigRange h)))) in
  let h' := add_line m line a r h in
  range_numbered (DiffHunk.NewRange h) /\ range_numbered (DiffHunk.OrigRange h) ->
  (range_numbered (DiffHunk.NewRange h') /\ range_numbered (DiffHunk.OrigRange h'))
  /\ (match m with REMOVED => a | _ => incr a end)
     = wrap (DiffRange.Start (DiffHunk.NewRange h')
             + Z.of_nat (length (DiffRange.Lines (DiffHunk.NewRange h'))))
  /\ (match m with ADDED => r | _ => incr r end)
     = wrap (DiffRange.Start (DiffHunk.OrigRange h')
             + Z.of_nat (length (DiffRange.Lines (DiffHunk.OrigRange h')))).
Proof.
  intros a r h' [Hn Ho]. unfold range_numbered in *. subst h'.
  destruct m; cbn [add_line DiffHunk.WholeRange DiffHunk.NewRange DiffHunk.OrigRange
                   DiffHunk.set_WholeRange DiffHunk.set_NewRange DiffHunk.set_OrigRange
                   DiffRange.append_Lines DiffRange.Lines DiffRange.Start];
    rewrite ?length_app; cbn [length]; unfold a, r; rewrite ?incr_wrap;
    repeat split; auto; apply numbered_from_snoc; auto.
Qed.

Lemma hunk_at_alter_files (g : DiffFile.t -> DiffFile.t) i fs i' j :
  (forall f, DiffFile.Hunks (g f) = DiffFile.Hunks f) ->
  hunk_at (alter g i fs) i' j = hunk_at fs i' j.
Proof.
  intros Hg. unfold hunk_at. rewrite list_lookup_alter.
  destruct (decide (i = i')) as [->|_]; [|reflexivity].
  destruct (fs !! i') as [f|]; [|reflexivity]. simpl. now rewrite Hg.
Qed.

Lemma hunk_at_new_hunk fs i f h :
  fs !! i = Some f ->
  hunk_at (<[i := DiffFile.set_Hunks (DiffFile.Hunks f ++ [h]) f]> fs) i
    (length (DiffFile.Hunks f)) = Some h.
Proof.
  intros Hf. unfold hunk_at.
  rewrite list_lookup_insert_eq by (eapply lookup_lt_Some; exact Hf). simpl.
  apply list_lookup_middle. reflexivity.
Qed.

Lemma all_hunks_lookup (Q : DiffHunk.t -> Prop) fs i j h :
  all_hunks Q fs -> hunk_at fs i j = Some h -> Q h.
Proof.
  unfold all_hunks, hunk_at. rewrite Forall_lookup. intros Hall.
  destruct (fs !! i) as [f|] eqn:Ef; [|discriminate]. intros Hh.
  specialize (Hall i f Ef). rewrite Forall_lookup in Hall. eauto.
Qed.

Lemma Parse_step_numbers lines idx l st st' :
  all_hunks (fun h => range_numbered (DiffHunk.NewRange h)
                      /\ range_numbered (DiffHunk.OrigRange h)) (files_of st)
  /\ counters_ok st ->
  Parse_step lines idx l st st' ->
  all_hunks (fun h => range_numbered (DiffHunk.NewRange h)
                      /\ range_numbered (DiffHunk.OrigRange h)) (files_of st')
  /\ counters_ok st'.
Proof.
  intros [Hall Hcnt] Hstep.
  destruct Hstep as [Hc|m i Hc Hi|i f h Hc Hi Hf Hh|m i j Hc Hin Hsrc Hm Hk|Hc Hskip].
  - split; [|discriminate].
    unfold all_hunks, files_of in *; simpl.
    apply Forall_app; split; [exact Hall|]. repeat constructor.
  - split.
    + unfold all_hunks, files_of in *; simpl.
      apply Forall_alter; [exact Hall|]. intros f _ Hf. exact Hf.
    + intros Hin. destruct (Hcnt Hin) as (i' & j' & h & Hk & Hat & Ha & Hr).
      exists i', j', h. unfold files_of in *. simpl.
      rewrite hunk_at_alter_files by reflexivity. auto.
  - destruct (parse_hunk_Lines _ _ Hh) as (Ho & Hn & _).
    destruct (parse_hunk_int _ _ Hh) as [Io In].
    split.
    + unfold all_hunks, files_of in *; simpl.
      apply Forall_insert; [exact Hall|]. simpl. apply Forall_app; split.
      * exact (proj1 (Forall_lookup _ _) Hall i f Hf).
      * repeat constructor; unfold range_numbered, numbered_from;
          rewrite ?Hn, ?Ho; intros k dl Hk; discriminate Hk.
    + intros _. exists i, (length (DiffFile.Hunks f)), h. unfold files_of in *. simpl.
      split; [reflexivity|]. split; [now apply hunk_at_new_hunk|].
      rewrite Hn, Ho. simpl. rewrite !Z.add_0_r, !wrap_int by assumption. auto.
  - destruct (Hcnt Hin) as (i' & j' & h & Hk' & Hat & Ha & Hr).
    assert (i' = i /\ j' = j) as [-> ->] by (split; congruence).
    pose proof (all_hunks_lookup _ _ _ _ _ Hall Hat) as Hnum.
    destruct (numbered_add_line m (body_line m l (incr (diffPosCount st))) h Hnum)
      as (Hnum' & Ha' & Hr').
    rewrite <- Ha, <- Hr in Hnum', Ha', Hr'.
    split.
    + unfold all_hunks, files_of, write_hunk, hunk_at in *; simpl.
      destruct (Diff.Files (diff st) !! i) as [f0|] eqn:Ef; [|discriminate].
      apply Forall_alter; [exact Hall|]. intros f Hf' Hf. simpl.
      assert (f = f0) as -> by congruence.
      apply Forall_alter; [exact Hf|]. intros h0 Hh0 _.
      assert (h0 = h) as -> by congruence. exact Hnum'.
    + intros _. eexists i, j, _. unfold files_of in *. simpl.
      split; [reflexivity|]. split; [apply hunk_at_write_hunk; exact Hat|].
      split; [exact Ha'|exact Hr'].
  - split; [exact Hall|]. intros Hin. destruct (Hcnt Hin) as (i & j & h & H). exists i, j, h.
    exact H.
Qed.

(** X11.  In every hunk of a Diff returned by [Parse], the lines of the new
    range are numbered one by one from the start of the new range on, and
    the lines of the original range from the start of the original range
    on: line [k] of a range has the number [Start + k], in the arithmetic
    of [int]. *)
Theorem Parse_line_numbers (s : string) (d : Diff.t)
    (i j : nat) (f : DiffFile.t) (h : DiffHunk.t) :
  Parse s = Ok d ->
  Diff.Files d !! i = Some f ->
  DiffFile.Hunks f !! j = Some h ->
  range_numbered (DiffHunk.NewRange h) /\ range_numbered (DiffHunk.OrigRange h).
Proof.
  intros HP Hf Hh. destruct (Parse_Ok_loop _ _ HP) as (st & Hloop & ->).
  assert (Hinv : all_hunks (fun h => range_numbered (DiffHunk.NewRange h)
                                     /\ range_numbered (DiffHunk.OrigRange h)) (files_of st)
                 /\ counters_ok st).
  { refine (Parse_loop_invariant (Split s newline)
              (fun st => all_hunks (fun h => range_numbered (DiffHunk.NewRange h)
                                             /\ range_numbered (DiffHunk.OrigRange h))
                           (files_of st)
                         /\ counters_ok st)
              _ _ 0%nat (init s) st _ Hloop).
    - intros idx l st0 st1 H0 Hstep. exact (Parse_step_numbers _ _ _ _ _ H0 Hstep).
    - split; [constructor|discriminate]. }
  apply (all_hunks_lookup _ (files_of st) i j h (proj1 Hinv)).
  unfold hunk_at, files_of. rewrite Hf. exact Hh.
Qed.

Lemma Parse_line_numbers_witness :
  Parse sample = Ok sample_parsed
  /\ Diff.Files sample_parsed !! 0%nat = Some sample_file
  /\ DiffFile.Hunks sample_file !! 0%nat = Some sample_hunk
  /\ range_numbered (DiffHunk.NewRange sample_hunk)
  /\ range_numbered (DiffHunk.OrigRange sample_hunk).
Proof.
  assert (H2 : Diff.Files sample_parsed !! 0%nat = Some sample_file) by reflexivity.
  assert (H3 : DiffFile.Hunks sample_file !! 0%nat = Some sample_hunk) by reflexivity.
  exact (conj Parse_sample (conj H2 (conj H3
           (Parse_line_numbers _ _ _ _ _ _ Parse_sample H2 H3)))).
Defined.

(** ** [Changed] on what [Parse] returns *)

Lemma added_numbers_hunk_nil h :
  Forall (fun dl => DiffLine.Mode dl <> ADDED) (hunk_lines h) -> added_numbers_hunk h = [].
Proof.
  unfold hunk_lines, added_numbers_hunk. intros H.
  apply Forall_app in H as [_ H]. apply Forall_app in H as [H _].
  induction H as [|dl ls Hdl _ IH]; [reflexivity|].
  rewrite filter_cons, decide_False by exact Hdl. exact IH.
Qed.

Lemma changed_under_nil k fs :
  all_lines (fun dl => DiffLine.Mode dl <> ADDED) fs -> changed_under k fs = [].
Proof.
  unfold all_lines, all_hunks, changed_under. intros H.
  induction H as [|f fs Hf _ IH]; [reflexivity|].
  rewrite filter_cons. destruct (decide (writes_to k f)); [|exact IH].
  cbn [map concat]. rewrite IH, app_nil_r. unfold added_numbers.
  induction Hf as [|h hs Hh _ IHh]; [reflexivity|].
  cbn [map concat]. now rewrite IHh, (added_numbers_hunk_nil _ Hh).
Qed.

(** X12.  [Changed] of a Diff that [Parse] returns is the empty map when no
    line of the input that is recorded in a hunk starts with [+]: a diff
    that only removes lines, or only shows context, changes no line. *)
Theorem Changed_without_added_lines (s : string) (d : Diff.t) :
  Parse s = Ok d ->
  Forall (fun l => is_content l = true -> starts_with "+" l = false) (Split s newline) ->
  Changed d = ∅.
Proof.
  intros HP Hgood.
  assert (Hall : all_lines (fun dl => DiffLine.Mode dl <> ADDED) (Diff.Files d)).
  { apply (Parse_all_lines _ s d); [|exact HP].
    intros l m n p Hin Hc Hsrc Hm. cbn [DiffLine.Mode]. intros ->.
    destruct (lineMode_starts_with _ _ Hm) as [Ha _].
    rewrite Forall_forall in Hgood. rewrite (Hgood l Hin) in Ha; [now discriminate Ha|].
    unfold is_content. now rewrite bool_decide_eq_true_2, Hsrc. }
  apply map_eq. intros k. rewrite lookup_empty. apply Changed_get_nil.
  unfold Changed. rewrite Changed_files_get, (changed_under_nil _ _ Hall).
  unfold map_get. now rewrite lookup_empty.
Qed.

Lemma Changed_without_added_lines_witness :
  Parse sample7 = Ok sample7_parsed
  /\ Forall (fun l => is_content l = true -> starts_with "+" l = false)
       (Split sample7 newline)
  /\ Changed sample7_parsed = ∅.
Proof.
  assert (H2 : Forall (fun l => is_content l = true -> starts_with "+" l = false)
                 (Split sample7 newline)).
  { repeat constructor; intros H; first [reflexivity|vm_compute in H; discriminate H]. }
  exact (conj Parse_sample7 (conj H2 (Changed_without_added_lines _ _ Parse_sample7 H2))).
Defined.

(** ** The section of a file *)

(** An invariant that follows the lines read so far. *)
Lemma Parse_loop_prefix_invariant lines (good : string -> Prop)
    (I : list string -> state -> Prop) :
  (forall idx acc l st st',
      good l -> I acc st -> Parse_step lines idx l st st' -> I (acc ++ [l]) st') ->
  forall rest acc idx st st',
    Forall good rest -> I acc st -> Parse_loop lines idx rest st = Ok st' ->
    I (acc ++ rest) st'.
Proof.
  intros Hstep rest. induction rest as [|l rest IH]; intros acc idx st st' Hgood HI Hloop.
  - injection Hloop as <-. now rewrite app_nil_r.
  - apply Parse_loop_cons_Ok in Hloop as (st1 & H1 & Hrest).
    inversion Hgood as [|? ? Hl Hgood']; subst.
    replace (acc ++ l :: rest) with ((acc ++ [l]) ++ rest) by (now rewrite <- app_assoc).
    eapply IH; [exact Hgood'| |exact Hrest].
    eapply Hstep; eauto.
Qed.

Lemma Parse_step_file_start lines idx l st st' :
  classify l = FileStart -> Parse_step lines idx l st st' -> st' = open_file lines idx l st.
Proof.
  intros Hl [Hc|m i Hc Hi|i f h Hc Hi Hf Hh|m i j Hc Hin Hsrc Hm Hk|Hc Hskip];
    try congruence. reflexivity.
Qed.

Lemma pointers_ok_open_file lines idx l st :
  classify l = FileStart -> pointers_ok st -> pointers_ok (open_file lines idx l st).
Proof.
  intros Hl Hok. eapply Parse_step_pointers_ok; [exact Hok|].
  apply (step_file_start lines idx l st Hl).
Qed.

(** A file is out of reach once the next file has been opened. *)
Lemma Parse_loop_next_file n lines post idx st st' :
  pointers_ok st -> length (files_of st) = S n ->
  (post = [] \/ exists dl' post', post = dl' :: post' /\ classify dl' = FileStart) ->
  Parse_loop lines idx post st = Ok st' ->
  files_of st' !! n = files_of st !! n.
Proof.
  intros Hok Hlen [->|(dl' & post' & -> & Hdl')] Hloop.
  - injection Hloop as <-. reflexivity.
  - apply Parse_loop_cons_Ok in Hloop as (st1 & Hstep & Hrest).
    pose proof (Parse_step_pointers_ok _ _ _ _ _ Hok Hstep) as Hok1.
    apply (Parse_step_file_start _ _ _ _ _ Hdl') in Hstep. subst st1.
    assert (Hlen1 : (S n < length (files_of (open_file lines idx dl' st)))%nat).
    { unfold open_file, files_of in *. simpl. rewrite length_app. simpl. lia. }
    rewrite (Parse_loop_frame n _ _ _ _ _ Hok1 Hlen1 Hrest).
    unfold open_file, files_of in *. simpl. apply lookup_app_l. lia.
Qed.

(** [Parse], cut at the section of one file. *)
Lemma Parse_file_section s pre dl sec post d :
  file_section s pre dl sec post ->
  Parse s = Ok d ->
  exists st0 st2,
    pointers_ok st0
    /\ length (files_of st0) = length (file_start_lines pre)
    /\ Parse_loop (Split s newline) (S (length pre)) sec
         (open_file (Split s newline) (length pre) dl st0) = Ok st2
    /\ Diff.Files d !! length (file_start_lines pre)
       = files_of st2 !! length (file_start_lines pre).
Proof.
  intros (Hs & Hdl & Hsec & Hpost) HP.
  destruct (Parse_Ok_loop _ _ HP) as (st_end & Hloop & ->).
  rewrite Hs in Hloop at 2.
  apply Parse_loop_app_Ok in Hloop as (st0 & Hpre & Hloop).
  apply Parse_loop_cons_Ok in Hloop as (st1 & Hdl_step & Hloop).
  apply Parse_loop_app_Ok in Hloop as (st2 & Hsec_loop & Hloop).
  apply (Parse_step_file_start _ _ _ _ _ Hdl) in Hdl_step. subst st1.
  cbn [Nat.add] in Hsec_loop, Hloop.
  pose proof (Parse_loop_files_length _ _ _ _ _ Hpre) as Hn. simpl in Hn.
  assert (Hok0 : pointers_ok st0).
  { eapply Parse_loop_pointers_ok; [apply pointers_ok_init|exact Hpre]. }
  exists st0, st2. split; [exact Hok0|]. split; [exact Hn|]. split; [exact Hsec_loop|].
  change (Diff.Files (diff st_end)) with (files_of st_end).
  refine (Parse_loop_next_file (length (file_start_lines pre)) _ post _ st2 st_end
            (Parse_loop_pointers_ok _ _ _ _ _ (pointers_ok_open_file _ _ _ _ Hdl Hok0)
               Hsec_loop)
            _ Hpost Hloop).
  pose proof (Parse_loop_files_length _ _ _ _ _ Hsec_loop) as Hlen2.
  assert (Hnone : file_start_lines sec = []).
  { clear -Hsec. induction Hsec as [|l sec Hl _ IH]; [reflexivity|].
    change (l :: sec) with ([l] ++ sec).
    rewrite file_start_lines_app, file_start_lines_one, decide_False by exact Hl. exact IH. }
  rewrite Hnone in Hlen2. unfold open_file, files_of in *. simpl in Hlen2.
  rewrite length_app in Hlen2. simpl in Hlen2. lia.
Qed.

Lemma section_mode_snoc acc l :
  section_mode (acc ++ [l])
  = match mode_of_line l with
    | Some m => m
    | None => section_mode acc
    end.
Proof.
  unfold section_mode. rewrite omap_app. cbn [omap list_omap].
  destruct (mode_of_line l); [now rewrite last_snoc|now rewrite app_nil_r].
Qed.

(** The file that a section belongs to, as the lines of the section go
    by. *)
Lemma Parse_step_section_mode n lines idx acc l st st' :
  classify l <> FileStart ->
  (pointers_ok st /\ file st = Some n
   /\ exists f, files_of st !! n = Some f /\ DiffFile.Mode f = section_mode acc) ->
  Parse_step lines idx l st st' ->
  pointers_ok st' /\ file st' = Some n
  /\ exists f, files_of st' !! n = Some f /\ DiffFile.Mode f = section_mode (acc ++ [l]).
Proof.
  intros Hl (Hok & Hfile & f & Hf & Hmode) Hstep.
  split; [exact (Parse_step_pointers_ok _ _ _ _ _ Hok Hstep)|].
  rewrite section_mode_snoc. unfold mode_of_line.
  destruct Hstep as [Hc|m i Hc Hi|i f0 h Hc Hi Hf0 Hh|m i j Hc Hin Hsrc Hm Hk|Hc Hskip];
    rewrite Hc; unfold files_of, write_hunk in *; simpl.
  - congruence.
  - assert (i = n) as -> by congruence. split; [exact Hfile|].
    exists (DiffFile.set_Mode m f). rewrite list_lookup_alter_eq, Hf. auto.
  - assert (i = n) as -> by congruence. split; [reflexivity|].
    assert (f0 = f) as -> by congruence.
    eexists. rewrite list_lookup_insert_eq by (eapply lookup_lt_Some; exact Hf).
    split; [reflexivity|exact Hmode].
  - split; [exact Hfile|]. rewrite list_lookup_alter.
    destruct (decide (i = n)) as [->|_]; rewrite Hf; simpl; eauto.
  - split; [exact Hfile|]. eauto.
Qed.

(** X13.  The mode of a file is the one that the last mode-refinement line
    of its section sets ([deleted file ]: Deleted, [new file ]: New,
    [rename ]: Renamed), wherever in the section the line stands, a hunk
    body included; a file whose section has no such line is Modified. *)
Theorem Parse_file_mode (s : string) (pre : list string) (dl : string)
    (sec post : list string) (d : Diff.t) :
  file_section s pre dl sec post ->
  Parse s = Ok d ->
  exists f,
    Diff.Files d !! length (file_start_lines pre) = Some f
    /\ DiffFile.Mode f = section_mode sec.
Proof.
  intros Hsec HP.
  destruct (Parse_file_section _ _ _ _ _ _ Hsec HP) as (st0 & st2 & Hok0 & Hn & Hloop & ->).
  destruct Hsec as (_ & Hdl & Hgood & _).
  set (n := length (file_start_lines pre)) in *.
  refine (proj2 (proj2
    (Parse_loop_prefix_invariant (Split s newline) (fun l => classify l <> FileStart)
       (fun acc st => pointers_ok st /\ file st = Some n
                      /\ exists f, files_of st !! n = Some f
                                   /\ DiffFile.Mode f = section_mode acc)
       _ sec [] _ _ st2 Hgood _ Hloop))).
  - intros idx acc l st st' Hl HI Hstep.
    exact (Parse_step_section_mode n _ _ _ _ _ _ Hl HI Hstep).
  - split; [now apply pointers_ok_open_file|]. unfold open_file, files_of in *. simpl.
    split; [now rewrite Hn|]. exists (new_file (Split s newline) (length pre) dl).
    split; [|reflexivity]. rewrite lookup_app_r by lia. now rewrite Hn, Nat.sub_diag.
Qed.

Lemma Parse_file_mode_witness :
  file_section sample2 sample2_first "diff --git a/gone.txt b/gone.txt"
    (sample2_header ++ ["@@ -1,2 +0,0 @@"; "-first"; "-second"]%string) []
  /\ Parse sample2 = Ok sample2_parsed
  /\ exists f,
       Diff.Files sample2_parsed !! length (file_start_lines sample2_first) = Some f
       /\ DiffFile.Mode f
          = section_mode (sample2_header ++ ["@@ -1,2 +0,0 @@"; "-first"; "-second"]%string).
Proof.
  assert (H1 : file_section sample2 sample2_first "diff --git a/gone.txt b/gone.txt"
                 (sample2_header ++ ["@@ -1,2 +0,0 @@"; "-first"; "-second"]%string) []).
  { split; [vm_compute; reflexivity|]. split; [reflexivity|]. split; [|left; reflexivity].
    repeat constructor; intros Hc; vm_compute in Hc; discriminate Hc. }
  exact (conj H1 (conj Parse_sample2 (Parse_file_mode _ _ _ _ _ _ H1 Parse_sample2))).
Defined.

(** ** The hunks of a file *)

Lemma hunk_start_lines_snoc acc l :
  hunk_start_lines (acc ++ [l])
  = hunk_start_lines acc ++ (if decide (classify l = HunkStart) then [l] else []).
Proof.
  unfold hunk_start_lines. rewrite filter_app, filter_cons, filter_nil.
  destruct (decide _); reflexivity.
Qed.

Lemma opened_by_add_line m line a r h l :
  opened_by h l -> opened_by (add_line m line a r h) l.
Proof.
  intros (h0 & Hh0 & He). exists h0. split; [exact Hh0|].
  eapply hunk_extends_trans; [exact He|apply hunk_extends_add_line].
Qed.

Lemma Parse_step_section_hunks n lines idx acc l st st' :
  classify l <> FileStart ->
  (file st = Some n
   /\ exists f, files_of st !! n = Some f
                /\ Forall2 opened_by (DiffFile.Hunks f) (hunk_start_lines acc)) ->
  Parse_step lines idx l st st' ->
  file st' = Some n
  /\ exists f, files_of st' !! n = Some f
               /\ Forall2 opened_by (DiffFile.Hunks f) (hunk_start_lines (acc ++ [l])).
Proof.
  intros Hl (Hfile & f & Hf & Hhunks) Hstep. rewrite hunk_start_lines_snoc.
  destruct Hstep as [Hc|m i Hc Hi|i f0 h Hc Hi Hf0 Hh|m i j Hc Hin Hsrc Hm Hk|Hc Hskip];
    rewrite Hc; unfold files_of, write_hunk in *; simpl;
    rewrite ?decide_True by reflexivity; rewrite ?decide_False by discriminate;
    rewrite ?app_nil_r.
  - congruence.
  - assert (i = n) as -> by congruence. split; [exact Hfile|].
    exists (DiffFile.set_Mode m f). rewrite list_lookup_alter_eq, Hf. auto.
  - assert (i = n) as -> by congruence. split; [reflexivity|].
    assert (f0 = f) as -> by congruence.
    eexists. rewrite list_lookup_insert_eq by (eapply lookup_lt_Some; exact Hf).
    split; [reflexivity|]. simpl. apply Forall2_app; [exact Hhunks|].
    repeat constructor. exists h. split; [exact Hh|apply hunk_extends_refl].
  - split; [exact Hfile|]. rewrite list_lookup_alter.
    destruct (decide (i = n)) as [->|_]; rewrite Hf; simpl; [|eauto].
    eexists. split; [reflexivity|]. simpl. apply Forall2_alter_l; [exact Hhunks|].
    intros x y _ _ Hxy. now apply opened_by_add_line.
  - split; [exact Hfile|]. eauto.
Qed.

(** X14.  A file has one hunk for every hunk-start line of its section, in
    the order of these lines, and each hunk has the header and the start
    and length of both ranges that its hunk-start line gives: the body
    lines only add lines to the ranges. *)
Theorem Parse_hunks_of_section (s : string) (pre : list string) (dl : string)
    (sec post : list string) (d : Diff.t) :
  file_section s pre dl sec post ->
  Parse s = Ok d ->
  exists f,
    Diff.Files d !! length (file_start_lines pre) = Some f
    /\ Forall2 opened_by (DiffFile.Hunks f) (hunk_start_lines sec).
Proof.
  intros Hsec HP.
  destruct (Parse_file_section _ _ _ _ _ _ Hsec HP) as (st0 & st2 & Hok0 & Hn & Hloop & ->).
  destruct Hsec as (_ & Hdl & Hgood & _).
  set (n := length (file_start_lines pre)) in *.
  refine (proj2
    (Parse_loop_prefix_invariant (Split s newline) (fun l => classify l <> FileStart)
       (fun acc st => file st = Some n
                      /\ exists f, files_of st !! n = Some f
                                   /\ Forall2 opened_by (DiffFile.Hunks f)
                                        (hunk_start_lines acc))
       _ sec [] _ _ st2 Hgood _ Hloop)).
  - intros idx acc l st st' Hl HI Hstep.
    exact (Parse_step_section_hunks n _ _ _ _ _ _ Hl HI Hstep).
  - unfold open_file, files_of in *. simpl.
    split; [now rewrite Hn|]. exists (new_file (Split s newline) (length pre) dl).
    split; [|constructor]. rewrite lookup_app_r by lia. now rewrite Hn, Nat.sub_diag.
Qed.

Lemma Parse_hunks_of_section_witness :
  file_section sample5 [] "diff --git a/q.sql b/q.sql"
    ["index 0a1b2c3..4d5e6f7 100644"; "--- a/q.sql"; "+++ b/q.sql"; "@@ -1,3 +1,2 @@";
     " SELECT 1;"; "--- drop the table"; "-DROP TABLE t;"; " SELECT 2;";
     "@@ -10 +9,2 @@ tail"; " x"; "+y"]%string []
  /\ Parse sample5 = Ok sample5_parsed
  /\ exists f,
       Diff.Files sample5_parsed !! length (file_start_lines []) = Some f
       /\ Forall2 opened_by (DiffFile.Hunks f)
            (hunk_start_lines
               ["index 0a1b2c3..4d5e6f7 100644"; "--- a/q.sql"; "+++ b/q.sql";
                "@@ -1,3 +1,2 @@"; " SELECT 1;"; "--- drop the table"; "-DROP TABLE t;";
                " SELECT 2;"; "@@ -10 +9,2 @@ tail"; " x"; "+y"]%string).
Proof.
  assert (H1 : file_section sample5 [] "diff --git a/q.sql b/q.sql"
                 ["index 0a1b2c3..4d5e6f7 100644"; "--- a/q.sql"; "+++ b/q.sql";
                  "@@ -1,3 +1,2 @@"; " SELECT 1;"; "--- drop the table"; "-DROP TABLE t;";
                  " SELECT 2;"; "@@ -10 +9,2 @@ tail"; " x"; "+y"]%string []).
  { split; [vm_compute; reflexivity|]. split; [reflexivity|]. split; [|left; reflexivity].
    repeat constructor; intros Hc; vm_compute in Hc; discriminate Hc. }
  exact (conj H1 (conj Parse_sample5 (Parse_hunks_of_section _ _ _ _ _ _ H1 Parse_sample5))).
Defined.

(** ** The body of a hunk *)

Lemma incr_wrap_nat k : incr (wrap (Z.of_nat k)) = wrap (Z.of_nat (S k)).
Proof. unfold incr. rewrite wrap_incr. f_equal. lia. Qed.

Lemma lines_since_first_hunk_snoc acc l :
  lines_since_first_hunk (acc ++ [l])
  = match lines_since_first_hunk acc with
    | Some k => Some (S k)
    | None => if is_hunk_start l then Some 0%nat else None
    end.
Proof.
  induction acc as [|a acc IH]; cbn [app lines_since_first_hunk length].
  - destruct (is_hunk_start l); reflexivity.
  - destruct (is_hunk_start a); [|exact IH].
    rewrite length_app, Nat.add_1_r. reflexivity.
Qed.

Lemma in_section_open_file lines idx l st :
  classify l = FileStart -> pointers_ok st ->
  in_section (length (files_of st)) [] (open_file lines idx l st).
Proof.
  intros Hl Hok. split; [now apply pointers_ok_open_file|].
  unfold open_file, files_of. simpl. split; [reflexivity|]. split; [|reflexivity].
  exists (new_file lines idx l). split; [|reflexivity].
  rewrite lookup_app_r by lia. now rewrite Nat.sub_diag.
Qed.

Lemma Parse_step_in_section n lines idx acc l st st' :
  classify l <> FileStart ->
  in_section n acc st -> Parse_step lines idx l st st' -> in_section n (acc ++ [l]) st'.
Proof.
  intros Hl (Hok & Hfile & (f & Hf & Hlen) & Hpos) Hstep.
  split; [exact (Parse_step_pointers_ok _ _ _ _ _ Hok Hstep)|].
  rewrite hunk_start_lines_snoc, length_app, lines_since_first_hunk_snoc.
  unfold is_hunk_start.
  destruct Hstep as [Hc|m i Hc Hi|i f0 h Hc Hi Hf0 Hh|m i j Hc Hin Hsrc Hm Hk|Hc Hskip];
    rewrite Hc; unfold files_of, write_hunk, tick in *; simpl;
    rewrite ?decide_True by reflexivity; rewrite ?decide_False by discriminate;
    cbn [length]; rewrite ?Nat.add_0_r.
  - congruence.
  - assert (i = n) as -> by congruence. split; [exact Hfile|]. split.
    + exists (DiffFile.set_Mode m f). rewrite list_lookup_alter_eq, Hf. auto.
    + destruct (lines_since_first_hunk acc); [|exact Hpos].
      destruct Hpos as [H1 ->]. rewrite incr_wrap_nat. auto.
  - assert (i = n) as -> by congruence. split; [reflexivity|].
    assert (f0 = f) as -> by congruence. split.
    + eexists. rewrite list_lookup_insert_eq by (eapply lookup_lt_Some; exact Hf).
      split; [reflexivity|]. simpl. rewrite length_app. simpl. lia.
    + destruct (lines_since_first_hunk acc).
      * destruct Hpos as [-> ->]. rewrite incr_wrap_nat. auto.
      * rewrite Hpos. auto.
  - split; [exact Hfile|]. split.
    + rewrite list_lookup_alter.
      destruct (decide (i = n)) as [->|_]; rewrite Hf; simpl; [|eauto].
      eexists. split; [reflexivity|]. simpl. now rewrite length_alter.
    + destruct (lines_since_first_hunk acc); [|exact Hpos].
      destruct Hpos as [H1 ->]. rewrite incr_wrap_nat. auto.
  - split; [exact Hfile|]. split; [eauto|].
    destruct (lines_since_first_hunk acc); [|exact Hpos].
    destruct Hpos as [H1 ->]. rewrite incr_wrap_nat. auto.
Qed.

Lemma recorded_lines_snoc off acc l :
  recorded_lines off (acc ++ [l])
  = recorded_lines off acc
    ++ match recorded off (length acc) l with
       | Some x => [x]
       | None => []
       end.
Proof.
  unfold recorded_lines. rewrite imap_app, omap_app. cbn [imap omap list_omap].
  rewrite Nat.add_0_r. unfold id at 2. destruct (recorded off (length acc) l); reflexivity.
Qed.

Lemma is_content_true l :
  classify l = Body -> isSourceLine l = true -> is_content l = true.
Proof. intros Hc Hs. unfold is_content. now rewrite bool_decide_eq_true_2, Hs. Qed.

Lemma is_content_not_Body l : classify l <> Body -> is_content l = false.
Proof. intros Hc. unfold is_content. now rewrite bool_decide_eq_false_2. Qed.

Lemma filter_content_snoc acc l :
  filter (fun l => is_content l = true) (acc ++ [l])
  = filter (fun l => is_content l = true) acc ++ (if is_content l then [l] else []).
Proof.
  rewrite filter_app, filter_cons, filter_nil.
  destruct (is_content l); [now rewrite decide_True|now rewrite decide_False].
Qed.

Lemma whole_add_line m l p a r h :
  exists x,
    DiffRange.Lines (DiffHunk.WholeRange (add_line m (body_line m l p) a r h))
    = DiffRange.Lines (DiffHunk.WholeRange h) ++ [x]
    /\ unnumbered x = (m, string_drop 1 l, p).
Proof. destruct m; simpl; eexists; split; reflexivity. Qed.

Lemma Parse_step_in_hunk_body n j off lines idx acc l st st' :
  classify l <> FileStart /\ classify l <> HunkStart ->
  in_hunk_body n j off acc st -> Parse_step lines idx l st st' ->
  in_hunk_body n j off (acc ++ [l]) st'.
Proof.
  intros [Hl1 Hl2] (Hok & Hin & Hk & Hpos & h & Hat & Hw & Hlen) Hstep.
  split; [exact (Parse_step_pointers_ok _ _ _ _ _ Hok Hstep)|].
  rewrite recorded_lines_snoc, filter_content_snoc, !length_app. cbn [length].
  replace (off + (length acc + 1))%nat with (S (off + length acc)) by lia.
  unfold recorded.
  destruct Hstep as [Hc|m i Hc Hi|i f0 h0 Hc Hi Hf0 Hh|m i j' Hc Hin' Hsrc Hm Hk'|Hc Hskip];
    unfold files_of, tick in *; simpl; try congruence.
  - rewrite is_content_not_Body by (rewrite Hc; discriminate).
    rewrite Hpos, incr_wrap_nat, !app_nil_r, Nat.add_0_r.
    repeat split; auto. exists h. rewrite hunk_at_alter_files by reflexivity. auto.
  - assert (i = n /\ j' = j) as [-> ->] by (split; congruence).
    rewrite (is_content_true _ Hc Hsrc), Hm, Hpos, incr_wrap_nat.
    repeat split; auto.
    destruct (whole_add_line m l (wrap (Z.of_nat (S (off + length acc))))
                (ADDEDCount st) (REMOVEDCount st) h) as (x & Hx & Hux).
    eexists. split; [apply hunk_at_write_hunk; exact Hat|].
    rewrite Hx, map_app, Hw, length_app. simpl. rewrite Hux, Nat.add_succ_r, Hlen.
    split; reflexivity.
  - rewrite Hin in Hskip. simpl in Hskip.
    unfold is_content. rewrite Hskip, andb_false_r.
    rewrite Hpos, incr_wrap_nat, !app_nil_r, Nat.add_0_r.
    repeat split; auto. exists h. auto.
Qed.

(** A hunk that is not the active one stays as it is. *)
Lemma Parse_step_hunk_closed lines idx l st st' i j h :
  hunk_at (files_of st) i j = Some h -> hunk_closed i j st ->
  Parse_step lines idx l st st' ->
  hunk_at (files_of st') i j = Some h /\ hunk_closed i j st'.
Proof.
  unfold hunk_closed, hunk_at. destruct (files_of st !! i) as [f|] eqn:Ef; [|discriminate].
  intros Hj Hcl [Hc|m i0 Hc Hi|i0 f0 h0 Hc Hi Hf Hh|m i0 j0 Hc Hin Hsrc Hm Hk|Hc Hskip];
    unfold files_of, write_hunk in *; simpl.
  - split; [|now left].
    rewrite lookup_app_l by (eapply lookup_lt_Some; exact Ef). rewrite Ef. exact Hj.
  - split; [|exact Hcl]. rewrite list_lookup_alter.
    destruct (decide (i0 = i)) as [->|_]; rewrite Ef; exact Hj.
  - pose proof (lookup_lt_Some _ _ _ Hj) as Hlt. split.
    + rewrite list_lookup_insert.
      destruct (decide (i0 = i ∧ (i0 < length (Diff.Files (diff st)))%nat)) as [[-> _]|_].
      * assert (f0 = f) as -> by congruence. simpl.
        rewrite lookup_app_l by exact Hlt. exact Hj.
      * rewrite Ef. exact Hj.
    + right. intros [= -> Hlen]. assert (f0 = f) as -> by congruence. lia.
  - assert (Hne : (i0, j0) <> (i, j)) by (destruct Hcl; congruence).
    split; [|right; congruence]. rewrite list_lookup_alter.
    destruct (decide (i0 = i)) as [->|_]; rewrite Ef; simpl; [|exact Hj].
    rewrite list_lookup_alter_ne by congruence. exact Hj.
  - split; [|exact Hcl]. rewrite Ef. exact Hj.
Qed.

Lemma Parse_loop_hunk_closed lines rest idx st st' i j h :
  hunk_at (files_of st) i j = Some h -> hunk_closed i j st ->
  Parse_loop lines idx rest st = Ok st' ->
  hunk_at (files_of st') i j = Some h.
Proof.
  revert idx st. induction rest as [|l rest IH]; intros idx st Hat Hcl Hloop.
  - injection Hloop as <-. exact Hat.
  - apply Parse_loop_cons_Ok in Hloop as (st1 & Hstep & Hrest).
    destruct (Parse_step_hunk_closed _ _ _ _ _ _ _ _ Hat Hcl Hstep) as [Hat1 Hcl1].
    exact (IH _ _ Hat1 Hcl1 Hrest).
Qed.

(** The next hunk-start or file-start line closes the active hunk. *)
Lemma Parse_step_closes_hunk lines idx l st st' n j h :
  classify l = FileStart \/ classify l = HunkStart ->
  pointers_ok st -> inHunk st = true -> hunk st = Some (n, j) ->
  hunk_at (files_of st) n j = Some h ->
  Parse_step lines idx l st st' ->
  hunk_at (files_of st') n j = Some h /\ hunk_closed n j st'.
Proof.
  intros Hl (_ & Hptr & _) Hin Hk Hat Hstep.
  destruct (Hptr Hin) as (i' & f' & j' & Hfile & Hf' & Hk' & Hlen).
  assert (i' = n /\ j' = j) as [-> ->] by (split; congruence).
  unfold hunk_closed, hunk_at in *. rewrite Hf' in Hat.
  destruct Hstep as [Hc|m i0 Hc Hi|i0 f0 h0 Hc Hi Hf Hh|m i0 j0 Hc Hin' Hsrc Hm Hk0|Hc Hskip];
    try (destruct Hl; congruence); unfold files_of in *; simpl.
  - split; [|now left].
    rewrite lookup_app_l by (eapply lookup_lt_Some; exact Hf'). rewrite Hf'. exact Hat.
  - assert (i0 = n) as -> by congruence. assert (f0 = f') as -> by congruence. split.
    + rewrite list_lookup_insert_eq by (eapply lookup_lt_Some; exact Hf'). simpl.
      rewrite lookup_app_l by lia. exact Hat.
    + right. intros [= E]. lia.
Qed.

(** The lines of a hunk, read off the input. *)
Lemma Parse_hunk_section s pre dl mid hl body post d :
  hunk_section s pre dl mid hl body post ->
  Parse s = Ok d ->
  exists h,
    hunk_at (Diff.Files d) (length (file_start_lines pre)) (length (hunk_start_lines mid))
    = Some h
    /\ map unnumbered (DiffRange.Lines (DiffHunk.WholeRange h))
       = recorded_lines (hunk_offset mid) body
    /\ length (DiffRange.Lines (DiffHunk.WholeRange h))
       = length (filter (fun l => is_content l = true) body).
Proof.
  intros (Hs & Hdl & Hmid & Hhl & Hbody & Hpost) HP.
  destruct (Parse_Ok_loop _ _ HP) as (st_end & Hloop & ->).
  rewrite Hs in Hloop at 2.
  apply Parse_loop_app_Ok in Hloop as (st0 & Hpre & Hloop).
  apply Parse_loop_cons_Ok in Hloop as (st1 & Hdl_step & Hloop).
  apply Parse_loop_app_Ok in Hloop as (st2 & Hmid_loop & Hloop).
  apply Parse_loop_cons_Ok in Hloop as (st3 & Hhl_step & Hloop).
  apply Parse_loop_app_Ok in Hloop as (st4 & Hbody_loop & Hpost_loop).
  apply (Parse_step_file_start _ _ _ _ _ Hdl) in Hdl_step. subst st1.
  pose proof (Parse_loop_files_length _ _ _ _ _ Hpre) as Hn. simpl in Hn.
  assert (Hok0 : pointers_ok st0).
  { eapply Parse_loop_pointers_ok; [apply pointers_ok_init|exact Hpre]. }
  set (n := length (file_start_lines pre)) in *.
  set (j := length (hunk_start_lines mid)).
  set (off := hunk_offset mid).
  (* the lines up to the hunk-start line *)
  assert (H2 : in_section n ([] ++ mid) st2).
  { refine (Parse_loop_prefix_invariant _ (fun l => classify l <> FileStart) (in_section n)
              _ mid [] _ _ st2 Hmid _ Hmid_loop).
    - intros idx acc l st st' Hl HI Hstep.
      exact (Parse_step_in_section n _ _ _ _ _ _ Hl HI Hstep).
    - rewrite <- Hn. now apply in_section_open_file. }
  cbn [app] in H2. destruct H2 as (Hok2 & Hfile2 & (f & Hf & Hlen) & Hpos).
  (* the hunk-start line *)
  assert (H3 : in_hunk_body n j off [] st3).
  { split; [exact (Parse_step_pointers_ok _ _ _ _ _ Hok2 Hhl_step)|].
    destruct Hhl_step as [Hc|m i Hc Hi|i f0 h0 Hc Hi Hf0 Hh|m i j' Hc Hin Hsrc Hm Hk|Hc Hskip];
      try congruence.
    assert (i = n) as -> by congruence. assert (f0 = f) as -> by congruence.
    destruct (parse_hunk_Lines _ _ Hh) as (_ & _ & Hw).
    unfold files_of in *. simpl. split; [reflexivity|]. split; [now rewrite Hlen|]. split.
    - rewrite Nat.add_0_r. unfold off, hunk_offset.
      destruct (lines_since_first_hunk mid) as [k|].
      + destruct Hpos as [-> ->]. apply incr_wrap_nat.
      + rewrite Hpos. reflexivity.
    - exists h0. unfold j. rewrite <- Hlen. split; [now apply hunk_at_new_hunk|].
      rewrite Hw. auto. }
  (* the body *)
  assert (H4 : in_hunk_body n j off ([] ++ body) st4).
  { refine (Parse_loop_prefix_invariant _
              (fun l => classify l <> FileStart /\ classify l <> HunkStart)
              (in_hunk_body n j off) _ body [] _ _ st4 Hbody H3 Hbody_loop).
    intros idx acc l st st' Hl HI Hstep.
    exact (Parse_step_in_hunk_body n j off _ _ _ _ _ _ Hl HI Hstep). }
  cbn [app] in H4. destruct H4 as (Hok4 & Hin4 & Hk4 & _ & h & Hat & Hw & Hcount).
  exists h. split; [|split; [exact Hw|exact Hcount]].
  change (Diff.Files (diff st_end)) with (files_of st_end).
  (* the lines behind the body *)
  destruct Hpost as [->|(l & post' & -> & Hl)].
  - injection Hpost_loop as <-. exact Hat.
  - apply Parse_loop_cons_Ok in Hpost_loop as (st5 & Hstep5 & Hrest).
    destruct (Parse_step_closes_hunk _ _ _ _ _ _ _ _ Hl Hok4 Hin4 Hk4 Hat Hstep5)
      as [Hat5 Hcl5].
    exact (Parse_loop_hunk_closed _ _ _ _ _ _ _ _ Hat5 Hcl5 Hrest).
Qed.

(** X15.  The whole range of a hunk holds, in their order, the lines
    between its hunk-start line and the next hunk-start or file-start line
    that qualify as content and have none of the five prefixes; each with
    the mode of its first character, the rest of the line as content, and
    as position the number of lines scanned since the first hunk-start line
    of the file, lines that are not recorded counted in. *)
Theorem Parse_hunk_body (s : string) (pre : list string) (dl : string)
    (mid : list string) (hl : string) (body post : list string) (d : Diff.t) :
  hunk_section s pre dl mid hl body post ->
  Parse s = Ok d ->
  exists h,
    hunk_at (Diff.Files d) (length (file_start_lines pre)) (length (hunk_start_lines mid))
    = Some h
    /\ map unnumbered (DiffRange.Lines (DiffHunk.WholeRange h))
       = recorded_lines (hunk_offset mid) body.
Proof.
  intros Hsec HP.
  destruct (Parse_hunk_section _ _ _ _ _ _ _ _ Hsec HP) as (h & Hh & Hw & _).
  exists h. split; [exact Hh|exact Hw].
Qed.

Lemma sample5_hunk_section :
  hunk_section sample5 [] "diff --git a/q.sql b/q.sql" sample5_mid "@@ -10 +9,2 @@ tail"
    sample5_body [].
Proof.
  split; [vm_compute; reflexivity|]. split; [reflexivity|]. split.
  { repeat constructor; intros Hc; vm_compute in Hc; discriminate Hc. }
  split; [reflexivity|]. split; [|left; reflexivity].
  repeat constructor; intros Hc; vm_compute in Hc; discriminate Hc.
Defined.

Lemma Parse_hunk_body_witness :
  hunk_section sample5 [] "diff --git a/q.sql b/q.sql" sample5_mid "@@ -10 +9,2 @@ tail"
    sample5_body []
  /\ Parse sample5 = Ok sample5_parsed
  /\ exists h,
       hunk_at (Diff.Files sample5_parsed) (length (file_start_lines []))
         (length (hunk_start_lines sample5_mid)) = Some h
       /\ map unnumbered (DiffRange.Lines (DiffHunk.WholeRange h))
          = recorded_lines (hunk_offset sample5_mid) sample5_body.
Proof.
  exact (conj sample5_hunk_section (conj Parse_sample5
           (Parse_hunk_body _ _ _ _ _ _ _ _ sample5_hunk_section Parse_sample5))).
Defined.

(** ** [Length] *)

(** X16.  [Length] of a hunk of a parsed diff is one more than the number
    of lines between its hunk-start line and the next hunk-start or
    file-start line that qualify as content and have none of the five
    prefixes: the lines that the hunk takes in the input, the hunk-start
    line counted in, when every line of its body is recorded. *)
Theorem DiffHunk_Length_of_section (s : string) (pre : list string) (dl : string)
    (mid : list string) (hl : string) (body post : list string) (d : Diff.t) :
  hunk_section s pre dl mid hl body post ->
  Parse s = Ok d ->
  exists h,
    hunk_at (Diff.Files d) (length (file_start_lines pre)) (length (hunk_start_lines mid))
    = Some h
    /\ DiffHunk.Length h
       = wrap (Z.of_nat (length (filter (fun l => is_content l = true) body)) + 1)
    /\ (Forall (fun l => is_content l = true) body ->
        DiffHunk.Length h = wrap (Z.of_nat (length (hl :: body)))).
Proof.
  intros Hsec HP.
  destruct (Parse_hunk_section _ _ _ _ _ _ _ _ Hsec HP) as (h & Hh & _ & Hlen).
  exists h. split; [exact Hh|]. unfold DiffHunk.Length. rewrite Hlen.
  split; [reflexivity|]. intros Hall. f_equal.
  assert (Hfilter : filter (fun l => is_content l = true) body = body).
  { clear -Hall. induction Hall as [|l body Hl _ IH]; [reflexivity|].
    rewrite filter_cons, decide_True by exact Hl. now rewrite IH. }
  rewrite Hfilter. cbn [length]. lia.
Qed.

Lemma DiffHunk_Length_of_section_witness :
  hunk_section sample5 [] "diff --git a/q.sql b/q.sql" sample5_mid "@@ -10 +9,2 @@ tail"
    sample5_body []
  /\ Parse sample5 = Ok sample5_parsed
  /\ exists h,
       hunk_at (Diff.Files sample5_parsed) (length (file_start_lines []))
         (length (hunk_start_lines sample5_mid)) = Some h
       /\ DiffHunk.Length h
          = wrap (Z.of_nat (length (filter (fun l => is_content l = true) sample5_body)) + 1)
       /\ (Forall (fun l => is_content l = true) sample5_body ->
           DiffHunk.Length h
           = wrap (Z.of_nat (length ("@@ -10 +9,2 @@ tail"%string :: sample5_body)))).
Proof.
  exact (conj sample5_hunk_section (conj Parse_sample5
           (DiffHunk_Length_of_section _ _ _ _ _ _ _ _ sample5_hunk_section Parse_sample5))).
Defined.

(** ** What the backtracking search finds *)

Lemma plus_sound p s m (k : continuation) x :
  plus p s m k = Some x ->
  exists d s', s = d +:+ s' /\ d <> EmptyString /\ string_forallb p d = true
               /\ k s' m = Some x.
Proof.
  induction s as [|c s IH]; cbn [plus]; [discriminate|].
  destruct (p c) eqn:Hc; [|discriminate].
  destruct (plus p s m k) as [y|] eqn:E.
  - intros [= ->]. destruct (IH eq_refl) as (d & s' & -> & _ & Hd & Hk).
    exists (String c d), s'. split; [now rewrite append_String|]. split; [discriminate|].
    split; [|exact Hk]. cbn [string_forallb]. now rewrite Hc, Hd.
  - intros Hk. exists (String c EmptyString), s. split; [reflexivity|].
    split; [discriminate|]. split; [|exact Hk]. cbn [string_forallb]. now rewrite Hc.
Qed.

(** A search that succeeds has found a match of the pattern, and what
    follows the pattern behind it. *)
Lemma backtrack_sound text r :
  forall s m (k : continuation) x,
    backtrack text r s m k = Some x ->
    exists s' m', matches text r s m s' m' /\ k s' m' = Some x.
Proof.
  induction r as [p|r1 IH1 r2 IH2|r1 IH1 r2 IH2|r IH|p|n r IH| |]; intros s m k x H;
    cbn [backtrack] in H.
  - destruct (HasPrefix s p) eqn:E; [|discriminate].
    apply HasPrefix_inv in E. exists (string_drop (String.length p) s), m.
    split; [|exact H]. rewrite E at 1. constructor.
  - destruct (IH1 _ _ _ _ H) as (s1 & m1 & H1 & H').
    destruct (IH2 _ _ _ _ H') as (s2 & m2 & H2 & Hk).
    exists s2, m2. split; [|exact Hk]. econstructor; eauto.
  - destruct (backtrack text r1 s m k) as [y|] eqn:E.
    + injection H as ->. destruct (IH1 _ _ _ _ E) as (s' & m' & H1 & Hk).
      exists s', m'. split; [now apply matches_Alt_l|exact Hk].
    + destruct (IH2 _ _ _ _ H) as (s' & m' & H2 & Hk).
      exists s', m'. split; [now apply matches_Alt_r|exact Hk].
  - destruct (backtrack text r s m k) as [y|] eqn:E.
    + injection H as ->. destruct (IH _ _ _ _ E) as (s' & m' & H1 & Hk).
      exists s', m'. split; [now apply matches_Opt_some|exact Hk].
    + exists s, m. split; [apply matches_Opt_none|exact H].
  - destruct (plus_sound _ _ _ _ _ H) as (d & s' & -> & Hne & Hd & Hk).
    exists s', m. split; [now constructor|exact Hk].
  - destruct (IH _ _ _ _ H) as (s' & m' & H1 & Hk).
    eexists s', _. split; [apply matches_Group; exact H1|exact Hk].
  - destruct (Nat.eqb_spec (String.length s) (String.length text)) as [E|]; [|discriminate].
    exists s, m. split; [now constructor|exact H].
  - destruct s; [|discriminate]. exists EmptyString, m. split; [constructor|exact H].
Qed.

Lemma matches_Lit_inv text p s m s' m' :
  matches text (Lit p) s m s' m' -> s = p +:+ s' /\ m' = m.
Proof. inversion 1; subst; auto. Qed.

Lemma matches_Opt_Lit_inv text p s m s' m' :
  matches text (Opt (Lit p)) s m s' m' -> m' = m.
Proof.
  inversion 1 as [| | | |? ? ? ? ? H1| | | | |]; subst; [|reflexivity].
  now apply matches_Lit_inv in H1.
Qed.

Lemma matches_Group_Plus_inv text n p s m s' m' :
  matches text (Group n (Plus p)) s m s' m' ->
  exists d, d <> EmptyString /\ string_forallb p d = true /\ m' = <[n := d]> m.
Proof.
  inversion 1 as [| | | | | | |? ? ? ? ? ? H1| |]; subst.
  inversion H1 as [| | | | | |? d ? ? Hne Hd| | |]; subst.
  exists d. rewrite length_append, Nat.add_sub, string_take_app. auto.
Qed.

Lemma matches_Opt_Group_Plus_inv text n p s m s' m' :
  matches text (Opt (Group n (Plus p))) s m s' m' ->
  m' = m \/ exists d, d <> EmptyString /\ string_forallb p d = true /\ m' = <[n := d]> m.
Proof.
  inversion 1 as [| | | |? ? ? ? ? H1| | | | |]; subst; [|now left].
  right. exact (matches_Group_Plus_inv _ _ _ _ _ _ _ H1).
Qed.

Lemma matches_Cat_inv text r1 r2 s m s' m' :
  matches text (r1 >> r2) s m s' m' ->
  exists s1 m1, matches text r1 s m s1 m1 /\ matches text r2 s1 m1 s' m'.
Proof. inversion 1; subst; eauto. Qed.

Lemma digits_forallb d : string_forallb is_digit d = true -> digits d.
Proof. unfold digits. now rewrite all_digits_forallb. Qed.

(** The submatches of a match of [hunkRe]. *)
Lemma match_at_hunkRe text s x :
  match_at text hunkRe s = Some x -> header_submatches x.
Proof.
  unfold match_at. intros H. apply backtrack_sound in H as (s' & m' & Hm & [= <-]).
  unfold hunkRe in Hm. cbn [groups Nat.max replicate] in Hm.
  repeat match type of Hm with
         | matches _ (_ >> _) _ _ _ _ =>
             let s1 := fresh "s" in
             let m1 := fresh "m" in
             let H1 := fresh "H" in
             apply matches_Cat_inv in Hm as (s1 & m1 & H1 & Hm)
         end.
  apply matches_Lit_inv in H as [_ ->].
  apply matches_Group_Plus_inv in H0 as (A & HA1 & HA2 & ->).
  apply matches_Opt_Lit_inv in H1 as ->.
  apply matches_Lit_inv in H3 as [_ ->].
  apply matches_Group_Plus_inv in H4 as (C & HC1 & HC2 & ->).
  apply matches_Opt_Lit_inv in H5 as ->.
  apply matches_Lit_inv in H7 as [_ ->].
  apply matches_Opt_Lit_inv in H8 as ->.
  assert (HA : is_number A) by (split; [exact HA1|now apply digits_forallb]).
  assert (HC : is_number C) by (split; [exact HC1|now apply digits_forallb]).
  apply matches_Opt_Group_Plus_inv in H2 as [->|(B & _ & HB & ->)];
    apply matches_Opt_Group_Plus_inv in H6 as [->|(D & _ & HD & ->)];
    apply matches_Opt_Group_Plus_inv in Hm as [->|(heading & _ & _ & ->)];
    cbn [insert list_insert];
    eexists _, A, _, C, _, _; (split; [reflexivity|]);
    (split; [exact HA|]); (split; [|split; [exact HC|]]);
    solve [reflexivity|now apply digits_forallb].
Qed.

Lemma find_from_inv text r s :
  find_from text r s = [] \/ exists s0, match_at text r s0 = Some (find_from text r s).
Proof.
  induction s as [|c s IH]; cbn [find_from].
  - destruct (match_at text r EmptyString) as [m|] eqn:E; [right; eauto|now left].
  - destruct (match_at text r (String c s)) as [m|] eqn:E; [right; eauto|exact IH].
Qed.

Lemma FindStringSubmatch_hunkRe l :
  FindStringSubmatch hunkRe l = [] \/ header_submatches (FindStringSubmatch hunkRe l).
Proof.
  unfold FindStringSubmatch. destruct (find_from_inv l hunkRe l) as [->|[s0 H]]; [now left|].
  right. exact (match_at_hunkRe _ _ _ H).
Qed.

(** ** The numbers of a hunk header *)

Lemma number_nonneg d : digits d -> 0 <= number d.
Proof. intros Hd. apply digits_val_nonneg; [exact Hd|lia]. Qed.

(** The conversion of a length, which may be left out. *)
Lemma Atoi_optional B a :
  digits B ->
  (if (0 <? String.length B)%nat then Atoi B else Ok a)
  = if is_empty B then Ok a
    else if 2 ^ 63 <=? number B then Err (NumError "Atoi" B ErrRange) else Ok (number B).
Proof.
  intros HB. destruct B as [|c B]; [reflexivity|].
  cbn [String.length Nat.ltb Nat.leb is_empty]. apply Atoi_number. split; [discriminate|exact HB].
Qed.

(** [parse_hunk], by the submatches of the line. *)
Lemma parse_hunk_cases l :
  parse_hunk l = Err (errors_New ("Error parsing line: " +:+ l))
  \/ exists whole A B C D heading,
       FindStringSubmatch hunkRe l = [whole; A; B; C; D; heading]
       /\ is_number A /\ digits B /\ is_number C /\ digits D
       /\ parse_hunk l =
          let* a := (if 2 ^ 63 <=? number A then Err (NumError "Atoi" A ErrRange)
                     else Ok (number A)) in
          let* b := (if is_empty B then Ok a
                     else if 2 ^ 63 <=? number B then Err (NumError "Atoi" B ErrRange)
                          else Ok (number B)) in
          let* c := (if 2 ^ 63 <=? number C then Err (NumError "Atoi" C ErrRange)
                     else Ok (number C)) in
          let* d := (if is_empty D then Ok c
                     else if 2 ^ 63 <=? number D then Err (NumError "Atoi" D ErrRange)
                          else Ok (number D)) in
          Ok (DiffHunk.mk heading (DiffRange.mk a b []) (DiffRange.mk c d []) DiffRange.zero).
Proof.
  unfold parse_hunk.
  destruct (FindStringSubmatch_hunkRe l)
    as [->|(whole & A & B & C & D & heading & -> & HA & HB & HC & HD)]; [now left|].
  right. exists whole, A, B, C, D, heading. split; [reflexivity|].
  split; [exact HA|]. split; [exact HB|]. split; [exact HC|]. split; [exact HD|].
  cbn [length]. change (6 <? 5)%nat with false. cbv iota.
  change ([whole; A; B; C; D; heading] !!! 1%nat) with A.
  change ([whole; A; B; C; D; heading] !!! 2%nat) with B.
  change ([whole; A; B; C; D; heading] !!! 3%nat) with C.
  change ([whole; A; B; C; D; heading] !!! 4%nat) with D.
  change ([whole; A; B; C; D; heading] !!! 5%nat) with heading.
  rewrite (Atoi_number A HA), (Atoi_number C HC).
  destruct (2 ^ 63 <=? number A); [reflexivity|]. cbn [bind].
  rewrite (Atoi_optional B _ HB).
  destruct (if is_empty B then _ else _) as [b| |]; [|reflexivity..]. cbn [bind].
  destruct (2 ^ 63 <=? number C); [reflexivity|]. cbn [bind].
  rewrite (Atoi_optional D _ HD).
  destruct (if is_empty D then _ else _) as [d| |]; [|reflexivity..]. cbn [bind].
  destruct heading; reflexivity.
Qed.

Lemma in_range_number d :
  digits d -> (2 ^ 63 <=? number d) = false -> 0 <= number d < 2 ^ 63.
Proof. intros Hd H. apply Z.leb_gt in H. pose proof (number_nonneg _ Hd). lia. Qed.

Lemma parse_hunk_window l h : parse_hunk l = Ok h -> window_in_range h.
Proof.
  destruct (parse_hunk_cases l)
    as [->|(whole & A & B & C & D & heading & _ & [_ HA] & HB & [_ HC] & HD & ->)];
    [discriminate|].
  destruct (2 ^ 63 <=? number A) eqn:EA; [discriminate|]. cbn [bind].
  pose proof (in_range_number _ HA EA) as RA.
  destruct (is_empty B); [|destruct (2 ^ 63 <=? number B) eqn:EB; [discriminate|]];
    cbn [bind];
    (destruct (2 ^ 63 <=? number C) eqn:EC; [discriminate|]); cbn [bind];
    pose proof (in_range_number _ HC EC) as RC;
    (destruct (is_empty D); [|destruct (2 ^ 63 <=? number D) eqn:ED; [discriminate|]]);
    cbn [bind]; intros [= <-]; unfold window_in_range; simpl;
    repeat split; try lia;
    first [apply (in_range_number B HB EB)|apply (in_range_number D HD ED)].
Qed.

Lemma window_in_range_add_line m line a r h :
  window_in_range h -> window_in_range (add_line m line a r h).
Proof. destruct m; exact id. Qed.

(** X17.  In every hunk of a Diff returned by [Parse], the start and the
    length of the original and of the new range are numbers from [0] to
    [2^63 - 1]: the pattern of the hunk-start line lets through digits
    only, no sign, and a number beyond [int] fails the parse. *)
Theorem Parse_window_in_range (s : string) (d : Diff.t)
    (i j : nat) (f : DiffFile.t) (h : DiffHunk.t) :
  Parse s = Ok d ->
  Diff.Files d !! i = Some f ->
  DiffFile.Hunks f !! j = Some h ->
  window_in_range h.
Proof.
  intros HP Hf Hh.
  assert (Hall : all_hunks window_in_range (Diff.Files d)).
  { eapply Parse_all_hunks; [| |exact HP].
    - exact parse_hunk_window.
    - intros. now apply window_in_range_add_line. }
  apply (all_hunks_lookup _ _ i j h Hall). unfold hunk_at. now rewrite Hf.
Qed.

Lemma Parse_window_in_range_witness :
  Parse sample = Ok sample_parsed
  /\ Diff.Files sample_parsed !! 0%nat = Some sample_file
  /\ DiffFile.Hunks sample_file !! 0%nat = Some sample_hunk
  /\ window_in_range sample_hunk.
Proof.
  assert (H2 : Diff.Files sample_parsed !! 0%nat = Some sample_file) by reflexivity.
  assert (H3 : DiffFile.Hunks sample_file !! 0%nat = Some sample_hunk) by reflexivity.
  exact (conj Parse_sample (conj H2 (conj H3
           (Parse_window_in_range _ _ _ _ _ _ Parse_sample H2 H3)))).
Defined.

(** ** The errors of [Parse] *)



(** The iteration at which the loop fails. *)
Lemma Parse_loop_Err_inv lines rest idx st e :
  Parse_loop lines idx rest st = Err e ->
  exists pre l post st',
    rest = pre ++ l :: post
    /\ Parse_loop lines idx pre st = Ok st'
    /\ Parse_line lines (idx + length pre) l st' = Err e.
Proof.
  revert idx st. induction rest as [|l rest IH]; intros idx st; cbn [Parse_loop];
    [discriminate|].
  destruct (Parse_line lines idx l st) as [st1| |] eqn:E; cbn [bind]; [| |discriminate].
  - intros H. destruct (IH _ _ H) as (pre & l' & post & st' & -> & Hpre & Hl').
    exists (l :: pre), l', post, st'. split; [reflexivity|]. split.
    + cbn [Parse_loop]. rewrite E. exact Hpre.
    + cbn [length]. now rewrite Nat.add_succ_r.
  - intros [= <-]. exists [], l, rest, st. rewrite Nat.add_0_r. auto.
Qed.



(** ** Numbers beyond [int] *)

(** [parse_hunk] on a well-formed header: the hunk, or the range error for
    the first number that does not fit. *)
Lemma parse_hunk_header_line A B C D heading :
  is_number A -> opt_number B -> is_number C -> opt_number D ->
  no_newline (default EmptyString heading) = true ->
  parse_hunk (hunk_header_line A B C D heading)
  = match first_overflow (header_numbers A B C D) with
    | Some n => Err (NumError "Atoi" n ErrRange)
    | None =>
        Ok (DiffHunk.mk (default EmptyString heading)
              (DiffRange.mk (number A) (number (default A B)) [])
              (DiffRange.mk (number C) (number (default C D)) [])
              DiffRange.zero)
    end.
Proof.
  intros HA HB HC HD Hh. unfold parse_hunk.
  rewrite (FindStringSubmatch_first _ _ _
             (hunkRe_match_at_header _ A B C D heading HA HB HC HD Hh)).
  set (line := hunk_header_line A B C D heading).
  cbn [length]. change (6 <? 5)%nat with false. cbv iota.
  change ([line; A; default EmptyString B; C; default EmptyString D;
           default EmptyString heading] !!! 1%nat) with A.
  change ([line; A; default EmptyString B; C; default EmptyString D;
           default EmptyString heading] !!! 2%nat) with (default EmptyString B).
  change ([line; A; default EmptyString B; C; default EmptyString D;
           default EmptyString heading] !!! 3%nat) with C.
  change ([line; A; default EmptyString B; C; default EmptyString D;
           default EmptyString heading] !!! 4%nat) with (default EmptyString D).
  change ([line; A; default EmptyString B; C; default EmptyString D;
           default EmptyString heading] !!! 5%nat) with (default EmptyString heading).
  unfold first_overflow, header_numbers.
  rewrite (Atoi_number A HA), (Atoi_number C HC).
  cbn [List.find app].
  destruct (2 ^ 63 <=? number A); [reflexivity|]. cbn [bind].
  assert (Hend : forall b d,
             Ok (DiffHunk.set_NewRange (DiffRange.mk (number C) d [])
                   (DiffHunk.set_OrigRange (DiffRange.mk (number A) b [])
                      (if (0 <? String.length (default EmptyString heading))%nat
                       then DiffHunk.set_HunkHeader (default EmptyString heading) DiffHunk.zero
                       else DiffHunk.zero)))
             = @Ok DiffHunk.t
                 (DiffHunk.mk (default EmptyString heading) (DiffRange.mk (number A) b [])
                    (DiffRange.mk (number C) d []) DiffRange.zero)).
  { intros b d. destruct heading as [[|c t]|]; reflexivity. }
  destruct B as [b|]; cbn [option_list option_rect app List.find default from_option id] in *.
  - pose proof (length_is_number b HB) as Hlen. pose proof (Atoi_number b HB) as Hb.
    rewrite Hlen, Hb.
    destruct (2 ^ 63 <=? number b); [reflexivity|]. cbn [bind].
    destruct (2 ^ 63 <=? number C); [reflexivity|]. cbn [bind].
    destruct D as [d|]; cbn [option_list option_rect app List.find default from_option id] in *.
    + pose proof (length_is_number d HD) as Hlen'. pose proof (Atoi_number d HD) as Hd.
      rewrite Hlen', Hd.
      destruct (2 ^ 63 <=? number d); [reflexivity|]. cbn [bind]. apply Hend.
    + change (0 <? String.length EmptyString)%nat with false. cbv iota. cbn [bind].
      apply Hend.
  - change (0 <? String.length EmptyString)%nat with false. cbv iota. cbn [bind].
    destruct (2 ^ 63 <=? number C); [reflexivity|]. cbn [bind].
    destruct D as [d|]; cbn [option_list option_rect app List.find default from_option id] in *.
    + pose proof (length_is_number d HD) as Hlen'. pose proof (Atoi_number d HD) as Hd.
      rewrite Hlen', Hd.
      destruct (2 ^ 63 <=? number d); [reflexivity|]. cbn [bind]. apply Hend.
    + change (0 <? String.length EmptyString)%nat with false. cbv iota. cbn [bind].
      apply Hend.
Qed.

(** X19.  A hunk-start line [@@ -A[,B] +C[,D] @@[ heading]] one of whose
    numbers is [2^63] or more, met once a file has been opened, fails the
    parse with the range error of [Atoi] for the first such number, in the
    order [A], [B], [C], [D]. *)
Theorem Parse_hunk_header_overflow (s : string) (pre post : list string)
    (A C : string) (B D heading : option string) (n : string) :
  in_open_file s pre (hunk_header_line A B C D heading) post ->
  is_number A -> opt_number B -> is_number C -> opt_number D ->
  first_overflow (header_numbers A B C D) = Some n ->
  Parse s = Err (NumError "Atoi" n ErrRange).
Proof.
  intros (Hs & st & Hpre & Hfile) HA HB HC HD Hn.
  assert (Hnl : no_newline (default EmptyString heading) = true).
  { apply (heading_no_newline A B C D). pose proof (Split_no_newline s) as Hall.
    rewrite Hs in Hall. apply Forall_app in Hall as [_ Hall]. now inversion Hall. }
  apply (Parse_malformed_hunk_header _ _ _ _ _ _ Hs Hpre Hfile).
  - apply classify_hunk_header_line.
  - rewrite (parse_hunk_header_line A B C D heading HA HB HC HD Hnl), Hn. reflexivity.
Qed.

Lemma Parse_hunk_header_overflow_witness :
  in_open_file sample6 ["diff --git a/x b/x"%string]
    (hunk_header_line "1" (Some "2"%string) "9223372036854775808" None None) [" x"%string]
  /\ is_number "1" /\ opt_number (Some "2"%string)
  /\ is_number "9223372036854775808" /\ opt_number None
  /\ first_overflow (header_numbers "1" (Some "2"%string) "9223372036854775808" None)
     = Some "9223372036854775808"%string
  /\ Parse sample6 = Err (NumError "Atoi" "9223372036854775808" ErrRange).
Proof.
  assert (H1 : in_open_file sample6 ["diff --git a/x b/x"%string]
                 (hunk_header_line "1" (Some "2"%string) "9223372036854775808" None None)
                 [" x"%string]).
  { split; [vm_compute; reflexivity|]. eexists. split; [vm_compute; reflexivity|].
    discriminate. }
  assert (H2 : is_number "1") by (split; [discriminate|reflexivity]).
  assert (H3 : opt_number (Some "2"%string)) by (split; [discriminate|reflexivity]).
  assert (H4 : is_number "9223372036854775808") by (split; [discriminate|reflexivity]).
  assert (H5 : opt_number None) by exact I.
  assert (H6 : first_overflow (header_numbers "1" (Some "2"%string) "9223372036854775808" None)
               = Some "9223372036854775808"%string) by (vm_compute; reflexivity).
  exact (conj H1 (conj H2 (conj H3 (conj H4 (conj H5 (conj H6
           (Parse_hunk_header_overflow _ _ _ _ _ _ _ _ _ H1 H2 H3 H4 H5 H6))))))).
Defined.

(** ** [lineMode] and [isSourceLine] *)

(** X20.  [lineMode] gives a mode for exactly the lines that start with the
    character of that mode, whatever follows it; and it steps out of the
    bounds of its line only on the empty line, which [isSourceLine] does
    not let through. *)
Theorem lineMode_Ok_iff (l : string) (m : DiffLineMode) :
  (lineMode l = Ok m <-> exists r, l = String (mode_char m) r)
  /\ (forall msg, lineMode l = Panic msg -> l = EmptyString /\ isSourceLine l = false).
Proof.
  split; [split|].
  - intros H. exists (string_drop 1 l). now apply lineMode_mode_char.
  - intros [r ->]. destruct m; reflexivity.
  - intros msg H. destruct l as [|c r]; [split; reflexivity|].
    exfalso. revert H. unfold lineMode.
    destruct (Ascii.eqb c " "); [discriminate|].
    destruct (Ascii.eqb c "+"); [discriminate|].
    destruct (Ascii.eqb c "-"); discriminate.
Qed.

Lemma HasPrefix_take n l : HasPrefix l (string_take n l) = true.
Proof.
  unfold HasPrefix. revert l. induction n as [|n IH]; intros [|c l]; try reflexivity.
  cbn [string_take String.prefix]. destruct (ascii_dec c c); [apply IH|congruence].
Qed.

(** X21.  [isSourceLine] turns down the empty line, the line
    [\ No newline at end of file], and every line that starts with [---]
    or with [+++]; it lets every other line through. *)
Theorem isSourceLine_false_iff (l : string) :
  isSourceLine l = false
  <-> l = EmptyString \/ l = no_newline_marker
      \/ HasPrefix l "---" = true \/ HasPrefix l "+++" = true.
Proof.
  split.
  - unfold isSourceLine. destruct (String.eqb_spec l no_newline_marker) as [->|_]; [auto|].
    destruct l as [|c l]; [auto|]. cbn [String.length Nat.eqb orb].
    destruct (3 <=? S (String.length l))%nat; [|discriminate]. cbn [andb].
    destruct (String.eqb_spec (string_take 3 (String c l)) "---") as [E|_].
    { intros _. right. right. left. rewrite <- E. apply HasPrefix_take. }
    destruct (String.eqb_spec (string_take 3 (String c l)) "+++") as [E|_]; [|discriminate].
    intros _. right. right. right. rewrite <- E. apply HasPrefix_take.
  - intros [->|[->|H]]; [reflexivity|reflexivity|]. now apply isSourceLine_marker.
Qed.

(** ** [Changed] on a Diff put together from two *)

Lemma changed_under_app k fs gs :
  changed_under k (fs ++ gs) = changed_under k fs ++ changed_under k gs.
Proof. unfold changed_under. now rewrite filter_app, map_app, concat_app. Qed.

(** X22.  [Changed] goes through the files in their order: under every
    path, a Diff whose files are those of one Diff followed by those of
    another has the line numbers of the first followed by those of the
    second. *)
Theorem Changed_app (fs gs : list DiffFile.t) (raw : string) (id : Z) (k : string) :
  map_get (Changed (Diff.mk (fs ++ gs) raw id)) k
  = map_get (Changed (Diff.mk fs raw id)) k ++ map_get (Changed (Diff.mk gs raw id)) k.
Proof.
  unfold Changed. cbn [Diff.Files]. rewrite !Changed_files_get, changed_under_app.
  unfold map_get at 1 2 3. now rewrite lookup_empty.
Qed.

(** ** The lines of the input *)

Lemma Split_nonempty s : Split s newline <> [].
Proof.
  destruct s as [|c s]; cbn [Split]; [discriminate|].
  destruct (Ascii.eqb c newline); [discriminate|]. destruct (Split s newline); discriminate.
Qed.

Lemma unlines_cons_nonempty x y ys : unlines (x :: y :: ys) = x +:+ nl +:+ unlines (y :: ys).
Proof. reflexivity. Qed.

(** X23.  The lines that [Parse] scans are the input cut at every newline:
    no line holds a newline, and the lines joined by newlines are the
    input again; conversely every non-empty list of lines without newline
    is the list of lines of their join. *)
Theorem Split_unlines (s : string) :
  unlines (Split s newline) = s
  /\ Forall (fun l => no_newline l = true) (Split s newline)
  /\ (forall ls : list string,
         ls <> [] -> Forall (fun l => no_newline l = true) ls ->
         Split (unlines ls) newline = ls).
Proof.
  split; [|split; [apply Split_no_newline|]].
  - induction s as [|c s IH]; [reflexivity|]. cbn [Split].
    pose proof (Split_nonempty s) as Hne.
    destruct (Ascii.eqb_spec c newline) as [->|_].
    + destruct (Split s newline) as [|x xs]; [congruence|].
      rewrite unlines_cons_nonempty, IH. reflexivity.
    + destruct (Split s newline) as [|x xs]; [congruence|].
      rewrite <- IH. destruct xs as [|y ys]; [reflexivity|].
      rewrite !unlines_cons_nonempty. now rewrite append_String.
  - intros ls Hne Hall. induction Hall as [|l ls Hl Hall IH]; [congruence|].
    destruct ls as [|y ys]; [now apply Split_one|].
    rewrite unlines_cons_nonempty. unfold nl. rewrite append_String, append_Empty.
    rewrite (Split_line _ _ Hl), IH by discriminate. reflexivity.
Qed.

(** ** Text in front of the diff *)

Lemma file_header_shift (pre ls : list string) idx l :
  file_header (pre ++ ls) (length pre + idx) l = file_header ls idx l.
Proof.
  unfold file_header. rewrite length_app.
  replace (length pre + idx + 3 <? length pre + length ls)%nat
    with (idx + 3 <? length ls)%nat
    by (destruct (Nat.ltb_spec (idx + 3) (length ls)),
                 (Nat.ltb_spec (length pre + idx + 3) (length pre + length ls)); lia).
  rewrite !lookup_total_app_r by lia.
  replace (length pre + idx + 1 - length pre)%nat with (idx + 1)%nat by lia.
  replace (length pre + idx + 2 - length pre)%nat with (idx + 2)%nat by lia.
  replace (length pre + idx + 3 - length pre)%nat with (idx + 3)%nat by lia.
  reflexivity.
Qed.

Lemma same_scan_files st st' : same_scan st st' -> files_of st = files_of st'.
Proof. intros H. exact (proj1 H). Qed.

(** One iteration, on the same line, of two scans that agree. *)
Lemma Parse_line_same_scan (pre ls : list string) idx l st st' :
  same_scan st st' ->
  same_result (Parse_line (pre ++ ls) (length pre + idx) l st) (Parse_line ls idx l st').
Proof.
  destruct st as [[fs raw id] f h a r i p fh], st' as [[fs' raw' id'] f' h' a' r' i' p' fh'].
  unfold same_scan. cbn.
  intros (-> & -> & -> & -> & -> & -> & -> & Hpos).
  rewrite !Parse_line_classify. unfold new_file, set_file_Mode, tick, files_of.
  rewrite file_header_shift. cbn.
  destruct (classify l) as [|m| |].
  - cbn. unfold same_scan. cbn. repeat split; auto.
  - destruct f' as [n|]; cbn; [|reflexivity].
    unfold same_scan. cbn. repeat split; auto.
    destruct Hpos as [->|Hpos]; auto.
  - destruct f' as [n|]; cbn; [|reflexivity].
    destruct (fs' !! n) as [f|]; cbn; [|reflexivity].
    destruct (parse_hunk l) as [h| |]; cbn; [|reflexivity..].
    unfold same_scan. cbn. repeat split; auto. left.
    destruct Hpos as [->|[_ [?| ->]]]; [reflexivity|congruence|reflexivity].
  - destruct i'; cbn [andb].
    + assert (p = p') as -> by (destruct Hpos as [|[? _]]; congruence).
      destruct (isSourceLine l).
      * destruct (lineMode l) as [m| |]; cbn; [|reflexivity..].
        destruct h' as [[n j]|]; cbn; [|reflexivity].
        unfold same_scan. cbn. repeat split; auto.
      * cbn. unfold same_scan. cbn. repeat split; auto.
    + cbn. unfold same_scan. cbn. repeat split; auto.
      destruct Hpos as [->|Hpos]; auto.
Qed.

Lemma Parse_loop_same_scan (pre ls rest : list string) idx st st' :
  same_scan st st' ->
  same_result (Parse_loop (pre ++ ls) (length pre + idx) rest st) (Parse_loop ls idx rest st').
Proof.
  revert idx st st'. induction rest as [|l rest IH]; intros idx st st' Hsim; cbn [Parse_loop].
  - exact Hsim.
  - pose proof (Parse_line_same_scan pre ls idx l st st' Hsim) as Hline.
    destruct (Parse_line (pre ++ ls) (length pre + idx) l st) as [st1|e|m],
             (Parse_line ls idx l st') as [st1'|e'|m']; cbn [same_result bind] in *;
      try contradiction; try exact Hline.
    rewrite <- Nat.add_succ_r. now apply IH.
Qed.

(** X24.  Lines in front of the first [diff ] line that have none of the
    five prefixes, such as the commit message that [git show] writes, are
    passed over: [Parse] returns the files, or the error, that it returns
    for the input without these lines. *)
Theorem Parse_ignores_preamble (s s' : string) (pre : list string) :
  Split s newline = pre ++ Split s' newline ->
  Forall (fun l => classify l = Body) pre ->
  Parse s = let* d' := Parse s' in Ok (Diff.mk (Diff.Files d') s 0).
Proof.
  intros Hs Hpre. unfold Parse. rewrite Hs at 2. rewrite Parse_loop_app.
  rewrite (Parse_loop_Body_skip _ _ 0 (init s) Hpre eq_refl). cbn [bind Nat.add].
  rewrite Hs.
  set (st0 := set_diffPosCount _ (init s)).
  assert (Hsim : same_scan st0 (init s')).
  { unfold same_scan, st0. cbn. repeat split; auto. }
  pose proof (Parse_loop_same_scan pre (Split s' newline) (Split s' newline) 0 st0 (init s') Hsim)
    as Hloop.
  rewrite Nat.add_0_r in Hloop.
  destruct (Parse_loop (pre ++ Split s' newline) (length pre) (Split s' newline) st0)
    as [st|e|m] eqn:E,
    (Parse_loop (Split s' newline) 0 (Split s' newline) (init s')) as [st'|e'|m'];
    cbn [same_result bind] in *; try contradiction; try (now subst).
  destruct (Parse_loop_Raw _ _ _ _ _ E) as [HR HI]. cbn in HR, HI.
  destruct Hloop as [Hfiles _]. rewrite <- Hfiles.
  destruct (diff st) as [fs raw id]. cbn in *. now subst.
Qed.

Lemma Parse_ignores_preamble_witness :
  Split sample8 newline = Split sample4 newline ++ Split sample newline
  /\ Forall (fun l => classify l = Body) (Split sample4 newline)
  /\ Parse sample8 = let* d' := Parse sample in Ok (Diff.mk (Diff.Files d') sample8 0).
Proof.
  assert (H1 : Split sample8 newline = Split sample4 newline ++ Split sample newline)
    by (vm_compute; reflexivity).
  assert (H2 : Forall (fun l => classify l = Body) (Split sample4 newline))
    by (repeat constructor).
  exact (conj H1 (conj H2 (Parse_ignores_preamble _ _ _ H1 H2))).
Defined.

(** ** Paths with white space *)

Lemma forallb_rev_onto p r acc :
  string_forallb p (string_rev_onto r acc) = string_forallb p r && string_forallb p acc.
Proof.
  revert acc. induction r as [|c r IH]; intros acc; cbn [string_rev_onto string_forallb].
  - reflexivity.
  - rewrite IH. cbn [string_forallb].
    destruct (p c), (string_forallb p r), (string_forallb p acc); reflexivity.
Qed.

Lemma space_width_0 c s : space_width (String c s) = 0%nat -> asciiSpace c = false.
Proof. cbn [space_width]. destruct (asciiSpace c); [discriminate|reflexivity]. Qed.

Lemma no_space_flush cur k :
  no_space cur = true -> Forall (fun t => no_space t = true) k ->
  Forall (fun t => no_space t = true) (flush cur k).
Proof.
  intros Hcur Hk. unfold flush. destruct (is_empty cur); [exact Hk|].
  constructor; [|exact Hk]. unfold no_space in *. now rewrite forallb_rev_onto, Hcur.
Qed.

(** No field holds ASCII white space. *)
Lemma fields_from_no_space s :
  forall skip cur,
    no_space cur = true -> Forall (fun t => no_space t = true) (fields_from s skip cur).
Proof.
  induction s as [|c s IH]; intros skip cur Hcur; cbn [fields_from].
  - apply no_space_flush; [exact Hcur|constructor].
  - destruct skip as [|k]; [|now apply IH].
    destruct (space_width (String c s)) as [|k] eqn:E.
    + apply IH. unfold no_space in *. cbn [string_forallb].
      now rewrite (space_width_0 _ _ E), Hcur.
    + apply no_space_flush; [exact Hcur|now apply IH].
Qed.

Lemma no_space_drop n p : no_space p = true -> no_space (string_drop n p) = true.
Proof.
  revert p. induction n as [|n IH]; intros [|c p] H; cbn [string_drop]; auto.
  unfold no_space in *. cbn [string_forallb] in H.
  apply andb_true_iff in H as [_ H]. now apply IH.
Qed.

Lemma no_space_CutPrefix tok marker :
  no_space tok = true ->
  no_space (let '(p, ok) := CutPrefix tok marker in if ok then p else EmptyString) = true.
Proof.
  intros H. unfold CutPrefix. destruct (HasPrefix tok marker); [|reflexivity].
  now apply no_space_drop.
Qed.

Lemma file_names_no_space l :
  no_space (fst (file_names l)) = true /\ no_space (snd (file_names l)) = true.
Proof.
  unfold file_names. pose proof (fields_from_no_space l 0 EmptyString eq_refl) as Hall.
  fold (Fields l) in Hall. rewrite Forall_lookup in Hall.
  destruct (Nat.leb_spec 3 (length (Fields l))) as [Hlen|Hlen]; [|split; reflexivity].
  rewrite !list_lookup_total_alt.
  destruct (lookup_lt_is_Some_2 (Fields l) (length (Fields l) - 2)) as [from Hfrom]; [lia|].
  destruct (lookup_lt_is_Some_2 (Fields l) (length (Fields l) - 1)) as [to Hto]; [lia|].
  rewrite Hfrom, Hto. cbn [default from_option id fst snd].
  split; apply no_space_CutPrefix; eauto.
Qed.

(** X25.  Neither path of a file of a Diff returned by [Parse] holds a
    blank, a tab or any other ASCII white space: the paths are cut out of
    the last two fields of the [diff ] line, so that a path with a blank in
    it is not read as a whole. *)
Theorem Parse_paths_without_space (s : string) (d : Diff.t) (i : nat) (f : DiffFile.t) :
  Parse s = Ok d ->
  Diff.Files d !! i = Some f ->
  no_space (DiffFile.OrigName f) = true /\ no_space (DiffFile.NewName f) = true.
Proof.
  intros HP Hf. pose proof (Parse_names _ _ HP) as Hnames.
  assert (Hn : map names_of (Diff.Files d) !! i = Some (names_of f)).
  { rewrite list_lookup_fmap, Hf. reflexivity. }
  rewrite Hnames, list_lookup_fmap in Hn.
  destruct (file_start_lines (Split s newline) !! i) as [l|]; [|discriminate].
  cbn in Hn. injection Hn as Hn. destruct (file_names_no_space l) as [Ha Hb].
  rewrite Hn in Ha, Hb. exact (conj Ha Hb).
Qed.

Lemma Parse_paths_without_space_witness :
  Parse sample = Ok sample_parsed
  /\ Diff.Files sample_parsed !! 0%nat = Some sample_file
  /\ no_space (DiffFile.OrigName sample_file) = true
  /\ no_space (DiffFile.NewName sample_file) = true.
Proof.
  assert (H2 : Diff.Files sample_parsed !! 0%nat = Some sample_file) by reflexivity.
  exact (conj Parse_sample (conj H2 (Parse_paths_without_space _ _ _ _ Parse_sample H2))).
Defined.

(** ** Input that [Parse] accepts *)

Lemma lineMode_has_mode l : has_mode l -> exists m, lineMode l = Ok m.
Proof. intros (m & r & ->). exists m. destruct m; reflexivity. Qed.

Lemma parse_hunk_well_formed l :
  no_newline l = true -> well_formed_header l -> exists h, parse_hunk l = Ok h.
Proof.
  intros Hnl (A & B & C & D & heading & -> & HA & HB & HC & HD & Hfit).
  rewrite (parse_hunk_header_line A B C D heading HA HB HC HD
             (heading_no_newline _ _ _ _ _ Hnl)), Hfit.
  eauto.
Qed.

Lemma Parse_step_inHunk lines idx l st st' :
  Parse_step lines idx l st st' ->
  inHunk st' = match classify l with
               | FileStart => false
               | HunkStart => true
               | _ => inHunk st
               end.
Proof.
  intros [Hc|m i Hc Hi|i f h Hc Hi Hf Hh|m i j Hc Hin Hsrc Hm Hk|Hc Hskip];
    rewrite Hc; cbn [inHunk]; auto.
Qed.

Lemma Parse_loop_inHunk lines pre :
  forall idx st st',
    Parse_loop lines idx pre st = Ok st' ->
    inHunk st' = fold_left (fun b l => match classify l with
                                       | FileStart => false
                                       | HunkStart => true
                                       | _ => b
                                       end) pre (inHunk st).
Proof.
  induction pre as [|l pre IH]; intros idx st st' H.
  - injection H as <-. reflexivity.
  - apply Parse_loop_cons_Ok in H as (st1 & H1 & Hrest).
    cbn [fold_left]. rewrite <- (Parse_step_inHunk _ _ _ _ _ H1). now apply (IH (S idx)).
Qed.

(** X26.  [Parse] returns a Diff for every input in which the first line
    with one of the five prefixes, if there is one, is a [diff ] line,
    every line that starts with [@@ ] is a hunk header
    [@@ -A[,B] +C[,D] @@[ heading]] with numbers below [2^63], and every
    line behind a hunk header (with no [diff ] line in between) that
    qualifies as content and has none of the five prefixes starts with
    [' '], ['+'] or ['-']. *)
Theorem Parse_well_formed (s : string) :
  well_formed (Split s newline) -> exists d, Parse s = Ok d.
Proof.
  intros (Hfirst & Hheaders & Hbody).
  destruct (Parse s) as [d|e|msg] eqn:HP; [eauto| |]; exfalso.
  - unfold Parse in HP.
    destruct (Parse_loop _ _ _ _) as [st|e'|] eqn:E; cbn [bind] in HP; try discriminate.
    destruct (Parse_loop_Err_inv _ _ _ _ _ E) as (pre & l & post & st' & Hs & Hpre & Hl).
    assert (Hin : l ∈ Split s newline).
    { rewrite Hs. apply elem_of_app. right. apply list_elem_of_here. }
    rewrite Forall_forall in Hheaders.
    pose proof (proj1 (Forall_forall _ _) (Split_no_newline s) l Hin) as Hnl.
    rewrite Parse_line_classify in Hl.
    destruct (classify l) as [|m| |] eqn:Hc.
    + discriminate.
    + unfold set_file_Mode in Hl. destruct (file (tick st')); discriminate.
    + destruct (file st'); [|discriminate]. destruct (files_of st' !! _); [|discriminate].
      destruct (parse_hunk_well_formed l Hnl (Hheaders l Hin Hc)) as [h Hh].
      rewrite Hh in Hl. discriminate.
    + destruct (inHunk st' && isSourceLine l) eqn:Ein; [|discriminate].
      apply andb_true_iff in Ein as [Hopen Hsrc].
      rewrite (Parse_loop_inHunk _ _ _ _ _ Hpre) in Hopen.
      destruct (lineMode_has_mode l
                  (Hbody pre l post Hs Hopen (is_content_true _ Hc Hsrc))) as [m Hm].
      rewrite Hm in Hl. cbn [bind] in Hl. destruct (hunk st') as [[i j]|]; discriminate.
  - destruct Hfirst as [Hall|(pre & l & post & Hs & Hpre & Hl)].
    + unfold Parse in HP.
      rewrite (Parse_loop_Body_skip _ _ 0 (init s) Hall eq_refl) in HP. discriminate.
    + exact (Parse_no_panic_after_file _ _ _ _ msg Hs Hpre Hl HP).
Qed.

Lemma Parse_well_formed_witness :
  well_formed (Split sample newline) /\ exists d, Parse sample = Ok d.
Proof.
  assert (H : well_formed (Split sample newline)).
  { replace (Split sample newline)
      with ["diff --git a/x.txt b/x.txt"; "index 0a1b2c3..4d5e6f7 100644"; "--- a/x.txt";
            "+++ b/x.txt"; "@@ -1,3 +1,4 @@ func foo"; " a"; "+b"; " c"; "-old"]%string
      by (vm_compute; reflexivity).
    split; [|split].
    - right. exists [], "diff --git a/x.txt b/x.txt"%string,
               ["index 0a1b2c3..4d5e6f7 100644"; "--- a/x.txt"; "+++ b/x.txt";
                "@@ -1,3 +1,4 @@ func foo"; " a"; "+b"; " c"; "-old"]%string.
      split; [reflexivity|]. split; [constructor|reflexivity].
    - repeat first [apply Forall_nil_2|apply Forall_cons_2];
        intros Hc; try (vm_compute in Hc; discriminate Hc).
      exists "1"%string, (Some "3"%string), "1"%string, (Some "4"%string),
             (Some "func foo"%string).
      repeat split; try discriminate; reflexivity.
    - intros pre l post Hs Hopen Hc.
      do 9 (destruct pre as [|? pre];
            [injection Hs as <- <-; try (vm_compute in Hopen; discriminate Hopen);
             try (vm_compute in Hc; discriminate Hc);
             first [exists UNCHANGED; eexists; reflexivity
                   |exists ADDED; eexists; reflexivity
                   |exists REMOVED; eexists; reflexivity]
            |injection Hs as <- Hs]).
      destruct pre; discriminate Hs. }
  exact (conj H (Parse_well_formed _ H)).
Defined.
